(** * Code-Migration-CLI-Tool: rule engine, fixer and error handler

    A shallow embedding of [lib/ruleEngine.js], [lib/fixer.js] and
    [lib/errorHandler.js], together with the parts of the JavaScript runtime
    they call (strings, [RegExp], [String.prototype.replace], objects used as
    maps, [fs-extra], [path]). *)

From Stdlib Require Import ZArith Ascii String Lia Sorted Permutation.
From Stdlib Require Import DecimalString.
From stdpp Require Import base option list gmap strings.

Local Open Scope Z_scope.
Local Open Scope nat_scope.

(** ** Results of fallible code *)

(** A JavaScript call either returns a value or throws.  [Throw] carries the
    [message] of the thrown [Error]. *)
Inductive result (A : Type) : Type :=
| Return (a : A)
| Throw (message : string).
Arguments Return {A} a.
Arguments Throw {A} message.

(** ** JavaScript strings

    Source strings are sequences of UTF-16 code units; they are modelled by
    [string], one character per code unit. *)
Module JSString.

Definition newline : ascii := ascii_of_nat 10.
Definition dquote : string := String (ascii_of_nat 34) EmptyString.
Definition slash : ascii := ascii_of_nat 47.

(** [s.substring(a, b)] for [a <= b]. *)
Definition slice (a b : nat) (s : string) : string :=
  String.substring a (b - a) s.

(** [s.substring(a)]. *)
Definition slice_from (a : nat) (s : string) : string :=
  String.substring a (String.length s - a) s.

(** Number of occurrences of the character [c]. *)
Fixpoint count (c : ascii) (s : string) : nat :=
  match s with
  | EmptyString => 0
  | String a s' => (if Ascii.eqb a c then 1 else 0) + count c s'
  end.

(** [s.split(c)] for a one-character separator. *)
Fixpoint split (c : ascii) (s : string) : list string :=
  match s with
  | EmptyString => [EmptyString]
  | String a s' =>
      if Ascii.eqb a c then EmptyString :: split c s'
      else match split c s' with
           | [] => [String a EmptyString]
           | h :: t => String a h :: t
           end
  end.

Fixpoint lastIndexOf_from (c : ascii) (s : string) (i : Z) (found : Z) : Z :=
  match s with
  | EmptyString => found
  | String a s' =>
      lastIndexOf_from c s' (i + 1)%Z (if Ascii.eqb a c then i else found)
  end.

(** [s.lastIndexOf(c)] for a one-character needle: [-1] when absent. *)
Definition lastIndexOf (c : ascii) (s : string) : Z :=
  lastIndexOf_from c s 0%Z (-1)%Z.

(** [s.indexOf(needle)]. *)
Definition indexOf (needle s : string) : option nat :=
  String.index 0 needle s.

Definition isDigit (c : ascii) : bool :=
  let n := nat_of_ascii c in (48 <=? n) && (n <=? 57).

Definition digit (c : ascii) : nat := nat_of_ascii c - 48.

Fixpoint repeat (c : ascii) (n : nat) : string :=
  match n with
  | 0 => EmptyString
  | S n' => String c (repeat c n')
  end.

End JSString.

(** ** Regular expressions

  The regular-expression engine is the JavaScript runtime's.  It is
  abstracted by an interface: compiling a pattern source (which throws a
  [SyntaxError] on an invalid pattern) and searching a string from a given
  position.  A successful search reports how far after the start position
  the match begins, how many characters it spans and the captured groups. *)
Record MatchResult : Type := mkMatch {
  m_index : nat;                       (* match.index *)
  m_text : string;                     (* match[0] *)
  m_captures : list (option string)    (* match[1], match[2], ... *)
}.

Class RegExpEngine : Type := {
  RegExp : Type;
  (* [new RegExp(pattern, 'g')] or, with the flag set, [new RegExp(pattern, 'gm')] *)
  RegExp_new : string -> bool -> result RegExp;
  RegExp_search : RegExp -> string -> nat -> option (nat * nat * list (option string))
}.

Module JSRegExp.
Section WithEngine.
Context {E : RegExpEngine}.

(** [re.exec(s)] for a global regular expression whose [lastIndex] is
    [lastIndex]: the match, if any, and the new value of [lastIndex]
    (reset to [0] on failure). *)
Definition exec (re : RegExp) (s : string) (lastIndex : nat)
  : option MatchResult * nat :=
  if String.length s <? lastIndex then (None, 0)
  else match RegExp_search re s lastIndex with
       | None => (None, 0)
       | Some (skip, len, caps) =>
           let i := lastIndex + skip in
           if String.length s <? i then (None, 0)
           else let text := String.substring i len s in
                (Some (mkMatch i text caps), i + String.length text)
       end.

(** The position from which the next search of a loop over all matches
    starts: an empty match advances [lastIndex] by one. *)
Definition advance (m : MatchResult) (lastIndex : nat) : nat :=
  if String.length (m_text m) =? 0 then S lastIndex else lastIndex.

(** All the matches found by repeated [exec] calls starting from
    [lastIndex].  Every successful call moves [lastIndex] forward, so
    [S (length s) - lastIndex] calls suffice; [fuel] bounds them. *)
Fixpoint matchesFrom (fuel : nat) (re : RegExp) (s : string) (lastIndex : nat)
  : list MatchResult :=
  match fuel with
  | 0 => []
  | S fuel' =>
      match exec re s lastIndex with
      | (None, _) => []
      | (Some m, li) => m :: matchesFrom fuel' re s (advance m li)
      end
  end.

Definition matchAll (re : RegExp) (s : string) : list MatchResult :=
  matchesFrom (S (String.length s)) re s 0.

(** [GetSubstitution]: expansion of the replacement template for one match
    ([$$], [$&], [$`], [$'], [$n], [$nn]; no named groups). *)
Definition capture (caps : list (option string)) (n : nat) : string :=
  match caps !! (n - 1) with
  | Some (Some c) => c
  | _ => EmptyString
  end.

Fixpoint GetSubstitution (text str : string) (position : nat)
    (caps : list (option string)) (template : string) : string :=
  match template with
  | EmptyString => EmptyString
  | String c rest =>
      if negb (Ascii.eqb c "$") then
        String c (GetSubstitution text str position caps rest)
      else
        match rest with
        | EmptyString => String c EmptyString
        | String d rest1 =>
            let one_digit :=
              if (1 <=? JSString.digit d) && (JSString.digit d <=? length caps)
              then capture caps (JSString.digit d)
                     +:+ GetSubstitution text str position caps rest1
              else String c (String d (GetSubstitution text str position caps rest1)) in
            if Ascii.eqb d "$" then
              String "$" (GetSubstitution text str position caps rest1)
            else if Ascii.eqb d "&" then
              text +:+ GetSubstitution text str position caps rest1
            else if Ascii.eqb d "`" then
              JSString.slice 0 position str
                +:+ GetSubstitution text str position caps rest1
            else if Ascii.eqb d "'" then
              JSString.slice_from (position + String.length text) str
                +:+ GetSubstitution text str position caps rest1
            else if JSString.isDigit d then
              match rest1 with
              | EmptyString => one_digit
              | String e rest2 =>
                  let nn := 10 * JSString.digit d + JSString.digit e in
                  if JSString.isDigit e && (1 <=? nn) && (nn <=? length caps)
                  then capture caps nn
                         +:+ GetSubstitution text str position caps rest2
                  else one_digit
              end
            else String c (GetSubstitution text str position caps rest)
        end
  end.

(** Assembly of the result of a global replace from the list of matches. *)
Fixpoint substitute (s replacement : string) (ms : list MatchResult)
    (nextSourcePosition : nat) : string :=
  match ms with
  | [] => JSString.slice_from nextSourcePosition s
  | m :: ms' =>
      let position := m_index m in
      if nextSourcePosition <=? position then
        JSString.slice nextSourcePosition position s
          +:+ GetSubstitution (m_text m) s position (m_captures m) replacement
          +:+ substitute s replacement ms' (position + String.length (m_text m))
      else substitute s replacement ms' nextSourcePosition
  end.

(** [s.replace(re, replacement)] for a global [re]. *)
Definition replace_regexp (s : string) (re : RegExp) (replacement : string) : string :=
  substitute s replacement (matchAll re s) 0.

(** [s.replace(needle, replacement)] for a string [needle]: only the first
    occurrence is replaced. *)
Definition replace_string (s needle replacement : string) : string :=
  match JSString.indexOf needle s with
  | None => s
  | Some position =>
      JSString.slice 0 position s
        +:+ GetSubstitution needle s position [] replacement
        +:+ JSString.slice_from (position + String.length needle) s
  end.

End WithEngine.
End JSRegExp.

(** ** Parsed JSON documents *)
#[warnings="-register-all"]
Inductive json : Type :=
| JNull
| JBool (b : bool)
| JNumber (n : Z)
| JString (s : string)
| JArray (items : list json)
| JObject (fields : list (string * json)).

Module JSON.

(** Own property lookup in a parsed object; with duplicate keys the last
    one wins. *)
Fixpoint lookup_field (key : string) (fields : list (string * json)) : option json :=
  match fields with
  | [] => None
  | (k, v) :: rest =>
      match lookup_field key rest with
      | Some v' => Some v'
      | None => if String.eqb k key then Some v else None
      end
  end.

(** [value[key]] for one of the rule field names: [None] is [undefined];
    reading a property of [null] throws a [TypeError]. *)
Definition get (value : json) (key : string) : result (option json) :=
  match value with
  | JNull =>
      Throw ("Cannot read properties of null (reading '" +:+ key +:+ "')")
  | JObject fields => Return (lookup_field key fields)
  | _ => Return None
  end.

(** Truthiness of [value[key]]. *)
Definition truthy (v : option json) : bool :=
  match v with
  | None | Some JNull | Some (JBool false) | Some (JNumber 0%Z) => false
  | Some (JString s) => negb (String.eqb s EmptyString)
  | Some _ => true
  end.

End JSON.

(** ** Data model *)
Inductive Severity : Type := SevError | SevWarning | SevInfo.

(** A rule that passed [validateRule]. *)
Record Rule : Type := mkRule {
  r_id : string;
  r_name : string;
  r_description : json;
  r_pattern : string;
  r_replacement : option string;     (* [None] is [null] *)
  r_fileTypes : list json;
  r_severity : Severity
}.

Record Finding : Type := mkFinding {
  f_ruleId : string;
  f_ruleName : string;
  f_description : json;
  f_filePath : string;
  f_lineNumber : Z;
  f_columnNumber : Z;
  f_matchedText : string;
  f_severity : Severity;
  f_fixable : bool;
  f_replacement : option string;     (* [None] is [null] *)
  f_pattern : option string          (* [None] is [undefined] *)
}.

(** ** JavaScript numbers that are exact

    A size in bytes is an integer below [2^53], which a number holds
    exactly, and dividing it by a power of [1024] is exact in floating
    point, so a scaled size is the exact quotient of two integers. *)
Module JSNumber.

(** [String(n)] for a non-negative integer. *)
Definition decimal (n : N) : string := NilZero.string_of_uint (N.to_uint n).

(** [(num / den).toFixed(1)] for [den > 0]: the nearest number of tenths,
    the larger one on a tie. *)
Definition toFixed1 (num den : N) : string :=
  let tenths := ((20 * num + den) / (2 * den))%N in
  decimal (tenths / 10)%N +:+ "." +:+ decimal (tenths mod 10)%N.

(** [Math.round(num / den)] for [den > 0]. *)
Definition round (num den : N) : N := ((2 * num + den) / (2 * den))%N.

End JSNumber.

(** ** lib/errorHandler.js *)
Inductive ErrorType : Type :=
| TPermission | TFileSize | TEncoding | TTimeout
| TMemory | TRegex | TFilesystem | TUnknown.

Record ErrorCounts : Type := mkCounts {
  c_permission : nat; c_fileSize : nat; c_encoding : nat; c_timeout : nat;
  c_memory : nat; c_regex : nat; c_filesystem : nat; c_unknown : nat
}.

(** What the handler prints: [Warn m] is
  [console.warn(formatter.formatWarning(m))] and [Error m] is
  [console.error(formatter.formatError(new Error(m)))]. *)
Inductive ConsoleEvent : Type :=
| Warn (message : string)
| Error (message : string).

(** The object returned by a handler; flags that a handler does not set are
  [false]. *)
Record ErrorRecord : Type := mkErrorRecord {
  e_type : ErrorType;
  e_message : string;
  e_suggestion : string;
  e_recoverable : bool;
  e_skipFile : bool;
  e_skipRule : bool;
  e_critical : bool
}.

(** Last path component, as [path.basename] computes it on POSIX paths. *)
Definition basename (p : string) : string :=
  List.last (List.filter (fun c => negb (String.eqb c EmptyString))
                       (JSString.split JSString.slash p)) EmptyString.

Module ErrorHandler.

Record t : Type := mk {
  errorCounts : ErrorCounts;
  console : list ConsoleEvent        (* oldest first *)
}.

Definition zeroCounts : ErrorCounts := mkCounts 0 0 0 0 0 0 0 0.

(** [new ErrorHandler(formatter)] *)
Definition new : t := mk zeroCounts [].

Definition print (ev : ConsoleEvent) (h : t) : t :=
  mk (errorCounts h) (console h ++ [ev]).

Definition handlePermissionError (filePath : string) (h : t) : ErrorRecord * t :=
  let c := errorCounts h in
  let c' := mkCounts (S (c_permission c)) (c_fileSize c) (c_encoding c)
              (c_timeout c) (c_memory c) (c_regex c) (c_filesystem c)
              (c_unknown c) in
  let h1 := mk c' (console h) in
  let result :=
    mkErrorRecord TPermission
      ("Permission denied: " +:+ basename filePath)
      "Check file permissions and ensure read access"
      true true false false in
  let h2 :=
    if c_permission c' <=? 3 then
      print (Warn (e_message result +:+ " - " +:+ e_suggestion result)) h1
    else if c_permission c' =? 4 then
      print (Warn "Multiple permission errors detected. Further permission errors will be logged silently.") h1
    else h1 in
  (result, h2).

Definition handleRegexTimeoutError (ruleId filePath : string) (h : t) : ErrorRecord * t :=
  let c := errorCounts h in
  let c' := mkCounts (c_permission c) (c_fileSize c) (c_encoding c)
              (S (c_timeout c)) (c_memory c) (c_regex c) (c_filesystem c)
              (c_unknown c) in
  let result :=
    mkErrorRecord TTimeout
      ("Regex timeout in rule " +:+ JSString.dquote +:+ ruleId +:+ JSString.dquote
         +:+ " for " +:+ basename filePath)
      "Rule pattern may be too complex or cause catastrophic backtracking"
      true false true false in
  (result, print (Warn (e_message result +:+ " - " +:+ e_suggestion result))
                 (mk c' (console h))).

Definition handleInvalidRegexError (ruleId pattern errorMessage : string) (h : t)
  : ErrorRecord * t :=
  let c := errorCounts h in
  let c' := mkCounts (c_permission c) (c_fileSize c) (c_encoding c)
              (c_timeout c) (c_memory c) (S (c_regex c)) (c_filesystem c)
              (c_unknown c) in
  let result :=
    mkErrorRecord TRegex
      ("Invalid regex pattern in rule " +:+ JSString.dquote +:+ ruleId
         +:+ JSString.dquote +:+ ": " +:+ errorMessage)
      "Check rule configuration and fix the regex pattern"
      false false true false in
  (result, print (Error (e_message result +:+ " - " +:+ e_suggestion result))
                 (mk c' (console h))).

Definition handleUnknownError (operation errorMessage : string) (h : t)
  : ErrorRecord * t :=
  let c := errorCounts h in
  let c' := mkCounts (c_permission c) (c_fileSize c) (c_encoding c)
              (c_timeout c) (c_memory c) (c_regex c) (c_filesystem c)
              (S (c_unknown c)) in
  let result :=
    mkErrorRecord TUnknown
      ("Unexpected error during " +:+ operation +:+ ": " +:+ errorMessage)
      "This may be a bug. Consider reporting it with --verbose output"
      false false false true in
  (result, print (Error (e_message result +:+ " - " +:+ e_suggestion result))
                 (mk c' (console h))).

(** [withTimeout(operation, ms, context)].  The operations wrapped by the
    rule engine settle synchronously inside their promise executor, before
    the timer can fire, so the wrapper hands back the operation's outcome. *)
Definition withTimeout {A : Type} (operation : result A) : result A := operation.

(** The result objects of [handleMemoryPressure] and
    [handleFilesystemError], which carry one flag more. *)
Record Classified : Type := mkClassified {
  record : ErrorRecord;
  pauseProcessing : bool;
  retryable : bool
}.

Definition units : list string := ["B"; "KB"; "MB"; "GB"].

(** The [while (size >= 1024 && unitIndex < units.length - 1)] loop of
    [formatFileSize]: the final [unitIndex].  [remaining] is
    [units.length - 1 - unitIndex], and [size] is [bytes / 1024^unitIndex]. *)
Fixpoint scale (remaining : nat) (bytes : N) (unitIndex : nat) : nat :=
  match remaining with
  | 0 => unitIndex
  | S remaining' =>
      if (1024 ^ N.of_nat (S unitIndex) <=? bytes)%N
      then scale remaining' bytes (S unitIndex)
      else unitIndex
  end.

(** [formatFileSize(bytes)] *)
Definition formatFileSize (bytes : N) : string :=
  let unitIndex := scale 3 bytes 0 in
  JSNumber.toFixed1 bytes (1024 ^ N.of_nat unitIndex)
    +:+ nth unitIndex units EmptyString.

Definition handleFileSizeError (filePath : string) (fileSize maxSize : N) (h : t)
  : ErrorRecord * t :=
  let c := errorCounts h in
  let c' := mkCounts (c_permission c) (S (c_fileSize c)) (c_encoding c)
              (c_timeout c) (c_memory c) (c_regex c) (c_filesystem c)
              (c_unknown c) in
  let result :=
    mkErrorRecord TFileSize
      ("File too large: " +:+ basename filePath +:+ " ("
         +:+ formatFileSize fileSize +:+ ")")
      ("Increase --max-file-size limit (current: "
         +:+ formatFileSize maxSize +:+ ")")
      true true false false in
  (result, print (Warn (e_message result +:+ " - " +:+ e_suggestion result))
                 (mk c' (console h))).

Definition handleEncodingError (filePath : string) (h : t) : ErrorRecord * t :=
  let c := errorCounts h in
  let c' := mkCounts (c_permission c) (c_fileSize c) (S (c_encoding c))
              (c_timeout c) (c_memory c) (c_regex c) (c_filesystem c)
              (c_unknown c) in
  let h1 := mk c' (console h) in
  let result :=
    mkErrorRecord TEncoding
      ("Encoding error: " +:+ basename filePath)
      "File may be binary or use unsupported encoding"
      true true false false in
  (result,
   if c_encoding c' <=? 5
   then print (Warn (e_message result +:+ " - " +:+ e_suggestion result)) h1
   else h1).

(** [handleMemoryPressure(operation, memoryUsage)]; the call of [global.gc]
    has no effect on the handler. *)
Definition handleMemoryPressure (operation : string) (memoryUsage : N) (h : t)
  : Classified * t :=
  let c := errorCounts h in
  let c' := mkCounts (c_permission c) (c_fileSize c) (c_encoding c)
              (c_timeout c) (S (c_memory c)) (c_regex c) (c_filesystem c)
              (c_unknown c) in
  let result :=
    mkErrorRecord TMemory
      ("High memory usage detected during " +:+ operation)
      "Consider processing smaller batches or increasing available memory"
      true false false false in
  (mkClassified result true false,
   print (Warn (e_message result +:+ " (" +:+ formatFileSize memoryUsage +:+ ") - "
                  +:+ e_suggestion result))
         (mk c' (console h))).

(** [getFilesystemErrorSuggestion(error)], from [error.code] ([None] when
    the error has no code).  The table of suggestions is a plain object, so
    the definition holds for the codes that do not name a property of
    [Object.prototype]; the system's error codes are of this kind. *)
Definition getFilesystemErrorSuggestion (code : option string) : string :=
  match code with
  | Some code =>
      if String.eqb code "ENOENT" then "File or directory does not exist"
      else if String.eqb code "EACCES"
      then "Permission denied - check file/directory permissions"
      else if String.eqb code "ENOSPC"
      then "No space left on device - free up disk space"
      else if String.eqb code "EMFILE"
      then "Too many open files - close some files or increase limits"
      else if String.eqb code "ENOTDIR" then "Path component is not a directory"
      else if String.eqb code "EISDIR" then "Path is a directory, not a file"
      else if String.eqb code "EBUSY"
      then "File is busy or locked by another process"
      else if String.eqb code "EROFS"
      then "Read-only file system - cannot write to this location"
      else "Check file system and permissions"
  | None => "Check file system and permissions"
  end.

Definition recoverableCodes : list string := ["ENOENT"; "EACCES"; "ENOTDIR"; "EISDIR"].

(** [isFilesystemErrorRecoverable(error)] *)
Definition isFilesystemErrorRecoverable (code : option string) : bool :=
  match code with
  | Some code => existsb (String.eqb code) recoverableCodes
  | None => false
  end.

Definition handleFilesystemError (operation path errorMessage : string)
    (code : option string) (h : t) : Classified * t :=
  let c := errorCounts h in
  let c' := mkCounts (c_permission c) (c_fileSize c) (c_encoding c)
              (c_timeout c) (c_memory c) (c_regex c) (S (c_filesystem c))
              (c_unknown c) in
  let result :=
    mkErrorRecord TFilesystem
      ("Filesystem error during " +:+ operation +:+ ": " +:+ errorMessage)
      (getFilesystemErrorSuggestion code)
      (isFilesystemErrorRecoverable code) false false false in
  (mkClassified result false true,
   print (if e_recoverable result
          then Warn (e_message result +:+ " - " +:+ e_suggestion result)
          else Error (e_message result +:+ " - " +:+ e_suggestion result))
         (mk c' (console h))).

Record MemoryPressure : Type := mkMemoryPressure {
  mp_current : N;
  mp_total : N;
  mp_warning : bool;
  mp_critical : bool
}.

(** [checkMemoryUsage()] when [process.memoryUsage()] reports [heapUsed] and
    [heapTotal]; the [percentage] field, a floating-point quotient, is left
    out of the result. *)
Definition checkMemoryUsage (heapUsed heapTotal : N) (h : t) : MemoryPressure * t :=
  let totalMB := JSNumber.round heapUsed (1024 * 1024) in
  let maxMB := JSNumber.round heapTotal (1024 * 1024) in
  let memoryPressure :=
    mkMemoryPressure heapUsed heapTotal (500 <? totalMB)%N (1000 <? totalMB)%N in
  (memoryPressure,
   if mp_critical memoryPressure then
     snd (handleMemoryPressure "memory check" heapUsed h)
   else if mp_warning memoryPressure then
     print (Warn ("High memory usage: " +:+ JSNumber.decimal totalMB +:+ "MB / "
                    +:+ JSNumber.decimal maxMB +:+ "MB")) h
   else h).

Record Summary : Type := mkSummary {
  total : nat;
  byType : ErrorCounts;
  hasErrors : bool;
  hasCriticalErrors : bool
}.

(** [getErrorSummary()] *)
Definition getErrorSummary (h : t) : Summary :=
  let c := errorCounts h in
  let total := c_permission c + c_fileSize c + c_encoding c + c_timeout c
               + c_memory c + c_regex c + c_filesystem c + c_unknown c in
  mkSummary total c (0 <? total) ((0 <? c_unknown c) || (0 <? c_regex c)).

(** [reset()] *)
Definition reset (h : t) : t := mk zeroCounts (console h).

End ErrorHandler.

(** Sequencing of fallible steps: a [Throw] skips the rest. *)
#[global] Instance result_bind : MBind result :=
  fun A B f m => match m with Return a => f a | Throw e => Throw e end.
#[global] Instance result_ret : MRet result := fun A a => Return a.

(** [haystack.includes(needle)] *)
Definition includes (needle haystack : string) : bool :=
  match JSString.indexOf needle haystack with Some _ => true | None => false end.

(** ** lib/ruleEngine.js *)
Module RuleEngine.
Section WithEngine.
Context {E : RegExpEngine}.

Record t : Type := mk {
  rules : list Rule;
  compiledRules : gmap string RegExp;
  errorHandler : option ErrorHandler.t
}.

(** [new RuleEngine(rulesPath, { errorHandler })] *)
Definition new (errorHandler : option ErrorHandler.t) : t :=
  mk [] ∅ errorHandler.

Definition requiredFields : list string :=
  ["id"; "name"; "description"; "pattern"; "fileTypes"; "severity"].

Definition validationFailed (what : string) : string :=
  "Rule validation failed: " +:+ what.

Definition quoted (s : string) : string :=
  JSString.dquote +:+ s +:+ JSString.dquote.

Fixpoint checkRequired (rule : json) (fields : list string) : result unit :=
  match fields with
  | [] => Return tt
  | field :: rest =>
      v ← JSON.get rule field;
      if JSON.truthy v then checkRequired rule rest
      else Throw (validationFailed ("missing required field " +:+ quoted field))
  end.

Definition severityOf (v : option json) : option Severity :=
  match v with
  | Some (JString s) =>
      if String.eqb s "error" then Some SevError
      else if String.eqb s "warning" then Some SevWarning
      else if String.eqb s "info" then Some SevInfo
      else None
  | _ => None
  end.

Definition validateRule (rule : json) : result Rule :=
  _ ← checkRequired rule requiredFields;
  id ← JSON.get rule "id";
  name ← JSON.get rule "name";
  description ← JSON.get rule "description";
  pattern ← JSON.get rule "pattern";
  fileTypes ← JSON.get rule "fileTypes";
  severity ← JSON.get rule "severity";
  replacement ← JSON.get rule "replacement";
  match id with
  | Some (JString id) =>
    match name with
    | Some (JString name) =>
      match pattern with
      | Some (JString pattern) =>
        match fileTypes with
        | Some (JArray fileTypes) =>
          match severityOf severity with
          | Some severity =>
            match replacement with
            | Some JNull =>
                Return (mkRule id name (default JNull description) pattern
                               None fileTypes severity)
            | Some (JString r) =>
                Return (mkRule id name (default JNull description) pattern
                               (Some r) fileTypes severity)
            | _ => Throw (validationFailed
                     (quoted "replacement" +:+ " must be a string or null"))
            end
          | None => Throw (validationFailed
                      (quoted "severity" +:+ " must be one of: error, warning, info"))
          end
        | _ => Throw (validationFailed (quoted "fileTypes" +:+ " must be an array"))
        end
      | _ => Throw (validationFailed (quoted "pattern" +:+ " must be a string"))
      end
    | _ => Throw (validationFailed (quoted "name" +:+ " must be a string"))
    end
  | _ => Throw (validationFailed (quoted "id" +:+ " must be a string"))
  end.

(** What reading and parsing the rules file gave. *)
Inductive RulesFile : Type :=
| FileMissing                       (* [fs.pathExists] is false *)
| ReadFailed (message : string)     (* [fs.readFile] threw, not [ENOENT] *)
| InvalidJSON (message : string)    (* [JSON.parse] threw a [SyntaxError] *)
| Parsed (rulesConfig : json).

(** The [for (const rule of rulesConfig.rules)] loop of [loadRules]. *)
Fixpoint loadEach (items : list json) (this : t) : result unit * t :=
  match items with
  | [] => (Return tt, this)
  | rule :: rest =>
      match validateRule rule with
      | Throw m => (Throw m, this)
      | Return validatedRule =>
          let this1 := mk (rules this ++ [validatedRule]) (compiledRules this)
                          (errorHandler this) in
          match RegExp_new (r_pattern validatedRule) true with
          | Return compiledPattern =>
              loadEach rest
                (mk (rules this1)
                    (<[r_id validatedRule := compiledPattern]> (compiledRules this1))
                    (errorHandler this1))
          | Throw message =>
              match errorHandler this1 with
              | Some h =>
                  let h' := snd (ErrorHandler.handleInvalidRegexError
                                   (r_id validatedRule) (r_pattern validatedRule)
                                   message h) in
                  loadEach rest (mk (rules this1) (compiledRules this1) (Some h'))
              | None =>
                  (Throw ("Invalid regex pattern in rule "
                            +:+ quoted (r_id validatedRule) +:+ ": " +:+ message),
                   this1)
              end
          end
      end
  end.

(** [loadRules()]: the outcome and the engine afterwards.  A [Throw] is a
    rejection of the returned promise. *)
Definition loadRules (rulesPath : string) (file : RulesFile) (this : t)
  : result unit * t :=
  match file with
  | FileMissing => (Throw ("Rules file not found: " +:+ rulesPath), this)
  | ReadFailed message => (Throw message, this)
  | InvalidJSON message =>
      (Throw ("Invalid JSON in rules file: " +:+ message), this)
  | Parsed rulesConfig =>
      match JSON.get rulesConfig "rules" with
      | Throw m => (Throw m, this)
      | Return (Some (JArray items)) =>
          loadEach items (mk [] ∅ (errorHandler this))
      | Return _ =>
          (Throw ("Invalid rules file: missing or invalid " +:+ quoted "rules"
                    +:+ " array"), this)
      end
  end.

#[warnings="-abstract-large-number"]
Definition maxIterations : nat := 10000.

Definition tooManyMatches : string :=
  "Too many regex matches (10000+) - possible infinite loop".

(** The finding built for one match. *)
Definition findingOf (content : string) (rule : Rule) (filePath : string)
    (m : MatchResult) : Finding :=
  let beforeMatch := JSString.slice 0 (m_index m) content in
  let lineNumber := Z.of_nat (length (JSString.split JSString.newline beforeMatch)) in
  let columnNumber :=
    (Z.of_nat (String.length beforeMatch)
       - JSString.lastIndexOf JSString.newline beforeMatch)%Z in
  mkFinding (r_id rule) (r_name rule) (r_description rule) filePath
            lineNumber columnNumber (m_text m) (r_severity rule)
            (match r_replacement rule with Some _ => true | None => false end)
            (r_replacement rule) (Some (r_pattern rule)).

(** The [while ((match = compiledPattern.exec(content)) !== null)] loop.
    [remaining] is [maxIterations - iterations]: a match found when nothing
    remains makes [iterations] exceed [maxIterations] and rejects. *)
Fixpoint scan (remaining : nat) (compiledPattern : RegExp) (content : string)
    (rule : Rule) (filePath : string) (lastIndex : nat) : result (list Finding) :=
  match JSRegExp.exec compiledPattern content lastIndex with
  | (None, _) => Return []
  | (Some m, li) =>
      match remaining with
      | 0 => Throw tooManyMatches
      | S remaining' =>
          findings ← scan remaining' compiledPattern content rule filePath
                          (JSRegExp.advance m li);
          Return (findingOf content rule filePath m :: findings)
      end
  end.

(** [applyRuleWithTimeout(compiledPattern, content, rule, filePath)], called
    with [compiledPattern.lastIndex] reset to [0]. *)
Definition applyRuleWithTimeout (this : t) (compiledPattern : RegExp)
    (content : string) (rule : Rule) (filePath : string) : result (list Finding) :=
  let applyRule := scan maxIterations compiledPattern content rule filePath 0 in
  match errorHandler this with
  | Some _ => ErrorHandler.withTimeout applyRule
  | None => applyRule
  end.

(** [rule.fileTypes.includes(fileExtension)] *)
Definition appliesTo (rule : Rule) (fileExtension : string) : bool :=
  existsb (fun j => match j with
                    | JString s => String.eqb s fileExtension
                    | _ => false
                    end) (r_fileTypes rule).

(** The [for (const rule of this.rules)] loop of [applyRules]. *)
Fixpoint applyEach (todo : list Rule) (content filePath fileExtension : string)
    (this : t) : list Finding * t :=
  match todo with
  | [] => ([], this)
  | rule :: rest =>
      if negb (appliesTo rule fileExtension) then
        applyEach rest content filePath fileExtension this
      else
        match compiledRules this !! r_id rule with
        | None => applyEach rest content filePath fileExtension this
        | Some compiledPattern =>
            match applyRuleWithTimeout this compiledPattern content rule filePath with
            | Return ruleFindings =>
                let '(findings, this') :=
                  applyEach rest content filePath fileExtension this in
                (ruleFindings ++ findings, this')
            | Throw message =>
                let this1 :=
                  match errorHandler this with
                  | Some h =>
                      let h' :=
                        if includes "timed out" message
                        then snd (ErrorHandler.handleRegexTimeoutError
                                    (r_id rule) filePath h)
                        else snd (ErrorHandler.handleUnknownError
                                    "rule application" message h) in
                      mk (rules this) (compiledRules this) (Some h')
                  | None => this
                  end in
                applyEach rest content filePath fileExtension this1
            end
        end
  end.

(** [applyRules(content, filePath, fileExtension)] *)
Definition applyRules (content filePath fileExtension : string) (this : t)
  : list Finding * t :=
  applyEach (rules this) content filePath fileExtension this.

(** [getRuleById(ruleId)]: [None] is [null]. *)
Definition getRuleById (ruleId : string) (this : t) : option Rule :=
  List.find (fun rule => String.eqb (r_id rule) ruleId) (rules this).

(** [getAllRules()] *)
Definition getAllRules (this : t) : list Rule := rules this.

(** [getRulesForFileType(fileExtension)] *)
Definition getRulesForFileType (fileExtension : string) (this : t) : list Rule :=
  List.filter (fun rule => appliesTo rule fileExtension) (rules this).

End WithEngine.
End RuleEngine.

(** ** The file system, as [fs-extra] shows it to the fixer

  A flat map from paths to nodes.  Access rights are the owner bits of the
  mode; the contents of directories and the existence of parent directories
  are not tracked.  The process is the owner of every node, so that
  [chmod] on an existing path succeeds, and a call that throws has changed
  nothing: a file owned by someone else and a write that stops half-way
  are outside the model. *)
Inductive node : Type :=
| File (content : string) (mode : N)
| Directory (mode : N).

Module FS.

Definition mode (n : node) : N :=
  match n with File _ m => m | Directory m => m end.

Definition isFile (n : node) : bool :=
  match n with File _ _ => true | Directory _ => false end.

Definition readable (n : node) : bool := N.testbit (mode n) 8.
Definition writable (n : node) : bool := N.testbit (mode n) 7.

Definition ENOENT : string := "ENOENT: no such file or directory".
Definition EACCES : string := "EACCES: permission denied".
Definition EISDIR : string := "EISDIR: illegal operation on a directory".
Definition EEXIST : string := "EEXIST: file already exists".

(** [fs.access(p, fs.constants.R_OK)] *)
Definition accessR (p : string) (fs : gmap string node) : result unit :=
  match fs !! p with
  | None => Throw ENOENT
  | Some n => if readable n then Return tt else Throw EACCES
  end.

(** [fs.access(p, fs.constants.W_OK)] *)
Definition accessW (p : string) (fs : gmap string node) : result unit :=
  match fs !! p with
  | None => Throw ENOENT
  | Some n => if writable n then Return tt else Throw EACCES
  end.

(** [fs.stat(p)] *)
Definition stat (p : string) (fs : gmap string node) : result node :=
  match fs !! p with
  | None => Throw ENOENT
  | Some n => Return n
  end.

(** [fs.pathExists(p)] *)
Definition pathExists (p : string) (fs : gmap string node) : bool :=
  match fs !! p with Some _ => true | None => false end.

(** [fs.ensureDir(p)] *)
Definition ensureDir (p : string) (fs : gmap string node)
  : result (gmap string node) :=
  match fs !! p with
  | None => Return (<[p := Directory 511%N]> fs)
  | Some (Directory _) => Return fs
  | Some (File _ _) => Throw EEXIST
  end.

(** [fs.readFile(p, 'utf8')] *)
Definition readFile (p : string) (fs : gmap string node) : result string :=
  match fs !! p with
  | None => Throw ENOENT
  | Some (Directory _) => Throw EISDIR
  | Some (File content m) =>
      if readable (File content m) then Return content else Throw EACCES
  end.

(** [fs.writeFile(p, content, 'utf8')] *)
Definition writeFile (p content : string) (fs : gmap string node)
  : result (gmap string node) :=
  match fs !! p with
  | None => Return (<[p := File content 420%N]> fs)
  | Some (Directory _) => Throw EISDIR
  | Some (File old m) =>
      if writable (File old m) then Return (<[p := File content m]> fs)
      else Throw EACCES
  end.

(** [fs.chmod(p, m)], called by the owner of [p]. *)
Definition chmod (p : string) (m : N) (fs : gmap string node)
  : result (gmap string node) :=
  match fs !! p with
  | None => Throw ENOENT
  | Some (File content _) => Return (<[p := File content m]> fs)
  | Some (Directory _) => Return (<[p := Directory m]> fs)
  end.

(** [fs.copy(src, dest, { overwrite })]; an existing destination is left
    alone, without an error, when [overwrite] is false. *)
Definition copy (src dest : string) (overwrite : bool) (fs : gmap string node)
  : result (gmap string node) :=
  match fs !! src with
  | None => Throw ENOENT
  | Some s =>
      match fs !! dest with
      | Some d =>
          if String.eqb src dest then
            Throw "Source and destination must not be the same."
          else if isFile s && negb (isFile d) then
            Throw "Cannot overwrite directory with non-directory"
          else if negb (isFile s) && isFile d then
            Throw "Cannot overwrite non-directory with directory"
          else if negb overwrite then Return fs
          else if negb (isFile s) then Return fs
          else if readable s then Return (<[dest := s]> fs)
          else Throw EACCES
      | None =>
          if negb (isFile s) then Return (<[dest := s]> fs)
          else if readable s then Return (<[dest := s]> fs)
          else Throw EACCES
      end
  end.

End FS.

(** ** JavaScript [Map], [Set] and plain objects used as maps

  Insertion order is observable through iteration, so they are association
  lists. *)
Module JSMap.
Section Defs.
Context {V : Type}.

Fixpoint get (k : string) (m : list (string * V)) : option V :=
  match m with
  | [] => None
  | (k', v) :: rest => if String.eqb k' k then Some v else get k rest
  end.

(** [map.set(k, v)]: an existing key keeps its place. *)
Fixpoint set (k : string) (v : V) (m : list (string * V)) : list (string * V) :=
  match m with
  | [] => [(k, v)]
  | (k', v') :: rest =>
      if String.eqb k' k then (k, v) :: rest else (k', v') :: set k v rest
  end.

Definition keys (m : list (string * V)) : list string := map fst m.

End Defs.
End JSMap.

Module JSSet.

Definition has (x : string) (s : list string) : bool :=
  existsb (String.eqb x) s.

Definition add (x : string) (s : list string) : list string :=
  if has x s then s else s ++ [x].

Definition delete (x : string) (s : list string) : list string :=
  List.filter (fun y => negb (String.eqb x y)) s.

End JSSet.

(** A plain object [{}] used as a map from file paths to arrays. *)
Module JSObject.

(** Property names that [{}] inherits from [Object.prototype]; reading one
    of them on an object without such an own property gives a function or
    an object, never [undefined]. *)
Definition inherited : list string :=
  ["constructor"; "__defineGetter__"; "__defineSetter__"; "hasOwnProperty";
   "__lookupGetter__"; "__lookupSetter__"; "isPrototypeOf";
   "propertyIsEnumerable"; "toString"; "valueOf"; "__proto__";
   "toLocaleString"].

Definition isInherited (k : string) : bool := existsb (String.eqb k) inherited.

Fixpoint digitsValue (s : string) (acc : N) : option N :=
  match s with
  | EmptyString => Some acc
  | String c s' =>
      if JSString.isDigit c
      then digitsValue s' (10 * acc + N.of_nat (JSString.digit c))%N
      else None
  end.

(** Array-index keys: canonical decimal strings below [2^32 - 1]. *)
Definition arrayIndex (k : string) : option N :=
  match k with
  | EmptyString => None
  | String c rest =>
      if Ascii.eqb c "0" && negb (String.eqb rest EmptyString) then None
      else match digitsValue k 0%N with
           | Some n => if (n <? 4294967295)%N then Some n else None
           | None => None
           end
  end.

Section Entries.
Context {V : Type}.

Fixpoint insertIndex (n : N) (e : string * V) (l : list (N * (string * V)))
  : list (N * (string * V)) :=
  match l with
  | [] => [(n, e)]
  | (n', e') :: rest =>
      if (n <? n')%N then (n, e) :: (n', e') :: rest
      else (n', e') :: insertIndex n e rest
  end.

Fixpoint indexEntries (m : list (string * V)) : list (N * (string * V)) :=
  match m with
  | [] => []
  | (k, v) :: rest =>
      match arrayIndex k with
      | Some n => insertIndex n (k, v) (indexEntries rest)
      | None => indexEntries rest
      end
  end.

(** [Object.entries(o)] for an object whose own properties were created
    in the order of [m]: array-index keys first, in increasing numeric
    order, then the other keys in creation order. *)
Definition entries (m : list (string * V)) : list (string * V) :=
  map snd (indexEntries m)
    ++ List.filter (fun e => match arrayIndex (fst e) with
                             | Some _ => false
                             | None => true
                             end) m.
End Entries.

End JSObject.

(** ** lib/errorHandler.js: checks of a file on disk *)
Module Validation.

Record Warning : Type := mkWarning {
  w_type : string;
  w_message : string;
  w_suggestion : string
}.

(** The validation object.  [fileInfo] is what [fs.stat] gave: its [size],
    [isFile], [isDirectory] and [permissions] are those of the node; the
    modification time is not part of the file system's model. *)
Record t : Type := mk {
  valid : bool;
  errors : list ErrorHandler.Classified;
  warnings : list Warning;
  fileInfo : option node        (* [None] is [null] *)
}.

(** A handler's result object without the two extra flags. *)
Definition plain (r : ErrorRecord) : ErrorHandler.Classified :=
  ErrorHandler.mkClassified r false false.

(** The bytes of a file: the UTF-8 encoding of its text.  A code unit of
    the model is below 256; it takes one byte below 128 and two bytes from
    128 on. *)
Fixpoint utf8 (content : string) : list Byte.byte :=
  match content with
  | EmptyString => []
  | String c rest =>
      let n := nat_of_ascii c in
      if n <? 128 then byte_of_ascii c :: utf8 rest
      else byte_of_ascii (ascii_of_nat (192 + n / 64))
             :: byte_of_ascii (ascii_of_nat (128 + n mod 64))
             :: utf8 rest
  end.

Definition isNul (b : Byte.byte) : bool := Byte.eqb b Byte.x00.

(** The first [n] bytes of a file. *)
Definition firstBytes (n : nat) (content : string) : list Byte.byte :=
  take n (utf8 content).

(** [isBinaryFile(filePath)]: any failure of [open] or [read] gives
    [false]. *)
Definition isBinaryFile (filePath : string) (fs : gmap string node) : bool :=
  match FS.readFile filePath fs with
  | Return content => existsb isNul (firstBytes 512 content)
  | Throw _ => false
  end.

(** [stats.size] of a regular file: its number of bytes. *)
Definition size (content : string) : N := N.of_nat (length (utf8 content)).

(** [validateFile(filePath, { maxFileSize })]; a [maxFileSize] of [0] is
    an absent or zero limit.  Nothing else throws between the checks, so the
    outer [catch], which reports an unknown error, is not reached. *)
Definition validateFile (filePath : string) (maxFileSize : N)
    (fs : gmap string node) (h : ErrorHandler.t) : t * ErrorHandler.t :=
  match fs !! filePath with
  | None =>
      let '(e, h') :=
        ErrorHandler.handleFilesystemError "file check" filePath
          "File does not exist" None h in
      (mk false [e] [] None, h')
  | Some (Directory mode) =>
      let '(e, h') :=
        ErrorHandler.handleFilesystemError "file check" filePath
          "Path is not a regular file" None h in
      (mk false [e] [] (Some (Directory mode)), h')
  | Some (File content mode) =>
      let stats := File content mode in
      if negb (maxFileSize =? 0)%N && (maxFileSize <? size content)%N then
        let '(e, h') :=
          ErrorHandler.handleFileSizeError filePath (size content) maxFileSize h in
        (mk false [plain e] [] (Some stats), h')
      else
        match FS.accessR filePath fs with
        | Throw _ =>
            let '(e, h') := ErrorHandler.handlePermissionError filePath h in
            (mk false [plain e] [] (Some stats), h')
        | Return _ =>
            (mk true []
                (if isBinaryFile filePath fs
                 then [mkWarning "binary" "File appears to be binary"
                                 "Binary files are typically skipped"]
                 else [])
                (Some stats), h)
        end
  end.

End Validation.

(** ** lib/fixer.js *)
Module Fixer.

Record Options : Type := mkOptions {
  backupDir : string;               (* [path.resolve(options.backupDir)] *)
  createTimestampedBackups : bool;
  dryRun : bool
}.

(** A fixer together with the world it acts on. *)
Record t : Type := mk {
  options : Options;
  backupRegistry : list (string * string);   (* a [Map], insertion order *)
  fixedFiles : list string;                  (* a [Set], insertion order *)
  fs : gmap string node;
  tick : nat                                 (* clock reads so far *)
}.

(** [new Fixer(options)] over a file system. *)
Definition new (o : Options) (files : gmap string node) : t := mk o [] [] files 0.

Record FixOptions : Type := mkFixOptions {
  backupBeforeFix : bool;
  continueOnError : bool
}.

Record ErrorInfo : Type := mkErrorInfo {
  ei_filePath : string;
  ei_error : string;
  ei_timestamp : string
}.

Record Results : Type := mkResults {
  filesProcessed : nat;
  filesFixed : nat;
  patternsReplaced : nat;
  errors : list ErrorInfo;
  backupsCreated : list string;
  res_fixedFiles : list string
}.

Definition noResults : Results := mkResults 0 0 0 [] [] [].

Record FileResult : Type := mkFileResult {
  fr_filePath : string;
  fr_patternsReplaced : nat;
  fr_originalSize : nat;
  fr_modifiedSize : nat;
  fr_dryRun : bool
}.

Record RestoreResults : Type := mkRestoreResults {
  filesRestored : nat;
  restoreErrors : list (string * string)     (* filePath, error *)
}.

(** Computations of the fixer: they read and update [t] and may throw;
    what was done before a throw stays done. *)
Definition M (A : Type) : Type := t -> result A * t.

Definition ret {A} (a : A) : M A := fun st => (Return a, st).
Definition throw {A} (message : string) : M A := fun st => (Throw message, st).
Definition bind {A B} (m : M A) (k : A -> M B) : M B :=
  fun st => match m st with
            | (Return a, st') => k a st'
            | (Throw e, st') => (Throw e, st')
            end.
Definition catch {A} (m : M A) (handler : string -> M A) : M A :=
  fun st => match m st with
            | (Return a, st') => (Return a, st')
            | (Throw e, st') => handler e st'
            end.

Definition setFs (files : gmap string node) (st : t) : t :=
  mk (options st) (backupRegistry st) (fixedFiles st) files (tick st).

(** [this.options] *)
Definition getOptions : M Options := fun st => (Return (options st), st).

(** A read-only file-system call. *)
Definition query {A} (f : gmap string node -> result A) : M A :=
  fun st => (f (fs st), st).

(** A file-system call that changes the file system. *)
Definition update (f : gmap string node -> result (gmap string node)) : M unit :=
  fun st => match f (fs st) with
            | Return files => (Return tt, setFs files st)
            | Throw e => (Throw e, st)
            end.

Notation "'let*' x := m 'in' k" := (bind m (fun x => k))
  (at level 10, x name, m at level 100, k at level 200).
Notation "'let*' '_' := m 'in' k" := (bind m (fun _ => k))
  (at level 10, m at level 100, k at level 200).

Section WithEngine.
Context {E : RegExpEngine}.
(** [clock n] is what [new Date().toISOString()] gives at the [n]-th read
    of the clock. *)
Variable clock : nat -> string.

Definition newDate : M string :=
  fun st => (Return (clock (tick st)),
             mk (options st) (backupRegistry st) (fixedFiles st) (fs st)
                (S (tick st))).

(** [iso.replace(/[:.]/g, '-')] *)
Fixpoint dashed (iso : string) : string :=
  match iso with
  | EmptyString => EmptyString
  | String c rest =>
      String (if Ascii.eqb c ":" || Ascii.eqb c "." then "-"%char else c)
             (dashed rest)
  end.

(** [path.join(dir, name)] for a resolved [dir] and a plain [name]. *)
Definition join (dir name : string) : string :=
  if String.eqb dir "/" then dir +:+ name else dir +:+ "/" +:+ name.

Definition register (filePath backupPath : string) : M unit :=
  fun st => (Return tt,
             mk (options st) (JSMap.set filePath backupPath (backupRegistry st))
                (fixedFiles st) (fs st) (tick st)).

(** [checkDiskSpace(filePath, backupDir)]; the warning printed for files
    above 100MB is left out. *)
Definition checkDiskSpace (filePath backupDir : string) : M unit :=
  catch (let* _ := query (FS.stat filePath) in
         query (FS.accessW backupDir))
        (fun message =>
           throw ("Insufficient disk space or permissions for backup: " +:+ message)).

(** [createBackup(filePath)] *)
Definition createBackup (filePath : string) : M string :=
  catch
    (let* _ := query (FS.accessR filePath) in
     let* stats := query (FS.stat filePath) in
     if negb (FS.isFile stats) then
       throw ("Cannot backup non-file: " +:+ filePath)
     else
       let* o := getOptions in
       let backupDir := backupDir o in
       let* _ := update (FS.ensureDir backupDir) in
       let originalName := basename filePath in
       let* iso := newDate in
       let timestamp := dashed iso in
       let backupName :=
         if createTimestampedBackups o
         then originalName +:+ "." +:+ timestamp +:+ ".backup"
         else originalName +:+ ".backup" in
       let backupPath := join backupDir backupName in
       let* _ := checkDiskSpace filePath backupDir in
       let* _ := update (FS.copy filePath backupPath false) in
       let* _ := register filePath backupPath in
       ret backupPath)
    (fun message =>
       throw ("Failed to create backup for " +:+ filePath +:+ ": " +:+ message)).

(** The text a replacement argument is converted to. *)
Definition replacementText (f : Finding) : string :=
  match f_replacement f with Some r => r | None => "null" end.

(** [applyPatternReplacement(content, finding)] *)
Definition applyPatternReplacement (content : string) (finding : Finding) : string :=
  match f_pattern finding with
  | Some pattern =>
      if String.eqb pattern EmptyString then
        JSRegExp.replace_string content (f_matchedText finding)
                                (replacementText finding)
      else
        match RegExp_new pattern false with
        | Return re => JSRegExp.replace_regexp content re (replacementText finding)
        | Throw _ =>
            JSRegExp.replace_string content (f_matchedText finding)
                                    (replacementText finding)
        end
  | None =>
      JSRegExp.replace_string content (f_matchedText finding)
                              (replacementText finding)
  end.

(** The comparator of [fixFile]: later positions first. *)
Definition compareFindings (a b : Finding) : Z :=
  if negb (f_lineNumber a =? f_lineNumber b)%Z
  then (f_lineNumber b - f_lineNumber a)%Z
  else (f_columnNumber b - f_columnNumber a)%Z.

(** [findings.sort(compare)]: the sort is stable. *)
Fixpoint insertSorted (x : Finding) (l : list Finding) : list Finding :=
  match l with
  | [] => [x]
  | y :: l' =>
      if (compareFindings x y <=? 0)%Z then x :: y :: l'
      else y :: insertSorted x l'
  end.

Fixpoint sortFindings (l : list Finding) : list Finding :=
  match l with
  | [] => []
  | x :: l' => insertSorted x (sortFindings l')
  end.

(** The [for (const finding of sortedFindings)] loop of [fixFile]. *)
Fixpoint applyEachFix (todo : list Finding) (modifiedContent : string)
    (patternsReplaced : nat) : string * nat :=
  match todo with
  | [] => (modifiedContent, patternsReplaced)
  | finding :: rest =>
      let beforeContent := modifiedContent in
      let modifiedContent := applyPatternReplacement modifiedContent finding in
      applyEachFix rest modifiedContent
        (if String.eqb modifiedContent beforeContent then patternsReplaced
         else S patternsReplaced)
  end.

(** [fixFile(filePath, findings, options)] *)
Definition fixFile (filePath : string) (findings : list Finding) : M FileResult :=
  catch
    (let* originalContent := query (FS.readFile filePath) in
     let sortedFindings := sortFindings findings in
     let applied := applyEachFix sortedFindings originalContent 0 in
     let modifiedContent := fst applied in
     let patternsReplaced := snd applied in
     let* o := getOptions in
     let* _ :=
       (if negb (dryRun o) && negb (String.eqb modifiedContent originalContent)
        then
          let* stats := query (FS.stat filePath) in
          let* _ := update (FS.writeFile filePath modifiedContent) in
          update (FS.chmod filePath (FS.mode stats))
        else ret tt) in
     ret (mkFileResult filePath patternsReplaced
                       (String.length originalContent)
                       (String.length modifiedContent)
                       (dryRun o)))
    (fun message =>
       throw ("Failed to fix file " +:+ filePath +:+ ": " +:+ message)).

(** [groupFindingsByFile(findings)]: the own properties of [grouped] in
    creation order.  A path that names an inherited property is found
    "already present" and has no [push]: a [TypeError]. *)
Fixpoint groupInto (grouped : list (string * list Finding))
    (findings : list Finding) : result (list (string * list Finding)) :=
  match findings with
  | [] => Return grouped
  | finding :: rest =>
      let key := f_filePath finding in
      match JSMap.get key grouped with
      | Some group => groupInto (JSMap.set key (group ++ [finding]) grouped) rest
      | None =>
          if JSObject.isInherited key
          then Throw "grouped[finding.filePath].push is not a function"
          else groupInto (grouped ++ [(key, [finding])]) rest
      end
  end.

Definition groupFindingsByFile (findings : list Finding)
  : result (list (string * list Finding)) :=
  groupInto [] findings.

Definition unregisterFixed (filePath : string) : M unit :=
  fun st => (Return tt,
             mk (options st) (backupRegistry st)
                (JSSet.delete filePath (fixedFiles st)) (fs st) (tick st)).

(** The body of the loop of [restoreFromBackup] for one path. *)
Definition restoreOne (filePath : string) : M unit :=
  fun st =>
    match JSMap.get filePath (backupRegistry st) with
    | None => (Throw ("No backup found for " +:+ filePath), st)
    | Some backupPath =>
        if String.eqb backupPath EmptyString then
          (Throw ("No backup found for " +:+ filePath), st)
        else if negb (FS.pathExists backupPath (fs st)) then
          (Throw ("Backup file not found: " +:+ backupPath), st)
        else
          (let* _ := update (FS.copy backupPath filePath true) in
           unregisterFixed filePath) st
    end.

(** [restoreFromBackup(filePaths)] for an array of paths. *)
Fixpoint restoreEach (paths : list string) (results : RestoreResults) (st : t)
  : RestoreResults * t :=
  match paths with
  | [] => (results, st)
  | filePath :: rest =>
      match restoreOne filePath st with
      | (Return _, st') =>
          restoreEach rest
            (mkRestoreResults (S (filesRestored results)) (restoreErrors results))
            st'
      | (Throw message, st') =>
          restoreEach rest
            (mkRestoreResults (filesRestored results)
               (restoreErrors results ++ [(filePath, message)]))
            st'
      end
  end.

Definition restoreFromBackup (paths : list string) (st : t) : RestoreResults * t :=
  restoreEach paths (mkRestoreResults 0 []) st.

(** [rollbackChanges()] *)
Definition rollbackChanges (st : t) : RestoreResults * t :=
  let filesToRestore := JSMap.keys (backupRegistry st) in
  let '(results, st') := restoreFromBackup filesToRestore st in
  (results, mk (options st') [] [] (fs st') (tick st')).

Definition markFixed (filePath : string) (st : t) : t :=
  mk (options st) (backupRegistry st) (JSSet.add filePath (fixedFiles st))
     (fs st) (tick st).

(** The [try] block of the loop of [applyFixes] for one file.  [results]
    is updated in place, so its changes survive a throw. *)
Definition fixOne (o : FixOptions) (filePath : string) (fileFindings : list Finding)
    (results : Results) (st : t) : result unit * Results * t :=
  let results1 :=
    mkResults (S (filesProcessed results)) (filesFixed results)
              (patternsReplaced results) (errors results)
              (backupsCreated results) (res_fixedFiles results) in
  let backup : result (option string) * t :=
    if backupBeforeFix o && negb (dryRun (options st)) then
      match createBackup filePath st with
      | (Return backupPath, st') => (Return (Some backupPath), st')
      | (Throw e, st') => (Throw e, st')
      end
    else (Return None, st) in
  match backup with
  | (Throw e, st1) => (Throw e, results1, st1)
  | (Return backupPath, st1) =>
      let results2 :=
        match backupPath with
        | Some b =>
            mkResults (filesProcessed results1) (filesFixed results1)
                      (patternsReplaced results1) (errors results1)
                      (backupsCreated results1 ++ [b]) (res_fixedFiles results1)
        | None => results1
        end in
      match fixFile filePath fileFindings st1 with
      | (Throw e, st2) => (Throw e, results2, st2)
      | (Return fixResult, st2) =>
          if 0 <? fr_patternsReplaced fixResult then
            (Return tt,
             mkResults (filesProcessed results2) (S (filesFixed results2))
                       (patternsReplaced results2 + fr_patternsReplaced fixResult)
                       (errors results2) (backupsCreated results2)
                       (res_fixedFiles results2 ++ [filePath]),
             markFixed filePath st2)
          else (Return tt, results2, st2)
      end
  end.

(** The [for (const [filePath, fileFindings] of Object.entries(...))] loop
    with its [catch] block. *)
Fixpoint fixEach (o : FixOptions) (todo : list (string * list Finding))
    (results : Results) (st : t) : result unit * Results * t :=
  match todo with
  | [] => (Return tt, results, st)
  | (filePath, fileFindings) :: rest =>
      match fixOne o filePath fileFindings results st with
      | (Return _, results', st') => fixEach o rest results' st'
      | (Throw message, results', st') =>
          let '(iso, st'') :=
            (clock (tick st'),
             mk (options st') (backupRegistry st') (fixedFiles st') (fs st')
                (S (tick st'))) in
          let results'' :=
            mkResults (filesProcessed results') (filesFixed results')
                      (patternsReplaced results')
                      (errors results' ++ [mkErrorInfo filePath message iso])
                      (backupsCreated results') (res_fixedFiles results') in
          if negb (continueOnError o) then
            (Throw ("Fix operation failed for " +:+ filePath +:+ ": " +:+ message),
             results'', st'')
          else fixEach o rest results'' st''
      end
  end.

Definition isFixable (finding : Finding) : bool :=
  f_fixable finding
    && match f_replacement finding with Some _ => true | None => false end.

(** [applyFixes(findings, options)] *)
Definition applyFixes (findings : list Finding) (o : FixOptions) (st : t)
  : result Results * t :=
  let fixableFindings := List.filter isFixable findings in
  if length fixableFindings =? 0 then (Return noResults, st)
  else
    match groupFindingsByFile fixableFindings with
    | Throw e => (Throw e, st)
    | Return findingsByFile =>
        match fixEach o (JSObject.entries findingsByFile) noResults st with
        | (Return _, results, st') => (Return results, st')
        | (Throw e, results, st') =>
            if 0 <? length (backupsCreated results)
            then (Throw e, snd (rollbackChanges st'))
            else (Throw e, st')
        end
    end.

(** [getFixedFiles()] *)
Definition getFixedFiles (st : t) : list string := fixedFiles st.

Record BackupInfo : Type := mkBackupInfo {
  originalFile : string;
  backupFile : string;
  hasBackup : bool
}.

(** [getBackupInfo(filePath)]: [None] is [null]. *)
Definition getBackupInfo (filePath : string) (st : t) : option BackupInfo :=
  match JSMap.get filePath (backupRegistry st) with
  | Some backupPath =>
      if String.eqb backupPath EmptyString then None
      else Some (mkBackupInfo filePath backupPath true)
  | None => None
  end.

(** [canFix(finding)], as the truth value of what it returns. *)
Definition canFix (finding : Finding) : bool :=
  f_fixable finding
    && match f_replacement finding with Some _ => true | None => false end
    && (negb (String.eqb (f_matchedText finding) EmptyString)
        || match f_pattern finding with
           | Some pattern => negb (String.eqb pattern EmptyString)
           | None => false
           end).

(** [formatFileSize(bytes)], the same code as the error handler's. *)
Definition formatFileSize (bytes : N) : string :=
  let unitIndex := ErrorHandler.scale 3 bytes 0 in
  JSNumber.toFixed1 bytes (1024 ^ N.of_nat unitIndex)
    +:+ nth unitIndex ErrorHandler.units EmptyString.

End WithEngine.
End Fixer.

(** ** index.js: the command line's use of the fixer and of the findings *)
Module CLI.

Record Options : Type := mkOptions {
  dryRun : bool;
  yes : bool;
  noBackup : bool
}.

Record Statistics : Type := mkStatistics {
  filesScanned : nat;
  issuesFound : nat;
  errorCount : nat;
  warningCount : nat;
  infoCount : nat;
  fixableCount : nat;
  scanTime : nat;
  filesFixed : option nat;            (* [None]: the property is absent *)
  patternsReplaced : option nat
}.

Definition hasSeverity (s : Severity) (f : Finding) : bool :=
  match s, f_severity f with
  | SevError, SevError | SevWarning, SevWarning | SevInfo, SevInfo => true
  | _, _ => false
  end.

(** [calculateStatistics(findings, filesScanned, scanTime, fixResults)] *)
Definition calculateStatistics (findings : list Finding) (filesScanned scanTime : nat)
    (fixResults : option Fixer.Results) : Statistics :=
  mkStatistics filesScanned (length findings)
    (length (List.filter (hasSeverity SevError) findings))
    (length (List.filter (hasSeverity SevWarning) findings))
    (length (List.filter (hasSeverity SevInfo) findings))
    (length (List.filter f_fixable findings))
    scanTime
    (option_map Fixer.filesFixed fixResults)
    (option_map Fixer.patternsReplaced fixResults).

(** The exit code that [scan] sets from the statistics and the error
    summary; [None] when it sets none. *)
Definition exitCode (statistics : Statistics) (errorSummary : ErrorHandler.Summary)
  : option nat :=
  if (0 <? errorCount statistics) || ErrorHandler.hasCriticalErrors errorSummary
  then Some 1
  else if (0 <? warningCount statistics) || ErrorHandler.hasErrors errorSummary
  then Some 0
  else None.

(** The [fileGroups] of [confirmFixes], built like the fixer's groups. *)
Fixpoint groupInto (fileGroups : list (string * list Finding))
    (findings : list Finding) : result (list (string * list Finding)) :=
  match findings with
  | [] => Return fileGroups
  | finding :: rest =>
      let key := f_filePath finding in
      match JSMap.get key fileGroups with
      | Some group =>
          groupInto (JSMap.set key (group ++ [finding]) fileGroups) rest
      | None =>
          if JSObject.isInherited key
          then Throw "fileGroups[finding.filePath].push is not a function"
          else groupInto (fileGroups ++ [(key, [finding])]) rest
      end
  end.

(** [confirmFixes(fixableFindings)]; what it prints is left out. *)
Definition confirmFixes (fixableFindings : list Finding) : result bool :=
  match groupInto [] fixableFindings with
  | Return _ => Return true
  | Throw e => Throw e
  end.

Section WithEngine.
Context {E : RegExpEngine}.
Variable clock : nat -> string.

(** [applyFixes(findings, options)] of the command line, over the state of
    its fixer; [None] is [null].  What it prints is left out. *)
Definition applyFixes (findings : list Finding) (options : Options)
  : Fixer.M (option Fixer.Results) :=
  let fixableFindings := List.filter f_fixable findings in
  if length fixableFindings =? 0 then Fixer.ret None
  else
    Fixer.bind
      (if dryRun options then Fixer.ret true
       else if yes options then Fixer.ret true
       else fun st => (confirmFixes fixableFindings, st))
      (fun confirmed =>
         if negb confirmed then Fixer.ret None
         else
           Fixer.catch
             (Fixer.bind
                (Fixer.applyFixes clock fixableFindings
                   (Fixer.mkFixOptions (negb (noBackup options)) true))
                (fun fixResults => Fixer.ret (Some fixResults)))
             (fun error st =>
                if 0 <? length (Fixer.getFixedFiles st)
                then (Throw error, snd (Fixer.rollbackChanges st))
                else (Throw error, st))).

(** [handleCriticalError(error, options)]: its effect on the fixer. *)
Definition handleCriticalError (st : Fixer.t) : Fixer.t :=
  if 0 <? length (Fixer.getFixedFiles st)
  then snd (Fixer.rollbackChanges st)
  else st.

End WithEngine.
End CLI.

(** ** A regular-expression engine for a subset of the pattern syntax

  Literals, [.], classes [[...]] with ranges and negation, the escapes
  [\d \D \w \W \s \S \b \B \n \r \t], anchors, capturing and [(?:...)]
  groups, alternation and the greedy quantifiers [* + ?], matched by
  backtracking as the runtime does.  Other syntax is refused. *)
Module MiniRegExp.

Inductive re : Type :=
| Empty
| Chr (accept : ascii -> bool)
| Seq (a b : re)
| Alt (a b : re)
| Star (a : re)
| Group (n : nat) (a : re)
| Bol
| Eol
| WordBoundary (negated : bool).

Record compiled : Type := mkCompiled {
  body : re;
  groups : nat;
  multiline : bool
}.

Definition code (c : ascii) : nat := nat_of_ascii c.
Definition between (lo hi : nat) (c : ascii) : bool :=
  (lo <=? code c) && (code c <=? hi).

Definition isDigitChar (c : ascii) : bool := between 48 57 c.
Definition isWordChar (c : ascii) : bool :=
  between 97 122 c || between 65 90 c || between 48 57 c || (code c =? 95).
Definition isSpaceChar (c : ascii) : bool :=
  (code c =? 32) || between 9 13 c || (code c =? 160).
Definition isLineTerminator (c : ascii) : bool :=
  (code c =? 10) || (code c =? 13).

Definition isWordAt (c : option ascii) : bool :=
  match c with Some c => isWordChar c | None => false end.

Definition head (s : string) : option ascii :=
  match s with String c _ => Some c | EmptyString => None end.

(** The positions of the captured groups, innermost update last. *)
Definition caps : Type := list (nat * (nat * nat)).

Fixpoint capOf (n : nat) (cs : caps) : option (nat * nat) :=
  match cs with
  | [] => None
  | (n', span) :: rest => if n' =? n then Some span else capOf n rest
  end.

(** Backtracking matcher in continuation-passing style.  [prev] is the
    character before the current position, [rest] the text from it. *)
Fixpoint rmatch (ml : bool) (r : re) (prev : option ascii) (rest : string)
    (pos : nat) (cs : caps)
    (k : option ascii -> string -> nat -> caps -> option (nat * caps))
  : option (nat * caps) :=
  match r with
  | Empty => k prev rest pos cs
  | Chr accept =>
      match rest with
      | String c rest' => if accept c then k (Some c) rest' (S pos) cs else None
      | EmptyString => None
      end
  | Seq a b =>
      rmatch ml a prev rest pos cs
        (fun prev' rest' pos' cs' => rmatch ml b prev' rest' pos' cs' k)
  | Alt a b =>
      match rmatch ml a prev rest pos cs k with
      | Some found => Some found
      | None => rmatch ml b prev rest pos cs k
      end
  | Star a =>
      (fix loop (n : nat) (prev : option ascii) (rest : string) (pos : nat)
                (cs : caps) {struct n} : option (nat * caps) :=
         match n with
         | 0 => k prev rest pos cs
         | S n' =>
             match rmatch ml a prev rest pos cs
                     (fun prev' rest' pos' cs' =>
                        if pos' <=? pos then None
                        else loop n' prev' rest' pos' cs') with
             | Some found => Some found
             | None => k prev rest pos cs
             end
         end) (S (String.length rest)) prev rest pos cs
  | Group n a =>
      rmatch ml a prev rest pos cs
        (fun prev' rest' pos' cs' => k prev' rest' pos' ((n, (pos, pos')) :: cs'))
  | Bol =>
      match prev with
      | None => k prev rest pos cs
      | Some c => if ml && isLineTerminator c then k prev rest pos cs else None
      end
  | Eol =>
      match rest with
      | EmptyString => k prev rest pos cs
      | String c _ => if ml && isLineTerminator c then k prev rest pos cs else None
      end
  | WordBoundary negated =>
      if xorb negated (xorb (isWordAt prev) (isWordAt (head rest)))
      then k prev rest pos cs else None
  end.

(** First position at or after [pos] where the pattern matches. *)
Fixpoint searchFrom (ml : bool) (r : re) (prev : option ascii) (rest : string)
    (pos : nat) : option (nat * nat * caps) :=
  match rmatch ml r prev rest pos []
          (fun _ _ pos' cs' => Some (pos', cs')) with
  | Some (stop, cs) => Some (pos, stop, cs)
  | None =>
      match rest with
      | EmptyString => None
      | String c rest' => searchFrom ml r (Some c) rest' (S pos)
      end
  end.

(** The text from position [n] on, with the character before it. *)
Fixpoint skipTo (n : nat) (prev : option ascii) (s : string)
  : option (option ascii * string) :=
  match n with
  | 0 => Some (prev, s)
  | S n' =>
      match s with
      | EmptyString => None
      | String c s' => skipTo n' (Some c) s'
      end
  end.

Definition capturedText (s : string) (cs : caps) (n : nat) : option string :=
  match capOf n cs with
  | Some (start, stop) => Some (JSString.slice start stop s)
  | None => None
  end.

Definition search (c : compiled) (s : string) (lastIndex : nat)
  : option (nat * nat * list (option string)) :=
  match skipTo lastIndex None s with
  | None => None
  | Some (prev, rest) =>
      match searchFrom (multiline c) (body c) prev rest lastIndex with
      | None => None
      | Some (start, stop, cs) =>
          Some (start - lastIndex, stop - start,
                map (capturedText s cs) (seq 1 (groups c)))
      end
  end.

(** *** Pattern syntax *)
Definition unsupported : string := "Invalid regular expression: unsupported syntax".
Definition invalid (what : string) : string := "Invalid regular expression: " +:+ what.

Definition union (p q : ascii -> bool) (c : ascii) : bool := p c || q c.
Definition complement (p : ascii -> bool) (c : ascii) : bool := negb (p c).

(** The set denoted by [\e] inside a class or as an atom. *)
Definition escapeSet (e : ascii) : option (ascii -> bool) :=
  if Ascii.eqb e "d" then Some isDigitChar
  else if Ascii.eqb e "D" then Some (complement isDigitChar)
  else if Ascii.eqb e "w" then Some isWordChar
  else if Ascii.eqb e "W" then Some (complement isWordChar)
  else if Ascii.eqb e "s" then Some isSpaceChar
  else if Ascii.eqb e "S" then Some (complement isSpaceChar)
  else if Ascii.eqb e "n" then Some (Ascii.eqb (ascii_of_nat 10))
  else if Ascii.eqb e "r" then Some (Ascii.eqb (ascii_of_nat 13))
  else if Ascii.eqb e "t" then Some (Ascii.eqb (ascii_of_nat 9))
  else if isWordChar e then None
  else Some (Ascii.eqb e).

Fixpoint parseClassItems (s : string) (acc : ascii -> bool)
  : result ((ascii -> bool) * string) :=
  match s with
  | EmptyString => Throw (invalid "Unterminated character class")
  | String c rest =>
      if Ascii.eqb c "]" then Return (acc, rest)
      else if Ascii.eqb c "\" then
        match rest with
        | EmptyString => Throw (invalid "\ at end of pattern")
        | String e rest' =>
            match escapeSet e with
            | Some set => parseClassItems rest' (union acc set)
            | None => Throw unsupported
            end
        end
      else
        match rest with
        | String dash (String hi rest') =>
            if Ascii.eqb dash "-" && negb (Ascii.eqb hi "]") then
              if Ascii.eqb hi "\" then Throw unsupported
              else if code hi <? code c
              then Throw (invalid "Range out of order in character class")
              else parseClassItems rest' (union acc (between (code c) (code hi)))
            else parseClassItems rest (union acc (Ascii.eqb c))
        | _ => parseClassItems rest (union acc (Ascii.eqb c))
        end
  end.

Definition parseClass (s : string) : result (re * string) :=
  match s with
  | String c rest =>
      if Ascii.eqb c "^" then
        '(set, rest') ← parseClassItems rest (fun _ => false);
        Return (Chr (complement set), rest')
      else
        '(set, rest') ← parseClassItems s (fun _ => false);
        Return (Chr set, rest')
  | EmptyString => Throw (invalid "Unterminated character class")
  end.

Definition parseEscape (s : string) : result (re * string) :=
  match s with
  | EmptyString => Throw (invalid "\ at end of pattern")
  | String e rest =>
      if Ascii.eqb e "b" then Return (WordBoundary false, rest)
      else if Ascii.eqb e "B" then Return (WordBoundary true, rest)
      else match escapeSet e with
           | Some set => Return (Chr set, rest)
           | None => Throw unsupported
           end
  end.

Definition expectClose (s : string) : result string :=
  match s with
  | String c rest =>
      if Ascii.eqb c ")" then Return rest else Throw (invalid "Unterminated group")
  | EmptyString => Throw (invalid "Unterminated group")
  end.

(** A quantifier after the atom [a]; lazy and counted quantifiers are
    refused. *)
Definition parseQuantifier (a : re) (s : string) : result (re * string) :=
  match s with
  | String q rest =>
      let greedy (r : re) : result (re * string) :=
        match rest with
        | String l _ =>
            if Ascii.eqb l "?" then Throw unsupported
            else if Ascii.eqb l "*" || Ascii.eqb l "+"
            then Throw (invalid "Nothing to repeat")
            else Return (r, rest)
        | EmptyString => Return (r, rest)
        end in
      if Ascii.eqb q "*" then greedy (Star a)
      else if Ascii.eqb q "+" then greedy (Seq a (Star a))
      else if Ascii.eqb q "?" then greedy (Alt a Empty)
      else if Ascii.eqb q "{" then Throw unsupported
      else Return (a, s)
  | EmptyString => Return (a, s)
  end.

(** Recursive descent; [g] is the number of capturing groups opened so
    far. *)
Fixpoint parseAlt (fuel : nat) (s : string) (g : nat) : result (re * string * nat) :=
  match fuel with
  | 0 => Throw unsupported
  | S fuel' =>
      '(a, rest, g1) ← parseSeq fuel' s g;
      match rest with
      | String c rest' =>
          if Ascii.eqb c "|" then
            '(b, rest2, g2) ← parseAlt fuel' rest' g1;
            Return (Alt a b, rest2, g2)
          else Return (a, rest, g1)
      | EmptyString => Return (a, rest, g1)
      end
  end
with parseSeq (fuel : nat) (s : string) (g : nat) : result (re * string * nat) :=
  match fuel with
  | 0 => Throw unsupported
  | S fuel' =>
      match s with
      | EmptyString => Return (Empty, s, g)
      | String c _ =>
          if Ascii.eqb c "|" || Ascii.eqb c ")" then Return (Empty, s, g)
          else
            '(a, rest, g1) ← parseAtom fuel' s g;
            '(a', rest1) ← parseQuantifier a rest;
            '(b, rest2, g2) ← parseSeq fuel' rest1 g1;
            Return (Seq a' b, rest2, g2)
      end
  end
with parseAtom (fuel : nat) (s : string) (g : nat) : result (re * string * nat) :=
  match fuel with
  | 0 => Throw unsupported
  | S fuel' =>
      match s with
      | EmptyString => Return (Empty, s, g)
      | String c rest =>
          if Ascii.eqb c "(" then
            match rest with
            | String q rest1 =>
                if Ascii.eqb q "?" then
                  match rest1 with
                  | String colon rest2 =>
                      if Ascii.eqb colon ":" then
                        '(a, rest3, g1) ← parseAlt fuel' rest2 g;
                        rest4 ← expectClose rest3;
                        Return (a, rest4, g1)
                      else Throw unsupported
                  | EmptyString => Throw (invalid "Invalid group")
                  end
                else
                  '(a, rest3, g1) ← parseAlt fuel' rest (S g);
                  rest4 ← expectClose rest3;
                  Return (Group (S g) a, rest4, g1)
            | EmptyString => Throw (invalid "Unterminated group")
            end
          else if Ascii.eqb c "[" then
            '(a, rest') ← parseClass rest; Return (a, rest', g)
          else if Ascii.eqb c "\" then
            '(a, rest') ← parseEscape rest; Return (a, rest', g)
          else if Ascii.eqb c "." then
            Return (Chr (complement isLineTerminator), rest, g)
          else if Ascii.eqb c "^" then Return (Bol, rest, g)
          else if Ascii.eqb c "$" then Return (Eol, rest, g)
          else if Ascii.eqb c "*" || Ascii.eqb c "+" || Ascii.eqb c "?"
          then Throw (invalid "Nothing to repeat")
          else if Ascii.eqb c "{" then Throw unsupported
          else Return (Chr (Ascii.eqb c), rest, g)
      end
  end.

(** [new RegExp(pattern, flags)] *)
Definition compile (pattern : string) (ml : bool) : result compiled :=
  '(r, rest, g) ← parseAlt (3 * String.length pattern + 3) pattern 0;
  match rest with
  | EmptyString => Return (mkCompiled r g ml)
  | String _ _ => Throw (invalid "Unmatched ')'")
  end.

#[global] Instance engine : RegExpEngine := {|
  RegExp := compiled;
  RegExp_new := compile;
  RegExp_search := search
|}.

End MiniRegExp.

(** * Vocabulary of the properties *)

(** What [handlePermissionError] prints for a path while reports are still
    individual, and the one notice that announces the suppression. *)
Definition permissionReport (filePath : string) : ConsoleEvent :=
  Warn ("Permission denied: " +:+ basename filePath +:+ " - "
          +:+ "Check file permissions and ensure read access").

Definition suppressionNotice : ConsoleEvent :=
  Warn "Multiple permission errors detected. Further permission errors will be logged silently.".

(** A run of permission errors handled one after the other. *)
Definition handlePermissionErrors (paths : list string) (h : ErrorHandler.t)
  : ErrorHandler.t :=
  fold_left (fun h p => snd (ErrorHandler.handlePermissionError p h)) paths h.

(** What the call that brings the permission counter to [k] prints. *)
Definition printedAt (k : nat) (filePath : string) : list ConsoleEvent :=
  if k <=? 3 then [permissionReport filePath]
  else if k =? 4 then [suppressionNotice]
  else [].

(** [j] is the offset of the last newline of [content] before [offset],
    or [-1] when there is none. *)
Definition lastNewlineBefore (content : string) (offset : nat) (j : Z) : Prop :=
  (j = (-1)%Z
   /\ forall i, i < offset -> String.get i content <> Some JSString.newline)
  \/ ((0 <= j < Z.of_nat offset)%Z
      /\ String.get (Z.to_nat j) content = Some JSString.newline
      /\ forall i, Z.to_nat j < i < offset ->
                   String.get i content <> Some JSString.newline).

(** *** Scenarios *)
Definition nl : string := String JSString.newline EmptyString.

(** A rule of a rules file, for [.js] files. *)
Definition jsRule (id pattern : string) (replacement : json) : json :=
  JObject [("id", JString id); ("name", JString id);
           ("description", JString id); ("pattern", JString pattern);
           ("replacement", replacement); ("fileTypes", JArray [JString "js"]);
           ("severity", JString "warning")].

Definition rulesFile (rules : list json) : RuleEngine.RulesFile :=
  RuleEngine.Parsed (JObject [("rules", JArray rules)]).

(** The engine after [loadRules] on a rules file, with the regular
    expressions of [MiniRegExp]. *)
Definition loaded (rules : list json) (h : option ErrorHandler.t) : RuleEngine.t :=
  snd (RuleEngine.loadRules "rules.json" (rulesFile rules) (RuleEngine.new h)).

Definition positions (findings : list Finding) : list (Z * Z * string) :=
  map (fun f => (f_lineNumber f, f_columnNumber f, f_matchedText f)) findings.

(** What [applyRules] does to the engine when a rule is rejected with
    [message]: the rejection is classified by the error handler, if there is
    one. *)
Definition classifyRejection {E : RegExpEngine} (rule : Rule) (filePath message : string)
    (this : RuleEngine.t) : RuleEngine.t :=
  match RuleEngine.errorHandler this with
  | Some h =>
      RuleEngine.mk (RuleEngine.rules this) (RuleEngine.compiledRules this)
        (Some (if includes "timed out" message
               then snd (ErrorHandler.handleRegexTimeoutError (r_id rule) filePath h)
               else snd (ErrorHandler.handleUnknownError "rule application" message h)))
  | None => this
  end.

(** A rule that matches the empty string at every position, and a file of
    10000 characters: 10001 matches. *)
Definition runawayRule : json := jsRule "runaway" "(?:)" JNull.
Definition runawayContent : string := JSString.repeat "a" RuleEngine.maxIterations.

Definition runawayValidated : Rule :=
  mkRule "runaway" "runaway" (JString "runaway") "(?:)" None [JString "js"]
         SevWarning.

Definition runawayRegExp : MiniRegExp.compiled :=
  MiniRegExp.mkCompiled (MiniRegExp.Seq MiniRegExp.Empty MiniRegExp.Empty) 0 true.

Definition unknownReport (operation message : string) : ConsoleEvent :=
  Error ("Unexpected error during " +:+ operation +:+ ": " +:+ message +:+ " - "
           +:+ "This may be a bug. Consider reporting it with --verbose output").

(** The order of the claim about several rules on one file, as the
    specification words it: one global substitution per rule, in the order
    of the loaded rule set. *)
Definition substituteInLoadOrder {E : RegExpEngine} (rules : list Rule)
    (content : string) : string :=
  fold_left
    (fun current rule =>
       match r_replacement rule, RegExp_new (r_pattern rule) false with
       | Some replacement, Return re =>
           JSRegExp.replace_regexp current re replacement
       | _, _ => current
       end)
    rules content.

(** [a] does not come after [b] in the order of [fixFile]. *)
Definition notAfter (a b : Finding) : Prop :=
  (Fixer.compareFindings a b <= 0)%Z.

Definition atPosition (line column : Z) (f : Finding) : bool :=
  (f_lineNumber f =? line)%Z && (f_columnNumber f =? column)%Z.

(** A clock that always reads the same instant. *)
Definition frozenClock (n : nat) : string := "2025-08-14T15:55:15.707Z".

(** Two rules that feed one another, and a file with one match of each. *)
Definition chainedRules : list json :=
  [jsRule "first" "a" (JString "b"); jsRule "second" "b" (JString "c")].
Definition chainedContent : string := "a" +:+ nl +:+ "b".

(** The dry-run scenario: one rule, two lines with one match each. *)
Definition varRule : json := jsRule "var-to-const" "\bvar\b" (JString "const").
Definition varContent : string := "var x = 1;" +:+ nl +:+ "var y = 2;".

(** The rule and the content of the fix test of the command-line tool. *)
Definition varDeclarationRule : json :=
  jsRule "var-to-const" "\bvar\s+([a-zA-Z_$][a-zA-Z0-9_$]*)\s*=" (JString "const $1 =").

Definition oneFile (filePath content : string) : gmap string node :=
  {[filePath := File content 420%N]}.

(** Field validation of all the rules of a rules file, in order: the
    validated rules, or the error of the first rule that fails. *)
Fixpoint validateAll (items : list json) : result (list Rule) :=
  match items with
  | [] => Return []
  | item :: rest =>
      rule ← RuleEngine.validateRule item;
      rules ← validateAll rest;
      Return (rule :: rules)
  end.

Definition failsToCompile {E : RegExpEngine} (rule : Rule) : bool :=
  match RegExp_new (r_pattern rule) true with
  | Return _ => false
  | Throw _ => true
  end.

(** The handler after one [handleInvalidRegexError] call per rule whose
    pattern does not compile. *)
Definition reportInvalid {E : RegExpEngine} (rules : list Rule) (h : ErrorHandler.t)
  : ErrorHandler.t :=
  fold_left
    (fun h rule =>
       match RegExp_new (r_pattern rule) true with
       | Return _ => h
       | Throw message =>
           snd (ErrorHandler.handleInvalidRegexError (r_id rule) (r_pattern rule)
                  message h)
       end)
    rules h.

(** The compiled patterns after the rules were taken in order. *)
Definition compileAll {E : RegExpEngine} (rules : list Rule)
    (compiled : gmap string RegExp) : gmap string RegExp :=
  fold_left
    (fun compiled rule =>
       match RegExp_new (r_pattern rule) true with
       | Return re => <[r_id rule := re]> compiled
       | Throw _ => compiled
       end)
    rules compiled.

Definition missingRulesArray : string :=
  "Invalid rules file: missing or invalid " +:+ RuleEngine.quoted "rules" +:+ " array".

(** A rules file whose second rule has no [name]. *)
Definition incompleteRule : json := JObject [("id", JString "bad")].
Definition partlyInvalidRules : list json := [jsRule "ok" "a" JNull; incompleteRule].

(** A rules file whose second rule has a pattern that does not compile. *)
Definition partlyBrokenRules : list json :=
  [jsRule "ok" "a" JNull; jsRule "broken" "(" JNull].

(** Where [createBackup] puts the backup of [filePath] when the clock reads
    [iso]. *)
Definition backupPathFor (o : Fixer.Options) (iso filePath : string) : string :=
  Fixer.join (Fixer.backupDir o)
    (if Fixer.createTimestampedBackups o
     then basename filePath +:+ "." +:+ Fixer.dashed iso +:+ ".backup"
     else basename filePath +:+ ".backup").

(** A clock that advances by a tenth of a second at every read. *)
Definition tickingClock (n : nat) : string :=
  "2025-08-14T15:55:15." +:+ String (ascii_of_nat (48 + n)) "00Z".

(** The fixer after registering a backup and one more read of the clock,
    with nothing else changed. *)
Definition afterBackup (filePath backupPath : string) (st : Fixer.t) : Fixer.t :=
  Fixer.mk (Fixer.options st)
           (JSMap.set filePath backupPath (Fixer.backupRegistry st))
           (Fixer.fixedFiles st) (Fixer.fs st) (S (Fixer.tick st)).



(** The fixer keeps its options and forgets no registered path. *)
Definition keepsRegistry (st st' : Fixer.t) : Prop :=
  Fixer.options st' = Fixer.options st
  /\ forall q, In q (JSMap.keys (Fixer.backupRegistry st)) ->
               In q (JSMap.keys (Fixer.backupRegistry st')).

(** Every run of [m] relates the state before to the state after by [R]. *)
Definition framed {A : Type} (R : Fixer.t -> Fixer.t -> Prop) (m : Fixer.M A) : Prop :=
  forall st out st', m st = (out, st') -> R st st'.

(** Two files with one hand-made finding each; the second file is
    read-only, so writing its fix fails. *)
Definition twoFiles : gmap string node :=
  <["/p/a.js" := File "var x = 1;" 420%N]> {["/p/b.js" := File "var z = 3;" 292%N]}.

Definition findingA : Finding :=
  mkFinding "var-to-const" "var-to-const" JNull "/p/a.js" 1 1 "var x" SevWarning
            true (Some "const x") None.
Definition findingB : Finding :=
  mkFinding "var-to-const" "var-to-const" JNull "/p/b.js" 1 1 "var z" SevWarning
            true (Some "const z") None.

Definition strict : Fixer.FixOptions := Fixer.mkFixOptions true false.
Definition lenient : Fixer.FixOptions := Fixer.mkFixOptions true true.
Definition realFixer : Fixer.t :=
  Fixer.new (Fixer.mkOptions "/p/.backups" true false) twoFiles.

(** *** Runs of the error handler *)

(** One call of a handler, with its arguments. *)
Inductive HandlerCall : Type :=
| PermissionError (filePath : string)
| FileSizeError (filePath : string) (fileSize maxSize : N)
| EncodingError (filePath : string)
| RegexTimeoutError (ruleId filePath : string)
| MemoryPressure (operation : string) (memoryUsage : N)
| InvalidRegexError (ruleId pattern message : string)
| FilesystemError (operation path message : string) (code : option string)
| UnknownError (operation message : string).

Definition handle (call : HandlerCall) (h : ErrorHandler.t) : ErrorHandler.t :=
  match call with
  | PermissionError filePath => snd (ErrorHandler.handlePermissionError filePath h)
  | FileSizeError filePath fileSize maxSize =>
      snd (ErrorHandler.handleFileSizeError filePath fileSize maxSize h)
  | EncodingError filePath => snd (ErrorHandler.handleEncodingError filePath h)
  | RegexTimeoutError ruleId filePath =>
      snd (ErrorHandler.handleRegexTimeoutError ruleId filePath h)
  | MemoryPressure operation memoryUsage =>
      snd (ErrorHandler.handleMemoryPressure operation memoryUsage h)
  | InvalidRegexError ruleId pattern message =>
      snd (ErrorHandler.handleInvalidRegexError ruleId pattern message h)
  | FilesystemError operation path message code =>
      snd (ErrorHandler.handleFilesystemError operation path message code h)
  | UnknownError operation message =>
      snd (ErrorHandler.handleUnknownError operation message h)
  end.

Definition handleAll (calls : list HandlerCall) (h : ErrorHandler.t) : ErrorHandler.t :=
  fold_left (fun h call => handle call h) calls h.

(** The counter that a call belongs to. *)
Definition typeOf (call : HandlerCall) : ErrorType :=
  match call with
  | PermissionError _ => TPermission
  | FileSizeError _ _ _ => TFileSize
  | EncodingError _ => TEncoding
  | RegexTimeoutError _ _ => TTimeout
  | MemoryPressure _ _ => TMemory
  | InvalidRegexError _ _ _ => TRegex
  | FilesystemError _ _ _ _ => TFilesystem
  | UnknownError _ _ => TUnknown
  end.

Definition countOf (ty : ErrorType) (c : ErrorCounts) : nat :=
  match ty with
  | TPermission => c_permission c
  | TFileSize => c_fileSize c
  | TEncoding => c_encoding c
  | TTimeout => c_timeout c
  | TMemory => c_memory c
  | TRegex => c_regex c
  | TFilesystem => c_filesystem c
  | TUnknown => c_unknown c
  end.

Definition sameType (a b : ErrorType) : bool :=
  match a, b with
  | TPermission, TPermission | TFileSize, TFileSize | TEncoding, TEncoding
  | TTimeout, TTimeout | TMemory, TMemory | TRegex, TRegex
  | TFilesystem, TFilesystem | TUnknown, TUnknown => true
  | _, _ => false
  end.

Definition ofType (ty : ErrorType) (call : HandlerCall) : bool :=
  sameType (typeOf call) ty.

(** What [handleEncodingError] prints for a path while it still prints. *)
Definition encodingReport (filePath : string) : ConsoleEvent :=
  Warn ("Encoding error: " +:+ basename filePath +:+ " - "
          +:+ "File may be binary or use unsupported encoding").

Definition handleEncodingErrors (paths : list string) (h : ErrorHandler.t)
  : ErrorHandler.t :=
  fold_left (fun h p => snd (ErrorHandler.handleEncodingError p h)) paths h.

Definition isWarn (ev : ConsoleEvent) : bool :=
  match ev with Warn _ => true | Error _ => false end.

Definition defaultSuggestion : string := "Check file system and permissions".

(** [Number.isSafeInteger(n)]: an integer that a number holds exactly. *)
Definition safeInteger (n : N) : Prop := (n < 2 ^ 53)%N.

(** A heap of [1000.5] MB and one of [500.5] MB, in bytes. *)
Definition criticalHeap : N := 1049100288.
Definition warningHeap : N := 524812288.

(** *** Rules with the same id *)

(** The rule whose pattern stays compiled under [id] when [rules] were
    loaded in order: the last one with that id whose pattern compiles. *)
Definition compiledFor {E : RegExpEngine} (id : string) (rules : list Rule)
  : option Rule :=
  List.find (fun rule => String.eqb (r_id rule) id && negb (failsToCompile rule))
            (rev rules).

(** The compiled pattern of a rule, if its pattern compiles. *)
Definition compiledPattern {E : RegExpEngine} (rule : Rule) : option RegExp :=
  match RegExp_new (r_pattern rule) true with
  | Return re => Some re
  | Throw _ => None
  end.

(** *** What an operation of the fixer leaves alone *)

(** The options, the files and the registry of backups are the same. *)
Definition sameWorld (st st' : Fixer.t) : Prop :=
  Fixer.options st' = Fixer.options st
  /\ Fixer.fs st' = Fixer.fs st
  /\ Fixer.backupRegistry st' = Fixer.backupRegistry st.

(** The files are the same away from [filePath]. *)
Definition sameElsewhere (filePath : string) (files files' : gmap string node) : Prop :=
  forall q, q <> filePath -> files' !! q = files !! q.

(** Every path that was there is there unchanged. *)
Definition keepsExisting (files files' : gmap string node) : Prop :=
  forall q n, files !! q = Some n -> files' !! q = Some n.

(** The message of a failed [createBackup]. *)
Definition backupFailed (filePath message : string) : string :=
  "Failed to create backup for " +:+ filePath +:+ ": " +:+ message.

(** The message of a failed [fixFile]. *)
Definition fixFailed (filePath message : string) : string :=
  "Failed to fix file " +:+ filePath +:+ ": " +:+ message.

(** The options and the set of fixed files are the same, and no file that
    was there has changed. *)
Definition keepsFiles (st st' : Fixer.t) : Prop :=
  Fixer.options st' = Fixer.options st
  /\ Fixer.fixedFiles st' = Fixer.fixedFiles st
  /\ keepsExisting (Fixer.fs st) (Fixer.fs st').

Definition sameRegistry (st st' : Fixer.t) : Prop :=
  Fixer.backupRegistry st' = Fixer.backupRegistry st.

(** Every run of [m] that throws relates the state before to the state
    after by [R]. *)
Definition framedThrow {A : Type} (R : Fixer.t -> Fixer.t -> Prop) (m : Fixer.M A)
  : Prop :=
  forall st e st', m st = (Throw e, st') -> R st st'.

(** *** Findings by file, and the results of [applyFixes] *)

Definition hasPath (filePath : string) (f : Finding) : bool :=
  String.eqb (f_filePath f) filePath.

(** The groups built from the findings [done]: one own property for each
    path that occurs, holding the findings of that path in their order, and
    no path that names an inherited property. *)
Definition groupsOf (done : list Finding) (grouped : list (string * list Finding))
  : Prop :=
  List.NoDup (JSMap.keys grouped)
  /\ (forall p, JSMap.get p grouped
                = if existsb (hasPath p) done
                  then Some (List.filter (hasPath p) done)
                  else None)
  /\ (forall p, In p (JSMap.keys grouped) -> JSObject.isInherited p = false).

(** The counters of the results agree with one another and with the fixer's
    set of fixed files. *)
Definition consistent (results : Fixer.Results) (st : Fixer.t) : Prop :=
  Fixer.filesFixed results = length (Fixer.res_fixedFiles results)
  /\ Fixer.filesFixed results + length (Fixer.errors results)
     <= Fixer.filesProcessed results
  /\ Fixer.filesFixed results <= Fixer.patternsReplaced results
  /\ length (Fixer.backupsCreated results) <= Fixer.filesProcessed results
  /\ (forall p, In p (Fixer.res_fixedFiles results) -> In p (Fixer.fixedFiles st)).

(** *** Document order *)

(** [a] comes strictly before [b] in the file: the comparator of [fixFile]
    puts [b] first. *)
Definition before (a b : Finding) : Prop := (0 < Fixer.compareFindings a b)%Z.

(** The match [b] starts after the start of [a] and not before its end. *)
Definition apart (a b : MatchResult) : Prop :=
  m_index a + String.length (m_text a) <= m_index b /\ m_index a < m_index b.

(** *** A file with a character outside ASCII *)

(** Five characters that take six bytes: the first one is U+00E9. *)
Definition accented : string := String (ascii_of_nat 233) " var".

(** *** Files whose findings are all without a replacement *)

(** No finding of [filePath] can be fixed. *)
Definition onlyNonFixable (filePath : string) (findings : list Finding) : Prop :=
  forall f, In f findings -> f_filePath f = filePath ->
            f_fixable f = false \/ f_replacement f = None.

(** A session of two calls: the first fixes a third file, the second meets
    that file only through a finding of a rule without replacement. *)
Definition threeFiles : gmap string node :=
  <["/p/c.js" := File "var w = 4;" 420%N]> twoFiles.

Definition findingC : Finding :=
  mkFinding "var-to-const" "var-to-const" JNull "/p/c.js" 1 1 "var w" SevWarning
            true (Some "const w") None.

Definition findingNote : Finding :=
  mkFinding "no-magic-number" "no-magic-number" JNull "/p/c.js" 1 11 "4" SevInfo
            false None None.

Definition sessionStart : Fixer.t :=
  Fixer.new (Fixer.mkOptions "/p/.backups" true false) threeFiles.

(** [n] characters of two bytes each, followed by a NUL. *)
Definition accentsThenNul (n : nat) : string :=
  JSString.repeat (ascii_of_nat 233) n +:+ String Ascii.zero EmptyString.
(** * Properties *)

(** ** Error handler *)

Lemma handlePermissionError_step (filePath : string) (h : ErrorHandler.t) :
  let h' := snd (ErrorHandler.handlePermissionError filePath h) in
  let k := S (c_permission (ErrorHandler.errorCounts h)) in
  c_permission (ErrorHandler.errorCounts h') = k
  /\ ErrorHandler.console h' = ErrorHandler.console h ++ printedAt k filePath.
Proof.
  unfold ErrorHandler.handlePermissionError, printedAt; simpl.
  destruct (c_permission (ErrorHandler.errorCounts h)) as [|[|[|[|k]]]];
    simpl; split; try reflexivity.
  symmetry; apply app_nil_r.
Qed.

Lemma handlePermissionErrors_from (paths : list string) :
  forall (h : ErrorHandler.t),
    let k := c_permission (ErrorHandler.errorCounts h) in
    let h' := handlePermissionErrors paths h in
    c_permission (ErrorHandler.errorCounts h') = k + length paths
    /\ ErrorHandler.console h'
       = ErrorHandler.console h
           ++ map permissionReport (take (3 - k) paths)
           ++ (if (k <? 4) && (4 <=? k + length paths)
               then [suppressionNotice] else []).
Proof.
  induction paths as [|p ps IH]; intros h; cbn zeta.
  - split; [simpl; lia|].
    unfold handlePermissionErrors; cbn [fold_left length].
    rewrite take_nil, Nat.add_0_r.
    assert ((c_permission (ErrorHandler.errorCounts h) <? 4)
              && (4 <=? c_permission (ErrorHandler.errorCounts h)) = false) as ->.
    { destruct (Nat.ltb_spec (c_permission (ErrorHandler.errorCounts h)) 4);
        destruct (Nat.leb_spec 4 (c_permission (ErrorHandler.errorCounts h)));
        simpl; try reflexivity; lia. }
    simpl. symmetry; apply app_nil_r.
  - change (handlePermissionErrors (p :: ps) h)
      with (handlePermissionErrors ps
              (snd (ErrorHandler.handlePermissionError p h))).
    destruct (handlePermissionError_step p h) as [Hc Hp].
    cbn zeta in Hc, Hp.
    specialize (IH (snd (ErrorHandler.handlePermissionError p h))).
    cbn zeta in IH. destruct IH as [IHc IHp].
    rewrite Hc in IHc, IHp. rewrite Hp in IHp.
    split; [rewrite IHc; simpl; lia|].
    rewrite IHp. rewrite <- app_assoc. f_equal.
    unfold printedAt.
    destruct (c_permission (ErrorHandler.errorCounts h)) as [|[|[|[|k]]]]; simpl;
      reflexivity.
Qed.

(** C9: in a handler whose permission counter is at zero, a run of
    permission errors increments the counter once per call; the first three
    calls each print their own report, the fourth prints the single
    suppression notice, and later calls print nothing. *)
Theorem C9_permission_errors_suppressed_after_three :
  forall (paths : list string) (h : ErrorHandler.t),
    c_permission (ErrorHandler.errorCounts h) = 0 ->
    c_permission (ErrorHandler.errorCounts (handlePermissionErrors paths h))
      = length paths
    /\ ErrorHandler.console (handlePermissionErrors paths h)
       = ErrorHandler.console h
           ++ map permissionReport (take 3 paths)
           ++ (if 4 <=? length paths then [suppressionNotice] else [])
    /\ forall before filePath after,
         paths = before ++ filePath :: after ->
         let h1 := handlePermissionErrors before h in
         let h2 := snd (ErrorHandler.handlePermissionError filePath h1) in
         c_permission (ErrorHandler.errorCounts h2) = S (length before)
         /\ ErrorHandler.console h2
            = ErrorHandler.console h1
                ++ (if length before <? 3 then [permissionReport filePath]
                    else if length before =? 3 then [suppressionNotice]
                    else []).
Proof.
  intros paths h H0.
  destruct (handlePermissionErrors_from paths h) as [Hc Hp].
  cbn zeta in Hc, Hp. rewrite H0 in Hc, Hp. simpl in Hc, Hp.
  split; [exact Hc|]. split; [exact Hp|].
  intros before filePath after _.
  destruct (handlePermissionErrors_from before h) as [Hb _].
  cbn zeta in Hb. rewrite H0 in Hb. simpl in Hb.
  destruct (handlePermissionError_step filePath (handlePermissionErrors before h))
    as [Hc1 Hp1].
  cbn zeta in Hc1, Hp1. rewrite Hb in Hc1, Hp1.
  split; [exact Hc1|]. rewrite Hp1. reflexivity.
Qed.

Lemma C9_witness :
  c_permission (ErrorHandler.errorCounts ErrorHandler.new) = 0
  /\ ErrorHandler.console
       (handlePermissionErrors ["/r/a.js"; "/r/b.js"; "/r/c.js"; "/r/d.js"; "/r/e.js"]
                               ErrorHandler.new)
     = [permissionReport "/r/a.js"; permissionReport "/r/b.js";
        permissionReport "/r/c.js"; suppressionNotice].
Proof.
  split; [reflexivity|].
  exact (proj1 (proj2 (C9_permission_errors_suppressed_after_three
                         ["/r/a.js"; "/r/b.js"; "/r/c.js"; "/r/d.js"; "/r/e.js"]
                         ErrorHandler.new eq_refl))).
Defined.

(** ** Strings *)

Lemma split_length (c : ascii) (s : string) :
  length (JSString.split c s) = S (JSString.count c s).
Proof.
  induction s as [|a s IH]; simpl; [reflexivity|].
  destruct (Ascii.eqb a c); simpl.
  - now rewrite IH.
  - destruct (JSString.split c s); simpl in *; lia.
Qed.

Lemma lastIndexOf_from_spec (c : ascii) (s : string) :
  forall (i found : Z),
    (JSString.lastIndexOf_from c s i found = found
     /\ forall j, String.get j s <> Some c)
    \/ exists j,
         JSString.lastIndexOf_from c s i found = (i + Z.of_nat j)%Z
         /\ String.get j s = Some c
         /\ forall j', j < j' -> String.get j' s <> Some c.
Proof.
  induction s as [|a s IH]; intros i found; simpl.
  - left. split; [reflexivity|]. intros j; destruct j; discriminate.
  - destruct (IH (i + 1)%Z (if Ascii.eqb a c then i else found))
      as [[Heq Hno]|[j [Heq [Hget Hlast]]]].
    + destruct (Ascii.eqb_spec a c) as [->|Hne].
      * right. exists 0. rewrite Heq. split; [lia|]. split; [reflexivity|].
        intros [|j'] Hlt; [lia|]. apply Hno.
      * left. split; [exact Heq|].
        intros [|j]; [intros [= ?]; congruence|apply Hno].
    + right. exists (S j). rewrite Heq. split; [lia|]. split; [exact Hget|].
      intros [|j'] Hlt; [lia|]. apply Hlast. lia.
Qed.

Lemma substring_prefix_length (n : nat) (s : string) :
  n <= String.length s -> String.length (String.substring 0 n s) = n.
Proof.
  revert s; induction n as [|n IH]; intros s Hn.
  - destruct s; reflexivity.
  - destruct s as [|a s]; simpl in *; [lia|]. rewrite IH; [reflexivity|lia].
Qed.

Lemma substring_prefix_get (n j : nat) (s : string) :
  j < n -> String.get j (String.substring 0 n s) = String.get j s.
Proof.
  intros Hj. rewrite (String.substring_correct1 s 0 n j Hj).
  now rewrite Nat.add_0_r.
Qed.

Lemma get_beyond (j : nat) (s : string) :
  String.length s <= j -> String.get j s = None.
Proof.
  revert j; induction s as [|a s IH]; intros j Hj; [destruct j; reflexivity|].
  destruct j as [|j]; simpl in *; [lia|]. apply IH; lia.
Qed.

Lemma count_zero_get (c : ascii) (s : string) :
  (forall j, String.get j s <> Some c) -> JSString.count c s = 0.
Proof.
  induction s as [|a s IH]; intros Hno; simpl; [reflexivity|].
  destruct (Ascii.eqb_spec a c) as [->|Hne].
  - exfalso. apply (Hno 0). reflexivity.
  - rewrite IH; [reflexivity|]. intros j. apply (Hno (S j)).
Qed.

(** ** Regular-expression loops *)
Section RegExpFacts.
Context {E : RegExpEngine}.

Lemma exec_some (re : RegExp) (s : string) (lastIndex : nat)
    (m : MatchResult) (li : nat) :
  JSRegExp.exec re s lastIndex = (Some m, li) ->
  lastIndex <= m_index m
  /\ m_index m <= String.length s
  /\ lastIndex < JSRegExp.advance m li.
Proof.
  unfold JSRegExp.exec.
  destruct (String.length s <? lastIndex) eqn:H1; [discriminate|].
  destruct (RegExp_search re s lastIndex) as [[[skip len] caps]|]; [|discriminate].
  destruct (String.length s <? lastIndex + skip) eqn:H2; [discriminate|].
  apply Nat.ltb_ge in H2. intros [= <- <-]. simpl.
  unfold JSRegExp.advance; simpl.
  destruct (String.length (String.substring (lastIndex + skip) len s)) eqn:Hl;
    simpl; lia.
Qed.

Lemma exec_none_beyond (re : RegExp) (s : string) (lastIndex : nat) :
  String.length s < lastIndex -> JSRegExp.exec re s lastIndex = (None, 0).
Proof.
  intros H. unfold JSRegExp.exec.
  apply Nat.ltb_lt in H. now rewrite H.
Qed.

(** Enough fuel: the matches do not depend on it. *)
Lemma matchesFrom_fuel (re : RegExp) (s : string) :
  forall (fuel1 fuel2 lastIndex : nat),
    String.length s < lastIndex + fuel1 ->
    String.length s < lastIndex + fuel2 ->
    JSRegExp.matchesFrom fuel1 re s lastIndex
    = JSRegExp.matchesFrom fuel2 re s lastIndex.
Proof.
  induction fuel1 as [|f1 IH]; intros fuel2 li H1 H2.
  - destruct fuel2; simpl; [reflexivity|].
    rewrite exec_none_beyond by lia. reflexivity.
  - destruct fuel2 as [|f2]; simpl.
    + rewrite exec_none_beyond by lia. reflexivity.
    + destruct (JSRegExp.exec re s li) as [[m|] li'] eqn:He; [|reflexivity].
      apply exec_some in He. f_equal. apply IH; lia.
Qed.

(** The capped loop of [applyRuleWithTimeout] against the list of all the
    matches. *)
Lemma scan_matches (re : RegExp) (content : string) (rule : Rule) (filePath : string) :
  forall (fuel remaining lastIndex : nat),
    String.length content < lastIndex + fuel ->
    RuleEngine.scan remaining re content rule filePath lastIndex
    = if length (JSRegExp.matchesFrom fuel re content lastIndex) <=? remaining
      then Return (map (RuleEngine.findingOf content rule filePath)
                       (JSRegExp.matchesFrom fuel re content lastIndex))
      else Throw RuleEngine.tooManyMatches.
Proof.
  induction fuel as [|fuel IH]; intros remaining li Hfuel.
  - simpl. destruct remaining; simpl; rewrite exec_none_beyond by lia; reflexivity.
  - simpl JSRegExp.matchesFrom.
    destruct (JSRegExp.exec re content li) as [[m|] li'] eqn:He.
    + pose proof (exec_some _ _ _ _ _ He) as (_ & _ & Hadv).
      destruct remaining as [|remaining]; simpl; rewrite He; [reflexivity|].
      rewrite (IH remaining (JSRegExp.advance m li')) by lia.
      destruct (length (JSRegExp.matchesFrom fuel re content
                          (JSRegExp.advance m li')) <=? remaining);
        reflexivity.
    + destruct remaining; simpl; rewrite He; reflexivity.
Qed.

Lemma scan_findings (re : RegExp) (content : string) (rule : Rule) (filePath : string) :
  forall (remaining lastIndex : nat) (findings : list Finding),
    RuleEngine.scan remaining re content rule filePath lastIndex = Return findings ->
    forall f, In f findings ->
      exists li m li',
        JSRegExp.exec re content li = (Some m, li')
        /\ f = RuleEngine.findingOf content rule filePath m.
Proof.
  induction remaining as [|remaining IH]; intros li findings Hscan f Hin;
    simpl in Hscan;
    destruct (JSRegExp.exec re content li) as [[m|] li'] eqn:He;
    try discriminate.
  - injection Hscan as <-. destruct Hin.
  - destruct (RuleEngine.scan remaining re content rule filePath
                (JSRegExp.advance m li')) as [fs|] eqn:Hrest;
      simpl in Hscan; [|discriminate].
    injection Hscan as <-. destruct Hin as [<-|Hin].
    + exists li, m, li'. split; [exact He|reflexivity].
    + eapply IH; eauto.
  - injection Hscan as <-. destruct Hin.
Qed.

End RegExpFacts.

(** ** Rule engine: positions *)

Lemma findingOf_position {E : RegExpEngine} (content : string) (rule : Rule)
    (filePath : string) (m : MatchResult) :
  m_index m <= String.length content ->
  exists j : Z,
    f_lineNumber (RuleEngine.findingOf content rule filePath m)
    = (1 + Z.of_nat (JSString.count JSString.newline
                       (JSString.slice 0 (m_index m) content)))%Z
    /\ lastNewlineBefore content (m_index m) j
    /\ f_columnNumber (RuleEngine.findingOf content rule filePath m)
       = (Z.of_nat (m_index m) - j)%Z.
Proof.
  intros Hle. unfold RuleEngine.findingOf; simpl.
  unfold JSString.slice. rewrite Nat.sub_0_r.
  set (before := String.substring 0 (m_index m) content).
  assert (Hlen : String.length before = m_index m)
    by (apply substring_prefix_length; exact Hle).
  rewrite split_length, Hlen. unfold JSString.lastIndexOf.
  destruct (lastIndexOf_from_spec JSString.newline before 0%Z (-1)%Z)
    as [[Heq Hno]|[j0 [Heq [Hget Hlast]]]].
  - exists (-1)%Z. rewrite Heq. split; [lia|]. split; [|reflexivity].
    left. split; [reflexivity|]. intros i Hi.
    rewrite <- (substring_prefix_get (m_index m) i content Hi). apply Hno.
  - assert (Hj0 : j0 < m_index m).
    { destruct (Nat.lt_ge_cases j0 (m_index m)) as [H|H]; [exact H|].
      rewrite get_beyond in Hget by (rewrite Hlen; exact H). discriminate. }
    exists (Z.of_nat j0). rewrite Heq. split; [lia|]. split; [|lia].
    right. rewrite Nat2Z.id. split; [lia|]. split.
    + rewrite <- (substring_prefix_get (m_index m) j0 content Hj0). exact Hget.
    + intros i [Hi1 Hi2].
      rewrite <- (substring_prefix_get (m_index m) i content Hi2).
      apply Hlast. exact Hi1.
Qed.

(** C7: every finding of a scan sits at a match offset; its line number is
    one plus the number of newlines before the offset and its column number
    is the offset minus the offset of the last newline before it ([-1] when
    there is none).  For the content "a\nb\nvar x=1;" and the pattern
    [\bvar\s+\w+] the finding is at line 3, column 1. *)
Theorem C7_finding_line_and_column :
  (forall (E : RegExpEngine) (this : RuleEngine.t) (re : RegExp)
          (content : string) (rule : Rule) (filePath : string)
          (findings : list Finding),
      RuleEngine.applyRuleWithTimeout this re content rule filePath
        = Return findings ->
      forall f, In f findings ->
        exists (lastIndex : nat) (m : MatchResult) (li : nat) (j : Z),
          JSRegExp.exec re content lastIndex = (Some m, li)
          /\ f_matchedText f = m_text m
          /\ m_index m <= String.length content
          /\ f_lineNumber f
             = (1 + Z.of_nat (JSString.count JSString.newline
                                (JSString.slice 0 (m_index m) content)))%Z
          /\ lastNewlineBefore content (m_index m) j
          /\ f_columnNumber f = (Z.of_nat (m_index m) - j)%Z)
  /\ positions
       (fst (RuleEngine.applyRules ("a" +:+ nl +:+ "b" +:+ nl +:+ "var x=1;")
               "/p/x.js" "js" (loaded [jsRule "r" "\bvar\s+\w+" JNull] None)))
     = [(3%Z, 1%Z, "var x")].
Proof.
  split; [|vm_compute; reflexivity].
  intros E this re content rule filePath findings Hrun f Hin.
  assert (Hscan : RuleEngine.scan RuleEngine.maxIterations re content rule
                    filePath 0 = Return findings).
  { unfold RuleEngine.applyRuleWithTimeout, ErrorHandler.withTimeout in Hrun.
    destruct (RuleEngine.errorHandler this); exact Hrun. }
  destruct (scan_findings _ _ _ _ _ _ _ Hscan f Hin) as (li & m & li' & He & ->).
  pose proof (exec_some _ _ _ _ _ He) as (_ & Hle & _).
  destruct (findingOf_position content rule filePath m Hle) as (j & Hl & Hj & Hc).
  exists li, m, li', j. repeat split; assumption.
Qed.

Lemma C7_witness :
  exists (lastIndex : nat) (m : MatchResult) (li : nat) (j : Z),
    JSRegExp.exec
      (E := MiniRegExp.engine)
      (MiniRegExp.mkCompiled (MiniRegExp.Chr (Ascii.eqb "x")) 0 true)
      ("a" +:+ nl +:+ "x") lastIndex = (Some m, li)
    /\ "x" = m_text m
    /\ m_index m <= String.length ("a" +:+ nl +:+ "x")
    /\ 2%Z = (1 + Z.of_nat (JSString.count JSString.newline
                 (JSString.slice 0 (m_index m) ("a" +:+ nl +:+ "x"))))%Z
    /\ lastNewlineBefore ("a" +:+ nl +:+ "x") (m_index m) j
    /\ 1%Z = (Z.of_nat (m_index m) - j)%Z.
Proof.
  destruct (proj1 C7_finding_line_and_column MiniRegExp.engine
              (RuleEngine.new None)
              (MiniRegExp.mkCompiled (MiniRegExp.Chr (Ascii.eqb "x")) 0 true)
              ("a" +:+ nl +:+ "x")
              (mkRule "r" "r" JNull "x" None [JString "js"] SevInfo)
              "/p/x.js"
              [RuleEngine.findingOf ("a" +:+ nl +:+ "x")
                 (mkRule "r" "r" JNull "x" None [JString "js"] SevInfo)
                 "/p/x.js" (mkMatch 2 "x" [])]
              eq_refl
              _ (or_introl eq_refl))
    as (li & m & li' & j & H1 & H2 & H3 & H4 & H5 & H6).
  exists li, m, li', j. repeat split; assumption.
Defined.

(** ** Findings without a replacement *)

Lemma applyEach_findings {E : RegExpEngine} (content filePath fileExtension : string) :
  forall (todo : list Rule) (this : RuleEngine.t) (f : Finding),
    In f (fst (RuleEngine.applyEach todo content filePath fileExtension this)) ->
    exists rule this' re findings,
      In rule todo
      /\ RuleEngine.applyRuleWithTimeout this' re content rule filePath
         = Return findings
      /\ In f findings.
Proof.
  induction todo as [|rule rest IH]; intros this f Hin; simpl in Hin; [destruct Hin|].
  destruct (negb (RuleEngine.appliesTo rule fileExtension)).
  { destruct (IH _ _ Hin) as (r & t' & re & fs & Hr & Hrun & Hf).
    exists r, t', re, fs. auto using in_cons. }
  destruct (RuleEngine.compiledRules this !! r_id rule) as [re|].
  2:{ destruct (IH _ _ Hin) as (r & t' & re & fs & Hr & Hrun & Hf).
      exists r, t', re, fs. auto using in_cons. }
  destruct (RuleEngine.applyRuleWithTimeout this re content rule filePath)
    as [ruleFindings|message] eqn:Hrun.
  - destruct (RuleEngine.applyEach rest content filePath fileExtension this)
      as [findings this'] eqn:Hrest.
    simpl in Hin. apply in_app_or in Hin. destruct Hin as [Hin|Hin].
    + exists rule, this, re, ruleFindings. auto using in_eq.
    + assert (Hin' : In f (fst (RuleEngine.applyEach rest content filePath
                                  fileExtension this)))
        by (rewrite Hrest; exact Hin).
      destruct (IH _ _ Hin') as (r & t' & re' & fs & Hr & Hrun' & Hf).
      exists r, t', re', fs. auto using in_cons.
  - destruct (IH _ _ Hin) as (r & t' & re' & fs & Hr & Hrun' & Hf).
    exists r, t', re', fs. auto using in_cons.
Qed.

Lemma filter_isFixable_none (findings : list Finding) :
  (forall f, In f findings -> f_fixable f = false \/ f_replacement f = None) ->
  List.filter Fixer.isFixable findings = [].
Proof.
  induction findings as [|f fs IH]; intros H; simpl; [reflexivity|].
  assert (Hf : Fixer.isFixable f = false).
  { unfold Fixer.isFixable.
    destruct (H f (in_eq _ _)) as [-> | ->]; [reflexivity|].
    apply andb_false_r. }
  rewrite Hf. apply IH. intros g Hg. apply H. now right.
Qed.

Lemma filter_isFixable_idem (findings : list Finding) :
  List.filter Fixer.isFixable (List.filter Fixer.isFixable findings)
  = List.filter Fixer.isFixable findings.
Proof.
  induction findings as [|f fs IH]; simpl; [reflexivity|].
  destruct (Fixer.isFixable f) eqn:Hf; simpl; [rewrite Hf, IH|]; auto.
Qed.


(** ** Rule engine: the cap on matches *)

Lemma substring_zero (n : nat) (s : string) : String.substring n 0 s = EmptyString.
Proof.
  revert s; induction n as [|n IH]; intros [|a s]; simpl; auto.
Qed.

Lemma repeat_length (c : ascii) (n : nat) : String.length (JSString.repeat c n) = n.
Proof. induction n; simpl; auto. Qed.

(** When every search succeeds at once with an empty match, there is one
    match per position, the end of the string included. *)
Lemma matchesFrom_empty {E : RegExpEngine} (re : RegExp) (s : string)
    (caps : list (option string)) :
  (forall li, li <= String.length s -> RegExp_search re s li = Some (0, 0, caps)) ->
  forall fuel li,
    length (JSRegExp.matchesFrom fuel re s li)
    = Nat.min fuel (S (String.length s) - li).
Proof.
  intros Hsearch. induction fuel as [|fuel IH]; intros li; [reflexivity|].
  simpl JSRegExp.matchesFrom.
  destruct (Nat.le_gt_cases li (String.length s)) as [Hle|Hgt].
  - unfold JSRegExp.exec.
    destruct (Nat.ltb_spec (String.length s) li) as [?|_]; [lia|].
    rewrite (Hsearch li Hle), Nat.add_0_r.
    destruct (Nat.ltb_spec (String.length s) li) as [?|_]; [lia|].
    rewrite substring_zero. cbn [JSRegExp.advance m_text String.length Nat.eqb].
    cbn [length]. rewrite IH, Nat.succ_min_distr. f_equal. lia.
  - rewrite exec_none_beyond by exact Hgt. cbn [length].
    replace (S (String.length s) - li) with 0 by lia. now rewrite Nat.min_0_r.
Qed.

Lemma applyRule_capped {E : RegExpEngine} (this : RuleEngine.t) (re : RegExp)
    (content : string) (rule : Rule) (filePath : string) :
  RuleEngine.applyRuleWithTimeout this re content rule filePath
  = if length (JSRegExp.matchAll re content) <=? RuleEngine.maxIterations
    then Return (map (RuleEngine.findingOf content rule filePath)
                     (JSRegExp.matchAll re content))
    else Throw RuleEngine.tooManyMatches.
Proof.
  unfold RuleEngine.applyRuleWithTimeout, ErrorHandler.withTimeout, JSRegExp.matchAll.
  rewrite (scan_matches re content rule filePath (S (String.length content)))
    by lia.
  destruct (RuleEngine.errorHandler this); reflexivity.
Qed.

Lemma applyEach_too_many {E : RegExpEngine} (this : RuleEngine.t) (rule : Rule)
    (rest : list Rule) (content filePath fileExtension : string) (re : RegExp) :
  RuleEngine.appliesTo rule fileExtension = true ->
  RuleEngine.compiledRules this !! r_id rule = Some re ->
  RuleEngine.maxIterations < length (JSRegExp.matchAll re content) ->
  RuleEngine.applyRuleWithTimeout this re content rule filePath
    = Throw RuleEngine.tooManyMatches
  /\ RuleEngine.applyEach (rule :: rest) content filePath fileExtension this
     = RuleEngine.applyEach rest content filePath fileExtension
         (classifyRejection rule filePath RuleEngine.tooManyMatches this).
Proof.
  intros Happ Hre Hmany.
  assert (Hthrow : RuleEngine.applyRuleWithTimeout this re content rule filePath
                   = Throw RuleEngine.tooManyMatches).
  { rewrite applyRule_capped.
    destruct (Nat.leb_spec (length (JSRegExp.matchAll re content))
                           RuleEngine.maxIterations); [lia|reflexivity]. }
  split; [exact Hthrow|].
  cbn [RuleEngine.applyEach]. rewrite Happ, Hre, Hthrow. cbn [negb].
  unfold classifyRejection. reflexivity.
Qed.

(** C6 (as the code has it): when a rule's pattern has more than 10000
    matches in a file, the rule's scan of that file is rejected with the
    "Too many regex matches" error, none of its findings is kept, and
    [applyRules] goes on with the next rule.  With an error handler the
    rejection is classified through [handleUnknownError] (type [unknown],
    not recoverable, critical; the [unknown] counter is incremented and the
    [timeout] counter is not); without one nothing is recorded.  A scan that
    returns findings returns at most 10000 of them. *)
Theorem C6_too_many_matches_rejected_as_unknown :
  forall (E : RegExpEngine) (this : RuleEngine.t) (rule : Rule) (rest : list Rule)
         (content filePath fileExtension : string) (re : RegExp),
    RuleEngine.appliesTo rule fileExtension = true ->
    RuleEngine.compiledRules this !! r_id rule = Some re ->
    RuleEngine.maxIterations < length (JSRegExp.matchAll re content) ->
    RuleEngine.applyRuleWithTimeout this re content rule filePath
      = Throw RuleEngine.tooManyMatches
    /\ RuleEngine.applyEach (rule :: rest) content filePath fileExtension this
       = RuleEngine.applyEach rest content filePath fileExtension
           (classifyRejection rule filePath RuleEngine.tooManyMatches this)
    /\ (RuleEngine.errorHandler this = None ->
        classifyRejection rule filePath RuleEngine.tooManyMatches this = this)
    /\ (forall h,
          RuleEngine.errorHandler this = Some h ->
          let classified :=
            ErrorHandler.handleUnknownError "rule application"
              RuleEngine.tooManyMatches h in
          RuleEngine.errorHandler
            (classifyRejection rule filePath RuleEngine.tooManyMatches this)
            = Some (snd classified)
          /\ e_type (fst classified) = TUnknown
          /\ e_recoverable (fst classified) = false
          /\ e_critical (fst classified) = true
          /\ c_unknown (ErrorHandler.errorCounts (snd classified))
             = S (c_unknown (ErrorHandler.errorCounts h))
          /\ c_timeout (ErrorHandler.errorCounts (snd classified))
             = c_timeout (ErrorHandler.errorCounts h))
    /\ (forall (this' : RuleEngine.t) (re' : RegExp) content' rule' filePath'
               findings,
          RuleEngine.applyRuleWithTimeout this' re' content' rule' filePath'
            = Return findings ->
          length findings <= RuleEngine.maxIterations).
Proof.
  intros E this rule rest content filePath fileExtension re Happ Hre Hmany.
  destruct (applyEach_too_many this rule rest content filePath fileExtension re
              Happ Hre Hmany) as [Hthrow Heach].
  split; [exact Hthrow|]. split; [exact Heach|].
  split; [|split].
  - intros Hnone. unfold classifyRejection. now rewrite Hnone.
  - intros h Hh. cbn zeta. unfold classifyRejection. rewrite Hh.
    repeat split.
  - intros this' re' content' rule' filePath' findings Hrun.
    rewrite applyRule_capped in Hrun.
    destruct (Nat.leb_spec (length (JSRegExp.matchAll re' content'))
                           RuleEngine.maxIterations) as [Hle|Hgt];
      [|discriminate].
    injection Hrun as <-. rewrite length_map. exact Hle.
Qed.

Lemma skipTo_some (s : string) :
  forall (n : nat) (prev : option ascii),
    n <= String.length s ->
    exists prev' rest, MiniRegExp.skipTo n prev s = Some (prev', rest).
Proof.
  induction s as [|a s IH]; intros [|n] prev Hn; simpl in *; eauto; [lia|].
  apply IH. lia.
Qed.

Lemma runaway_search (s : string) (li : nat) :
  li <= String.length s ->
  RegExp_search (RegExpEngine := MiniRegExp.engine) runawayRegExp s li
  = Some (0, 0, []).
Proof.
  intros Hle. cbn [RegExp_search MiniRegExp.engine]. unfold MiniRegExp.search.
  destruct (skipTo_some s li None Hle) as (prev & rest & ->).
  assert (Hfound : MiniRegExp.searchFrom (MiniRegExp.multiline runawayRegExp)
                     (MiniRegExp.body runawayRegExp) prev rest li
                   = Some (li, li, [])) by (destruct rest; reflexivity).
  rewrite Hfound, Nat.sub_diag. reflexivity.
Qed.

Lemma runaway_many :
  RuleEngine.maxIterations
  < length (JSRegExp.matchAll (E := MiniRegExp.engine) runawayRegExp runawayContent).
Proof.
  unfold JSRegExp.matchAll.
  rewrite (matchesFrom_empty (E := MiniRegExp.engine) runawayRegExp
             runawayContent [] (runaway_search runawayContent)).
  rewrite Nat.sub_0_r, Nat.min_id. unfold runawayContent.
  rewrite repeat_length. apply Nat.lt_succ_diag_r.
Qed.

Lemma runaway_loaded (h : option ErrorHandler.t) :
  loaded [runawayRule] h
  = RuleEngine.mk [runawayValidated] {["runaway" := runawayRegExp]} h.
Proof. reflexivity. Qed.

Lemma C6_witness :
  RuleEngine.applyRuleWithTimeout (E := MiniRegExp.engine)
    (loaded [runawayRule] (Some ErrorHandler.new)) runawayRegExp runawayContent
    runawayValidated "/p/big.js"
  = Throw RuleEngine.tooManyMatches.
Proof.
  refine (proj1 (C6_too_many_matches_rejected_as_unknown MiniRegExp.engine
                   (loaded [runawayRule] (Some ErrorHandler.new))
                   runawayValidated [] runawayContent "/p/big.js" "js"
                   runawayRegExp eq_refl _ runaway_many)).
  rewrite runaway_loaded. vm_compute. reflexivity.
Defined.

(** At a runaway rule, with an error handler: the rejection is counted as
    [unknown] and printed as an unexpected error; the [timeout] counter is
    not touched. *)
Lemma C6_counterexample :
  let run := RuleEngine.applyRules (E := MiniRegExp.engine) runawayContent
               "/p/big.js" "js" (loaded [runawayRule] (Some ErrorHandler.new)) in
  fst run = []
  /\ exists h,
       RuleEngine.errorHandler (snd run) = Some h
       /\ c_timeout (ErrorHandler.errorCounts h) = 0
       /\ c_unknown (ErrorHandler.errorCounts h) = 1
       /\ ErrorHandler.console h
          = [unknownReport "rule application" RuleEngine.tooManyMatches].
Proof.
  cbn zeta. rewrite runaway_loaded. unfold RuleEngine.applyRules.
  cbn [RuleEngine.rules].
  assert (Hlookup : RuleEngine.compiledRules
                      (RuleEngine.mk (E := MiniRegExp.engine) [runawayValidated]
                         {["runaway" := runawayRegExp]} (Some ErrorHandler.new))
                      !! r_id runawayValidated = Some runawayRegExp)
    by (vm_compute; reflexivity).
  destruct (applyEach_too_many (E := MiniRegExp.engine) _ runawayValidated []
              runawayContent "/p/big.js" "js" runawayRegExp eq_refl Hlookup
              runaway_many) as [_ ->].
  cbn [RuleEngine.applyEach fst snd]. split; [reflexivity|].
  eexists. split; [reflexivity|]. repeat split.
Qed.

(** ** Fixer: one replacement *)

Lemma applyPatternReplacement_fallback {E : RegExpEngine} (content : string)
    (finding : Finding) :
  (f_pattern finding = None
   \/ f_pattern finding = Some EmptyString
   \/ exists pattern message,
        f_pattern finding = Some pattern
        /\ RegExp_new pattern false = Throw message) ->
  Fixer.applyPatternReplacement content finding
  = JSRegExp.replace_string content (f_matchedText finding)
                            (Fixer.replacementText finding).
Proof.
  unfold Fixer.applyPatternReplacement.
  intros [->|[->|(pattern & message & -> & Hnew)]]; try reflexivity.
  rewrite Hnew. destruct (String.eqb pattern EmptyString); reflexivity.
Qed.

(** C10: when the finding has no pattern (or an empty one, or one that does
    not compile when the fix is applied), [applyPatternReplacement] replaces
    the first occurrence of the finding's matched text and nothing else:
    the text before it and all the text after it, later occurrences
    included, are kept; without an occurrence the content is returned as it
    is. *)
Theorem C10_fallback_replaces_first_occurrence_only :
  forall (E : RegExpEngine) (content : string) (finding : Finding),
    (f_pattern finding = None
     \/ f_pattern finding = Some EmptyString
     \/ exists pattern message,
          f_pattern finding = Some pattern
          /\ RegExp_new pattern false = Throw message) ->
    let needle := f_matchedText finding in
    match JSString.indexOf needle content with
    | None => Fixer.applyPatternReplacement content finding = content
    | Some i =>
        Fixer.applyPatternReplacement content finding
        = JSString.slice 0 i content
            +:+ JSRegExp.GetSubstitution needle content i []
                  (Fixer.replacementText finding)
            +:+ JSString.slice_from (i + String.length needle) content
        /\ String.substring i (String.length needle) content = needle
        /\ forall j, j < i ->
                     String.substring j (String.length needle) content <> needle
    end
    /\ Fixer.applyPatternReplacement "var a; var b"
         (mkFinding "r" "r" JNull "/p/x.js" 1 1 "var" SevInfo true (Some "let") None)
       = "let a; var b".
Proof.
  intros E content finding Hfallback needle.
  split; [|reflexivity].
  rewrite (applyPatternReplacement_fallback content finding Hfallback).
  unfold JSRegExp.replace_string. fold needle.
  unfold JSString.indexOf.
  destruct (String.index 0 needle content) as [i|] eqn:Hi; [|reflexivity].
  split; [reflexivity|]. split.
  - exact (String.index_correct1 0 i needle content Hi).
  - intros j Hj.
    apply (String.index_correct2 0 i needle content Hi j); [lia|exact Hj].
Qed.

Lemma C10_witness :
  Fixer.applyPatternReplacement (E := MiniRegExp.engine) "f(a); f(b)"
    (mkFinding "r" "r" JNull "/p/x.js" 1 1 "f(" SevInfo true (Some "g(")
               (Some "f("))
  = "g(a); f(b)".
Proof.
  pose proof (C10_fallback_replaces_first_occurrence_only MiniRegExp.engine
                "f(a); f(b)"
                (mkFinding "r" "r" JNull "/p/x.js" 1 1 "f(" SevInfo true
                           (Some "g(") (Some "f("))
                (or_intror (or_intror
                   (ex_intro _ "f("
                      (ex_intro _ "Invalid regular expression: Unterminated group"
                         (conj eq_refl eq_refl)))))) as [H _].
  exact (proj1 H).
Defined.

(** ** Fixer: the order of the substitutions *)

Lemma compareFindings_total (a b : Finding) :
  ~ notAfter a b -> notAfter b a.
Proof.
  unfold notAfter, Fixer.compareFindings.
  destruct (Z.eqb_spec (f_lineNumber a) (f_lineNumber b)) as [Hab|Hab];
    destruct (Z.eqb_spec (f_lineNumber b) (f_lineNumber a)) as [Hba|Hba];
    simpl; lia.
Qed.

Lemma insertSorted_perm (x : Finding) (l : list Finding) :
  Permutation (Fixer.insertSorted x l) (x :: l).
Proof.
  induction l as [|y l IH]; simpl; [reflexivity|].
  destruct (Fixer.compareFindings x y <=? 0)%Z; [reflexivity|].
  rewrite IH. apply perm_swap.
Qed.

Lemma sortFindings_perm (l : list Finding) : Permutation (Fixer.sortFindings l) l.
Proof.
  induction l as [|x l IH]; simpl; [reflexivity|].
  rewrite insertSorted_perm. now constructor.
Qed.

Lemma insertSorted_sorted (x : Finding) (l : list Finding) :
  Sorted notAfter l -> Sorted notAfter (Fixer.insertSorted x l).
Proof.
  induction l as [|y l IH]; intros Hs; simpl.
  - repeat constructor.
  - destruct (Z.leb_spec (Fixer.compareFindings x y) 0) as [Hle|Hgt].
    + constructor; [exact Hs|]. constructor. exact Hle.
    + inversion Hs as [|? ? Hl Hhd]; subst.
      constructor; [apply IH; exact Hl|].
      assert (Hyx : notAfter y x) by (apply compareFindings_total; unfold notAfter; lia).
      destruct l as [|z l]; simpl.
      * constructor. exact Hyx.
      * destruct (Fixer.compareFindings x z <=? 0)%Z; constructor;
          [exact Hyx|inversion Hhd; assumption].
Qed.

Lemma sortFindings_sorted (l : list Finding) : Sorted notAfter (Fixer.sortFindings l).
Proof.
  induction l as [|x l IH]; simpl; [constructor|].
  apply insertSorted_sorted. exact IH.
Qed.

Lemma insertSorted_stable (line column : Z) (x : Finding) (l : list Finding) :
  List.filter (atPosition line column) (Fixer.insertSorted x l)
  = List.filter (atPosition line column) (x :: l).
Proof.
  induction l as [|y l IH]; simpl; [reflexivity|].
  destruct (Z.leb_spec (Fixer.compareFindings x y) 0) as [Hle|Hgt];
    [reflexivity|].
  simpl. rewrite IH. simpl.
  destruct (atPosition line column x) eqn:Hx;
    destruct (atPosition line column y) eqn:Hy; try reflexivity.
  exfalso. unfold atPosition in Hx, Hy.
  apply andb_prop in Hx. apply andb_prop in Hy.
  destruct Hx as [Hx1 Hx2], Hy as [Hy1 Hy2].
  apply Z.eqb_eq in Hx1, Hx2, Hy1, Hy2.
  unfold Fixer.compareFindings in Hgt.
  destruct (Z.eqb_spec (f_lineNumber x) (f_lineNumber y)); simpl in Hgt; lia.
Qed.

Lemma sortFindings_stable (line column : Z) (l : list Finding) :
  List.filter (atPosition line column) (Fixer.sortFindings l)
  = List.filter (atPosition line column) l.
Proof.
  induction l as [|x l IH]; simpl; [reflexivity|].
  rewrite insertSorted_stable. simpl. now rewrite IH.
Qed.

Lemma applyEachFix_fold {E : RegExpEngine} (todo : list Finding) :
  forall (content : string) (n : nat),
    fst (Fixer.applyEachFix todo content n)
    = fold_left Fixer.applyPatternReplacement todo content.
Proof.
  induction todo as [|f todo IH]; intros content n; simpl; [reflexivity|].
  apply IH.
Qed.

Lemma applyEachFix_count {E : RegExpEngine} (todo : list Finding) :
  forall (content : string) (n : nat),
    snd (Fixer.applyEachFix todo content n)
    = n + snd (Fixer.applyEachFix todo content 0).
Proof.
  induction todo as [|f todo IH]; intros content n; simpl; [lia|].
  destruct (String.eqb (Fixer.applyPatternReplacement content f) content).
  - apply IH.
  - rewrite (IH _ (S n)), (IH _ 1). lia.
Qed.

Lemma fixFile_content {E : RegExpEngine} (filePath : string)
    (findings : list Finding) (st st' : Fixer.t) (original : string)
    (result : Fixer.FileResult) :
  FS.readFile filePath (Fixer.fs st) = Return original ->
  Fixer.fixFile filePath findings st = (Return result, st') ->
  Fixer.dryRun (Fixer.options st) = false ->
  FS.readFile filePath (Fixer.fs st')
  = Return (fold_left Fixer.applyPatternReplacement
              (Fixer.sortFindings findings) original).
Proof.
  intros Hread Hfix Hdry.
  rewrite <- (applyEachFix_fold (Fixer.sortFindings findings) original 0).
  unfold Fixer.fixFile, Fixer.catch, Fixer.bind, Fixer.query, Fixer.getOptions
    in Hfix.
  rewrite Hread in Hfix. cbn zeta in Hfix.
  set (modified := fst (Fixer.applyEachFix (Fixer.sortFindings findings)
                          original 0)) in *.
  rewrite Hdry in Hfix. cbn [negb andb] in Hfix.
  destruct (String.eqb_spec modified original) as [Heq|Hne]; cbn [negb] in Hfix.
  - unfold Fixer.ret in Hfix. injection Hfix as _ <-. rewrite Heq. exact Hread.
  - unfold FS.readFile in Hread.
    destruct (Fixer.fs st !! filePath) as [[c m|m]|] eqn:Hlook; try discriminate.
    destruct (FS.readable (File c m)) eqn:Hr; [|discriminate].
    unfold Fixer.update, Fixer.ret, Fixer.setFs, FS.stat, FS.writeFile, FS.chmod
      in Hfix.
    rewrite Hlook in Hfix.
    destruct (FS.writable (File c m)); [|discriminate].
    cbn [Fixer.fs] in Hfix. rewrite lookup_insert_eq in Hfix.
    cbn [Fixer.fs] in Hfix.
    injection Hfix as _ <-. cbn [Fixer.fs].
    unfold FS.readFile. rewrite lookup_insert_eq.
    change (FS.readable (File modified m)) with (FS.readable (File c m)).
    rewrite Hr. reflexivity.
Qed.

(** C2 (as the code has it): [fixFile] applies one substitution per finding,
    taking the findings by decreasing position (line, then column; findings
    at the same position keep their order), whatever the order of their
    rules in the rule set.  Each substitution acts on the content left by
    the previous ones and, for a finding that carries a pattern that
    compiles, is a global replace; when the run is not a dry run, the file
    holds the result afterwards. *)
Theorem C2_substitutions_by_decreasing_position :
  forall (E : RegExpEngine) (findings : list Finding),
    let sorted := Fixer.sortFindings findings in
    Permutation sorted findings
    /\ Sorted notAfter sorted
    /\ (forall line column,
          List.filter (atPosition line column) sorted
          = List.filter (atPosition line column) findings)
    /\ (forall content n,
          fst (Fixer.applyEachFix sorted content n)
          = fold_left Fixer.applyPatternReplacement sorted content)
    /\ (forall content finding pattern re,
          f_pattern finding = Some pattern ->
          pattern <> EmptyString ->
          RegExp_new pattern false = Return re ->
          Fixer.applyPatternReplacement content finding
          = JSRegExp.replace_regexp content re (Fixer.replacementText finding))
    /\ (forall filePath (st st' : Fixer.t) original result,
          FS.readFile filePath (Fixer.fs st) = Return original ->
          Fixer.fixFile filePath findings st = (Return result, st') ->
          Fixer.dryRun (Fixer.options st) = false ->
          FS.readFile filePath (Fixer.fs st')
          = Return (fold_left Fixer.applyPatternReplacement sorted original)).
Proof.
  intros E findings sorted. subst sorted.
  split; [apply sortFindings_perm|].
  split; [apply sortFindings_sorted|].
  split; [intros; apply sortFindings_stable|].
  split; [intros; apply applyEachFix_fold|].
  split.
  - intros content finding pattern re Hp Hne Hnew.
    unfold Fixer.applyPatternReplacement. rewrite Hp, Hnew.
    destruct (String.eqb_spec pattern EmptyString); [contradiction|reflexivity].
  - intros filePath st st' original result. apply fixFile_content.
Qed.

Lemma C2_witness :
  Fixer.applyPatternReplacement (E := MiniRegExp.engine) "a-a"
    (mkFinding "first" "first" JNull "/p/x.js" 1 1 "a" SevWarning true
               (Some "b") (Some "a"))
  = "b-b".
Proof.
  refine (eq_trans
            (proj1 (proj2 (proj2 (proj2 (proj2
               (C2_substitutions_by_decreasing_position MiniRegExp.engine [])))))
               "a-a"
               (mkFinding "first" "first" JNull "/p/x.js" 1 1 "a" SevWarning true
                          (Some "b") (Some "a"))
               "a"
               (MiniRegExp.mkCompiled
                  (MiniRegExp.Seq (MiniRegExp.Chr (Ascii.eqb "a")) MiniRegExp.Empty)
                  0 false)
               eq_refl _ eq_refl)
            eq_refl).
  discriminate.
Defined.

(** Rules "a" -> "b" then "b" -> "c" on a file with "a" on line 1 and "b" on
    line 2: in load order both lines would end as "c"; the fixer takes the
    finding of line 2 first and leaves "b" on line 1. *)
Lemma C2_counterexample :
  let this := loaded chainedRules None in
  let findings :=
    fst (RuleEngine.applyRules chainedContent "/p/x.js" "js" this) in
  let st := Fixer.new (Fixer.mkOptions "/p/.backups" true false)
                      (oneFile "/p/x.js" chainedContent) in
  map f_ruleId findings = ["first"; "second"]
  /\ FS.readFile "/p/x.js"
       (Fixer.fs (snd (Fixer.applyFixes frozenClock findings
                         (Fixer.mkFixOptions false true) st)))
     = Return ("b" +:+ nl +:+ "c")
  /\ substituteInLoadOrder (RuleEngine.rules this) chainedContent
     = "c" +:+ nl +:+ "c".
Proof. vm_compute. repeat split. Qed.

(** ** Fixer: the dry-run scenario *)

(** C1 (what the code does): in the scenario the scan gives two findings,
    one per line; the dry run leaves the file and the backup directory
    alone and creates no backup, and reports one replaced pattern, not two:
    the substitution of the first finding taken rewrites both lines and the
    second one changes nothing. *)
Theorem C1_dry_run_reports_one_replacement :
  let this := loaded [varRule] None in
  let findings := fst (RuleEngine.applyRules varContent "/p/test.js" "js" this) in
  let st := Fixer.new (Fixer.mkOptions "/p/.backups" true true)
                      (oneFile "/p/test.js" varContent) in
  positions findings = [(1%Z, 1%Z, "var"); (2%Z, 1%Z, "var")]
  /\ exists results st',
       Fixer.applyFixes frozenClock findings (Fixer.mkFixOptions true true) st
         = (Return results, st')
       /\ Fixer.patternsReplaced results = 1
       /\ Fixer.filesProcessed results = 1
       /\ Fixer.backupsCreated results = []
       /\ Fixer.backupRegistry st' = []
       /\ Fixer.fs st' = oneFile "/p/test.js" varContent.
Proof.
  cbn zeta. split; [vm_compute; reflexivity|].
  eexists _, _. split; [vm_compute; reflexivity|].
  repeat split.
Qed.

(** The fix test of the command-line tool, which expects two replaced
    patterns for this rule and content: the file is fixed, and the count is
    one. *)
Lemma cli_fix_test_reports_one_replacement :
  let this := loaded [varDeclarationRule] None in
  let findings := fst (RuleEngine.applyRules varContent "/p/test.js" "js" this) in
  let st := Fixer.new (Fixer.mkOptions "/p/.backups" true false)
                      (oneFile "/p/test.js" varContent) in
  let run := Fixer.applyFixes frozenClock findings (Fixer.mkFixOptions true true) st in
  length findings = 2
  /\ FS.readFile "/p/test.js" (Fixer.fs (snd run))
     = Return ("const x = 1;" +:+ nl +:+ "const y = 2;")
  /\ exists results,
       fst run = Return results
       /\ Fixer.filesFixed results = 1
       /\ Fixer.patternsReplaced results = 1.
Proof.
  cbn zeta. split; [vm_compute; reflexivity|].
  split; [vm_compute; reflexivity|].
  eexists. split; [vm_compute; reflexivity|]. split; reflexivity.
Qed.

(** ** Rule engine: loading *)
Section LoadFacts.
Context {E : RegExpEngine}.

#[local] Arguments ErrorHandler.handleInvalidRegexError : simpl never.

Lemma loadEach_handled (items : list json) :
  forall (rules0 : list Rule) (compiled0 : gmap string RegExp) (h : ErrorHandler.t),
    match validateAll items with
    | Throw message =>
        fst (RuleEngine.loadEach items (RuleEngine.mk rules0 compiled0 (Some h)))
        = Throw message
    | Return rules =>
        RuleEngine.loadEach items (RuleEngine.mk rules0 compiled0 (Some h))
        = (Return tt,
           RuleEngine.mk (rules0 ++ rules) (compileAll rules compiled0)
                         (Some (reportInvalid rules h)))
    end.
Proof.
  induction items as [|item rest IH]; intros rules0 compiled0 h.
  - simpl. now rewrite app_nil_r.
  - simpl. destruct (RuleEngine.validateRule item) as [rule|message]; simpl;
      [|reflexivity].
    destruct (RegExp_new (r_pattern rule) true) as [re|message] eqn:Hnew; simpl.
    + specialize (IH (rules0 ++ [rule]) (<[r_id rule := re]> compiled0) h).
      destruct (validateAll rest) as [rules|message]; simpl; [|exact IH].
      rewrite IH, <- app_assoc. unfold compileAll, reportInvalid. simpl.
      now rewrite Hnew.
    + specialize (IH (rules0 ++ [rule]) compiled0
                     (snd (ErrorHandler.handleInvalidRegexError (r_id rule)
                             (r_pattern rule) message h))).
      simpl in IH.
      destruct (validateAll rest) as [rules|message']; simpl; [|exact IH].
      rewrite IH, <- app_assoc. unfold compileAll, reportInvalid. simpl.
      now rewrite Hnew.
Qed.

Lemma loadEach_invalid_throws (items : list json) :
  forall (this : RuleEngine.t) (message : string),
    validateAll items = Throw message ->
    exists message', fst (RuleEngine.loadEach items this) = Throw message'.
Proof.
  induction items as [|item rest IH]; intros this message Hv; simpl in *;
    [discriminate|].
  destruct (RuleEngine.validateRule item) as [rule|m]; simpl in *; [|eauto].
  destruct (validateAll rest) as [rules|m] eqn:Hrest; simpl in Hv; [discriminate|].
  destruct (RegExp_new (r_pattern rule) true); [eapply IH; eauto|].
  destruct (RuleEngine.errorHandler this); simpl; [eapply IH; eauto|eauto].
Qed.

Lemma compileAll_other (rules : list Rule) :
  forall (compiled : gmap string RegExp) (id : string),
    ~ In id (map r_id rules) ->
    compileAll rules compiled !! id = compiled !! id.
Proof.
  induction rules as [|rule rest IH]; intros compiled id Hid; [reflexivity|].
  unfold compileAll; simpl. fold (compileAll rest).
  simpl in Hid.
  destruct (RegExp_new (r_pattern rule) true).
  - fold (compileAll rest (<[r_id rule := a]> compiled)).
    rewrite IH by tauto. apply lookup_insert_ne. tauto.
  - fold (compileAll rest compiled). apply IH. tauto.
Qed.

Lemma compileAll_lookup (rules : list Rule) :
  forall (compiled : gmap string RegExp) (rule : Rule),
    List.NoDup (map r_id rules) ->
    In rule rules ->
    compileAll rules compiled !! r_id rule
    = match RegExp_new (r_pattern rule) true with
      | Return re => Some re
      | Throw _ => compiled !! r_id rule
      end.
Proof.
  induction rules as [|first rest IH]; intros compiled rule Hnd Hin; [destruct Hin|].
  simpl in Hnd. inversion Hnd as [|? ? Hfresh Hnd']; subst.
  unfold compileAll; simpl.
  destruct Hin as [->|Hin].
  - destruct (RegExp_new (r_pattern rule) true) as [re|m].
    + fold (compileAll rest (<[r_id rule := re]> compiled)).
      rewrite compileAll_other by exact Hfresh. apply lookup_insert_eq.
    + fold (compileAll rest compiled). apply compileAll_other. exact Hfresh.
  - assert (Hne : r_id first <> r_id rule).
    { intros Heq. apply Hfresh. rewrite Heq. apply in_map. exact Hin. }
    destruct (RegExp_new (r_pattern first) true) as [re|m].
    + fold (compileAll rest (<[r_id first := re]> compiled)).
      rewrite (IH _ rule Hnd' Hin).
      destruct (RegExp_new (r_pattern rule) true); [reflexivity|].
      apply lookup_insert_ne. exact Hne.
    + fold (compileAll rest compiled). apply (IH _ rule Hnd' Hin).
Qed.

Lemma reportInvalid_cons (rule : Rule) (rest : list Rule) (h : ErrorHandler.t) :
  reportInvalid (rule :: rest) h
  = reportInvalid rest
      (match RegExp_new (r_pattern rule) true with
       | Return _ => h
       | Throw message =>
           snd (ErrorHandler.handleInvalidRegexError (r_id rule) (r_pattern rule)
                  message h)
       end).
Proof. reflexivity. Qed.

Lemma reportInvalid_counts (rules : list Rule) :
  forall (h : ErrorHandler.t),
    c_regex (ErrorHandler.errorCounts (reportInvalid rules h))
    = c_regex (ErrorHandler.errorCounts h)
      + length (List.filter failsToCompile rules)
    /\ length (ErrorHandler.console (reportInvalid rules h))
       = length (ErrorHandler.console h)
         + length (List.filter failsToCompile rules).
Proof.
  induction rules as [|rule rest IH]; intros h; [simpl; lia|].
  rewrite reportInvalid_cons. cbn [List.filter].
  assert (Hf : failsToCompile rule
               = match RegExp_new (r_pattern rule) true with
                 | Return _ => false
                 | Throw _ => true
                 end) by reflexivity.
  rewrite Hf.
  destruct (RegExp_new (r_pattern rule) true) as [re|m].
  - apply IH.
  - destruct (IH (snd (ErrorHandler.handleInvalidRegexError (r_id rule)
                         (r_pattern rule) m h))) as [Hc Hp].
    rewrite Hc, Hp. unfold ErrorHandler.handleInvalidRegexError, ErrorHandler.print.
    cbn [snd ErrorHandler.errorCounts ErrorHandler.console c_regex length].
    rewrite length_app. cbn [length]. lia.
Qed.

End LoadFacts.

(** C3 (as the code has it): [loadRules] raises a fatal error when the
    top-level [rules] key is missing or not a list, and also when a rule of
    the list fails field validation: with an error handler the error raised
    is that of the first such rule.  When every rule passes field validation
    and an error handler is configured, loading succeeds, every rule is kept
    in the rule list, each rule whose pattern does not compile is reported
    once to the handler as an invalid-regex error and, rule ids being
    distinct, a rule has a compiled pattern exactly when its pattern
    compiles; [applyRules] passes over a rule without a compiled pattern. *)
Theorem C3_load_rules_validation :
  forall (E : RegExpEngine) (rulesPath : string) (config : json)
         (this : RuleEngine.t),
    (forall v,
        JSON.get config "rules" = Return v ->
        (forall items, v <> Some (JArray items)) ->
        RuleEngine.loadRules rulesPath (RuleEngine.Parsed config) this
        = (Throw missingRulesArray, this))
    /\ (forall items,
          JSON.get config "rules" = Return (Some (JArray items)) ->
          (forall message,
              validateAll items = Throw message ->
              exists message',
                fst (RuleEngine.loadRules rulesPath (RuleEngine.Parsed config) this)
                = Throw message')
          /\ (forall message h,
                validateAll items = Throw message ->
                RuleEngine.errorHandler this = Some h ->
                fst (RuleEngine.loadRules rulesPath (RuleEngine.Parsed config) this)
                = Throw message)
          /\ (forall rules h,
                validateAll items = Return rules ->
                RuleEngine.errorHandler this = Some h ->
                RuleEngine.loadRules rulesPath (RuleEngine.Parsed config) this
                = (Return tt,
                   RuleEngine.mk rules (compileAll rules ∅)
                                 (Some (reportInvalid rules h)))
                /\ c_regex (ErrorHandler.errorCounts (reportInvalid rules h))
                   = c_regex (ErrorHandler.errorCounts h)
                     + length (List.filter failsToCompile rules)
                /\ (List.NoDup (map r_id rules) ->
                    forall rule,
                      In rule rules ->
                      compileAll rules ∅ !! r_id rule
                      = match RegExp_new (r_pattern rule) true with
                        | Return re => Some re
                        | Throw _ => None
                        end)))
    /\ (forall (rule : Rule) (rest : list Rule)
               (content filePath fileExtension : string),
          RuleEngine.compiledRules this !! r_id rule = None ->
          RuleEngine.applyEach (rule :: rest) content filePath fileExtension this
          = RuleEngine.applyEach rest content filePath fileExtension this).
Proof.
  intros E rulesPath config this. split; [|split].
  - intros v Hget Hnot. unfold RuleEngine.loadRules. rewrite Hget.
    destruct v as [[| | | |items|]|]; try reflexivity.
    exfalso. apply (Hnot items). reflexivity.
  - intros items Hget. unfold RuleEngine.loadRules. rewrite Hget.
    split; [|split].
    + intros message Hv. eapply loadEach_invalid_throws. exact Hv.
    + intros message h Hv Hh. rewrite Hh.
      pose proof (loadEach_handled items [] ∅ h) as Hload.
      rewrite Hv in Hload. exact Hload.
    + intros rules h Hv Hh. rewrite Hh.
      pose proof (loadEach_handled items [] ∅ h) as Hload.
      rewrite Hv in Hload. split; [exact Hload|].
      split; [apply reportInvalid_counts|].
      intros Hnd rule Hin. rewrite (compileAll_lookup rules ∅ rule Hnd Hin).
      destruct (RegExp_new (r_pattern rule) true); [reflexivity|].
      apply lookup_empty.
  - intros rule rest content filePath fileExtension Hnone.
    cbn [RuleEngine.applyEach]. rewrite Hnone.
    destruct (negb (RuleEngine.appliesTo rule fileExtension)); reflexivity.
Qed.

Lemma C3_witness :
  fst (RuleEngine.loadRules (E := MiniRegExp.engine) "rules.json"
         (rulesFile partlyBrokenRules) (RuleEngine.new (Some ErrorHandler.new)))
  = Return tt.
Proof.
  exact (f_equal fst
           (proj1 (proj2 (proj2 (proj1 (proj2
              (C3_load_rules_validation MiniRegExp.engine "rules.json"
                 (JObject [("rules", JArray partlyBrokenRules)])
                 (RuleEngine.new (Some ErrorHandler.new))))
              partlyBrokenRules eq_refl))
              [mkRule "ok" "ok" (JString "ok") "a" None [JString "js"] SevWarning;
               mkRule "broken" "broken" (JString "broken") "(" None
                      [JString "js"] SevWarning]
              ErrorHandler.new eq_refl eq_refl))).
Defined.

(** A rules file whose [rules] key is a list, one rule of which has no
    [name]: the whole load is rejected. *)
Lemma C3_counterexample :
  JSON.get (JObject [("rules", JArray partlyInvalidRules)]) "rules"
    = Return (Some (JArray partlyInvalidRules))
  /\ RuleEngine.validateRule (jsRule "ok" "a" JNull)
     = Return (mkRule "ok" "ok" (JString "ok") "a" None [JString "js"] SevWarning)
  /\ fst (RuleEngine.loadRules (E := MiniRegExp.engine) "rules.json"
            (rulesFile partlyInvalidRules)
            (RuleEngine.new (Some ErrorHandler.new)))
     = Throw (RuleEngine.validationFailed
                ("missing required field " +:+ RuleEngine.quoted "name")).
Proof. vm_compute. repeat split. Qed.

(** ** Fixer: backups *)

Lemma JSMap_get_set_eq {V : Type} (k : string) (v : V) (m : list (string * V)) :
  JSMap.get k (JSMap.set k v m) = Some v.
Proof.
  induction m as [|[k' v'] m IH]; simpl.
  - now rewrite String.eqb_refl.
  - destruct (String.eqb k' k) eqn:Hk; simpl.
    + now rewrite String.eqb_refl.
    + now rewrite Hk.
Qed.

Lemma JSMap_set_same {V : Type} (k : string) (v : V) (m : list (string * V)) :
  JSMap.get k m = Some v -> JSMap.set k v m = m.
Proof.
  induction m as [|[k' v'] m IH]; simpl; [discriminate|].
  destruct (String.eqb_spec k' k) as [->|Hne].
  - now intros [= ->].
  - intros H. now rewrite IH.
Qed.

Lemma JSMap_keys_set {V : Type} (k : string) (v : V) (m : list (string * V)) :
  In k (JSMap.keys (JSMap.set k v m))
  /\ forall q, In q (JSMap.keys m) -> In q (JSMap.keys (JSMap.set k v m)).
Proof.
  induction m as [|[k' v'] m [IH1 IH2]]; simpl.
  - split; [now left|tauto].
  - destruct (String.eqb_spec k' k) as [->|Hne]; simpl.
    + split; [now left|tauto].
    + split; [now right|]. intros q [->|Hq]; [now left|right; auto].
Qed.

Lemma ensureDir_success (dir : string) (files files1 : gmap string node) :
  FS.ensureDir dir files = Return files1 ->
  (exists dirMode, files1 !! dir = Some (Directory dirMode))
  /\ (forall q, q <> dir -> files1 !! q = files !! q)
  /\ (forall n, files !! dir = Some n -> files1 = files).
Proof.
  unfold FS.ensureDir.
  destruct (files !! dir) as [[c m|m]|] eqn:Hdir; intros [= <-].
  - split; [eauto|]. split; auto.
  - split; [exists 511%N; apply lookup_insert_eq|].
    split; [intros q Hq; now apply lookup_insert_ne|discriminate].
Qed.

Lemma copy_keep_success (src dest : string) (files files2 : gmap string node) :
  FS.copy src dest false files = Return files2 ->
  exists s,
    files !! src = Some s
    /\ ((files !! dest = None /\ files2 = <[dest := s]> files)
        \/ (exists d, files !! dest = Some d /\ src <> dest
                      /\ FS.isFile s = FS.isFile d /\ files2 = files)).
Proof.
  unfold FS.copy.
  destruct (files !! src) as [s|] eqn:Hs; [|discriminate].
  destruct (files !! dest) as [d|] eqn:Hd.
  - destruct (String.eqb_spec src dest) as [->|Hne]; [discriminate|].
    destruct (FS.isFile s) eqn:Hfs, (FS.isFile d) eqn:Hfd; cbn;
      try discriminate; intros [= <-]; exists s; split; auto;
      right; exists d; rewrite ?Hfs, ?Hfd; auto.
  - destruct (FS.isFile s); cbn; [destruct (FS.readable s); [|discriminate]|];
      intros [= <-]; exists s; split; auto.
Qed.

Section BackupFacts.
Context {E : RegExpEngine}.
Variable clock : nat -> string.

(** Everything a successful [createBackup] did. *)
Lemma createBackup_success (filePath backupPath : string) (st st' : Fixer.t) :
  Fixer.createBackup clock filePath st = (Return backupPath, st') ->
  backupPath = backupPathFor (Fixer.options st) (clock (Fixer.tick st)) filePath
  /\ Fixer.options st' = Fixer.options st
  /\ Fixer.fixedFiles st' = Fixer.fixedFiles st
  /\ Fixer.tick st' = S (Fixer.tick st)
  /\ Fixer.backupRegistry st'
     = JSMap.set filePath backupPath (Fixer.backupRegistry st)
  /\ filePath <> backupPath
  /\ exists content mode dirMode,
       Fixer.fs st !! filePath = Some (File content mode)
       /\ FS.readable (File content mode) = true
       /\ Fixer.fs st' !! filePath = Some (File content mode)
       /\ Fixer.fs st' !! Fixer.backupDir (Fixer.options st)
          = Some (Directory dirMode)
       /\ FS.writable (Directory dirMode) = true
       /\ (Fixer.fs st !! backupPath = None ->
           Fixer.fs st' !! backupPath = Some (File content mode))
       /\ (forall n, Fixer.fs st !! backupPath = Some n ->
                     FS.isFile n = true /\ Fixer.fs st' !! backupPath = Some n)
       /\ (forall q, q <> backupPath ->
                     q <> Fixer.backupDir (Fixer.options st) ->
                     Fixer.fs st' !! q = Fixer.fs st !! q).
Proof.
  unfold Fixer.createBackup, Fixer.catch, Fixer.bind, Fixer.query,
    Fixer.getOptions.
  unfold FS.accessR, FS.stat.
  destruct (Fixer.fs st !! filePath) as [[content mode|mode]|] eqn:Hfile;
    cbn; try discriminate.
  2:{ destruct (FS.readable (Directory mode)); discriminate. }
  destruct (FS.readable (File content mode)) eqn:Hread; cbn; [|discriminate].
  unfold Fixer.update at 1.
  destruct (FS.ensureDir (Fixer.backupDir (Fixer.options st)) (Fixer.fs st))
    as [files1|] eqn:Hens; cbn; [|discriminate].
  destruct (ensureDir_success _ _ _ Hens) as ([dirMode Hdir1] & Hother1 & Hsame1).
  assert (Hfile1 : files1 !! filePath = Some (File content mode)).
  { destruct (Fixer.fs st !! Fixer.backupDir (Fixer.options st)) as [n|] eqn:Hd.
    - rewrite (Hsame1 n eq_refl). exact Hfile.
    - rewrite Hother1; [exact Hfile|]. intros ->. congruence. }
  unfold Fixer.checkDiskSpace, Fixer.catch, Fixer.bind, Fixer.query,
    FS.stat, FS.accessW.
  cbn. rewrite Hfile1, Hdir1.
  destruct (FS.writable (Directory dirMode)) eqn:Hw; cbn; [|discriminate].
  unfold Fixer.update. cbn.
  fold (backupPathFor (Fixer.options st) (clock (Fixer.tick st)) filePath).
  set (bp := backupPathFor (Fixer.options st) (clock (Fixer.tick st)) filePath).
  destruct (FS.copy filePath bp false files1) as [files2|] eqn:Hcopy; cbn;
    [|discriminate].
  intros [= <- <-]. cbn.
  destruct (copy_keep_success _ _ _ _ Hcopy) as (s & Hs & Hcases).
  rewrite Hfile1 in Hs. injection Hs as <-.
  assert (Hne : filePath <> bp).
  { destruct Hcases as [[Hnone _]|(d & _ & Hne & _)]; [|exact Hne].
    intros Heq. rewrite <- Heq in Hnone. congruence. }
  repeat (split; [reflexivity|]). split; [exact Hne|].
  exists content, mode, dirMode. split; [reflexivity|]. split; [exact Hread|].
  destruct Hcases as [[Hnone ->]|(d & Hd & _ & Hkind & ->)].
  - assert (Hbd : bp <> Fixer.backupDir (Fixer.options st))
      by (intros Heq; rewrite Heq in Hnone; congruence).
    split; [rewrite lookup_insert_ne by auto; exact Hfile1|].
    split; [rewrite lookup_insert_ne by auto; exact Hdir1|].
    split; [exact Hw|].
    split; [intros _; apply lookup_insert_eq|].
    split.
    + intros n Hn. exfalso. rewrite Hother1 in Hnone by exact Hbd. congruence.
    + intros q Hq1 Hq2. rewrite lookup_insert_ne by auto. now apply Hother1.
  - split; [exact Hfile1|]. split; [exact Hdir1|]. split; [exact Hw|].
    assert (Hbd : bp <> Fixer.backupDir (Fixer.options st)).
    { intros Heq. rewrite Heq, Hdir1 in Hd. injection Hd as <-. discriminate. }
    rewrite Hother1 in Hd by exact Hbd.
    split; [intros Hnone; congruence|].
    split.
    + intros n Hn. rewrite Hd in Hn. injection Hn as <-.
      split; [now rewrite <- Hkind|]. rewrite Hother1 by exact Hbd. exact Hd.
    + intros q Hq1 Hq2. now apply Hother1.
Qed.

(** A call that finds a regular file already at the backup location copies
    nothing. *)
Lemma createBackup_existing (filePath : string) (st : Fixer.t)
    (content : string) (mode dirMode : N) (d : node) :
  let bp := backupPathFor (Fixer.options st) (clock (Fixer.tick st)) filePath in
  Fixer.fs st !! filePath = Some (File content mode) ->
  FS.readable (File content mode) = true ->
  Fixer.fs st !! Fixer.backupDir (Fixer.options st) = Some (Directory dirMode) ->
  FS.writable (Directory dirMode) = true ->
  Fixer.fs st !! bp = Some d ->
  FS.isFile d = true ->
  filePath <> bp ->
  Fixer.createBackup clock filePath st = (Return bp, afterBackup filePath bp st).
Proof.
  intros bp Hfile Hread Hdir Hw Hbp Hkind Hne.
  unfold Fixer.createBackup, Fixer.catch, Fixer.bind, Fixer.query,
    Fixer.getOptions.
  unfold FS.accessR, FS.stat. rewrite Hfile, Hread. cbn.
  unfold Fixer.update at 1. unfold FS.ensureDir. rewrite Hdir. cbn.
  unfold Fixer.checkDiskSpace, Fixer.catch, Fixer.bind, Fixer.query,
    FS.stat, FS.accessW.
  cbn. rewrite Hfile, Hdir, Hw. cbn.
  unfold Fixer.update. cbn.
  fold (backupPathFor (Fixer.options st) (clock (Fixer.tick st)) filePath).
  fold bp. unfold FS.copy. rewrite Hfile, Hbp.
  destruct (String.eqb_spec filePath bp) as [Heq|_]; [contradiction|].
  rewrite Hkind. cbn. reflexivity.
Qed.

End BackupFacts.

(** C4 (as the code has it): a successful [createBackup] puts the backup at
    a location made of the backup directory, the file's base name and, with
    timestamped backups, the time of the call; it copies the file there
    unless something is there already, which it leaves as it is; and it
    records the location for the path, in place of the one recorded before.
    A second call for the same path is without effect on the file system,
    and returns the same location, when the location is the same: when
    backups are not timestamped, or when the clock has not moved. *)
Theorem C4_backup_location_and_repeat :
  forall (clock : nat -> string) (filePath backupPath : string)
         (st st1 : Fixer.t),
    Fixer.createBackup clock filePath st = (Return backupPath, st1) ->
    backupPath = backupPathFor (Fixer.options st) (clock (Fixer.tick st)) filePath
    /\ JSMap.get filePath (Fixer.backupRegistry st1) = Some backupPath
    /\ (Fixer.fs st !! backupPath = None ->
        Fixer.fs st1 !! backupPath = Fixer.fs st !! filePath)
    /\ (forall n, Fixer.fs st !! backupPath = Some n ->
                  Fixer.fs st1 !! backupPath = Some n)
    /\ (Fixer.createTimestampedBackups (Fixer.options st) = false
        \/ clock (S (Fixer.tick st)) = clock (Fixer.tick st) ->
        Fixer.createBackup clock filePath st1
        = (Return backupPath,
           Fixer.mk (Fixer.options st1) (Fixer.backupRegistry st1)
                    (Fixer.fixedFiles st1) (Fixer.fs st1) (S (Fixer.tick st1)))).
Proof.
  intros clock filePath backupPath st st1 Hrun.
  destruct (createBackup_success clock _ _ _ _ Hrun)
    as (Hbp & Hopt & Hfixed & Htick & Hreg & Hne & content & mode & dirMode
        & Hfile & Hread & Hfile1 & Hdir1 & Hw & Hnew & Hold & Hother).
  split; [exact Hbp|].
  split; [rewrite Hreg; apply JSMap_get_set_eq|].
  split; [intros Hnone; rewrite Hfile; now apply Hnew|].
  split; [intros n Hn; now apply Hold|].
  intros Hsame.
  assert (Hbp1 : backupPathFor (Fixer.options st1) (clock (Fixer.tick st1)) filePath
                 = backupPath).
  { rewrite Hbp, Hopt, Htick. unfold backupPathFor.
    destruct Hsame as [-> | ->]; reflexivity. }
  assert (Hthere : exists d, Fixer.fs st1 !! backupPath = Some d
                             /\ FS.isFile d = true).
  { destruct (Fixer.fs st !! backupPath) as [n|] eqn:Hn.
    - exists n. destruct (Hold n eq_refl). auto.
    - exists (File content mode). split; [now apply Hnew|reflexivity]. }
  destruct Hthere as (d & Hd & Hkind).
  rewrite <- Hopt in Hdir1. rewrite <- Hbp1 in Hd, Hne.
  rewrite (createBackup_existing clock filePath st1 content mode dirMode d
             Hfile1 Hread Hdir1 Hw Hd Hkind Hne).
  rewrite Hbp1. unfold afterBackup. rewrite JSMap_set_same; [reflexivity|].
  rewrite Hreg. apply JSMap_get_set_eq.
Qed.

Lemma C4_witness :
  let st := Fixer.new (Fixer.mkOptions "/p/.backups" false false)
                      (oneFile "/p/a.js" "var x = 1;") in
  let st1 := snd (Fixer.createBackup tickingClock
                    "/p/a.js" st) in
  Fixer.createBackup tickingClock "/p/a.js" st1
  = (Return "/p/.backups/a.js.backup",
     Fixer.mk (Fixer.options st1) (Fixer.backupRegistry st1)
              (Fixer.fixedFiles st1) (Fixer.fs st1) (S (Fixer.tick st1))).
Proof.
  cbn zeta.
  refine (proj2 (proj2 (proj2 (proj2
            (C4_backup_location_and_repeat tickingClock
               "/p/a.js" "/p/.backups/a.js.backup"
               (Fixer.new (Fixer.mkOptions "/p/.backups" false false)
                          (oneFile "/p/a.js" "var x = 1;"))
               _ _)))) (or_introl eq_refl)).
  vm_compute. reflexivity.
Defined.

(** With timestamped backups and a clock that has moved, the second call
    for the same path copies the file again, to a second location, and the
    registry then holds the second location. *)
Lemma C4_counterexample :
  let st := Fixer.new (Fixer.mkOptions "/p/.backups" true false)
                      (oneFile "/p/a.js" "var x = 1;") in
  let first := Fixer.createBackup tickingClock
                 "/p/a.js" st in
  let second := Fixer.createBackup tickingClock
                  "/p/a.js" (snd first) in
  fst first = Return "/p/.backups/a.js.2025-08-14T15-55-15-000Z.backup"
  /\ fst second = Return "/p/.backups/a.js.2025-08-14T15-55-15-100Z.backup"
  /\ Fixer.fs (snd first)
       !! "/p/.backups/a.js.2025-08-14T15-55-15-100Z.backup" = None
  /\ Fixer.fs (snd second)
       !! "/p/.backups/a.js.2025-08-14T15-55-15-000Z.backup"
     = Some (File "var x = 1;" 420%N)
  /\ Fixer.fs (snd second)
       !! "/p/.backups/a.js.2025-08-14T15-55-15-100Z.backup"
     = Some (File "var x = 1;" 420%N)
  /\ JSMap.get "/p/a.js" (Fixer.backupRegistry (snd second))
     = Some "/p/.backups/a.js.2025-08-14T15-55-15-100Z.backup".
Proof. vm_compute. repeat split. Qed.

(** ** Fixer: errors while fixing *)

Lemma keepsRegistry_refl (st : Fixer.t) : keepsRegistry st st.
Proof. split; auto. Qed.

Lemma keepsRegistry_trans (a b c : Fixer.t) :
  keepsRegistry a b -> keepsRegistry b c -> keepsRegistry a c.
Proof. intros [H1 H2] [H3 H4]. split; [congruence|auto]. Qed.

Lemma framed_ret {A} (a : A) : framed keepsRegistry (Fixer.ret a).
Proof. intros st out st' [= <- <-]. apply keepsRegistry_refl. Qed.

Lemma framed_throw {A} (e : string) : framed keepsRegistry (@Fixer.throw A e).
Proof. intros st out st' [= <- <-]. apply keepsRegistry_refl. Qed.

Lemma framed_bind {A B} (m : Fixer.M A) (k : A -> Fixer.M B) :
  framed keepsRegistry m -> (forall a, framed keepsRegistry (k a)) ->
  framed keepsRegistry (Fixer.bind m k).
Proof.
  intros Hm Hk st out st'. unfold Fixer.bind.
  destruct (m st) as [[a|e] st1] eqn:Hrun.
  - intros Hrest. eapply keepsRegistry_trans; [eapply Hm; eauto|eapply Hk; eauto].
  - intros [= <- <-]. eapply Hm; eauto.
Qed.

Lemma framed_catch {A} (m : Fixer.M A) (handler : string -> Fixer.M A) :
  framed keepsRegistry m -> (forall e, framed keepsRegistry (handler e)) ->
  framed keepsRegistry (Fixer.catch m handler).
Proof.
  intros Hm Hh st out st'. unfold Fixer.catch.
  destruct (m st) as [[a|e] st1] eqn:Hrun.
  - intros [= <- <-]. eapply Hm; eauto.
  - intros Hrest. eapply keepsRegistry_trans; [eapply Hm; eauto|eapply Hh; eauto].
Qed.

Lemma framed_query {A} (f : gmap string node -> result A) :
  framed keepsRegistry (Fixer.query f).
Proof. intros st out st' [= <- <-]. apply keepsRegistry_refl. Qed.

Lemma framed_getOptions : framed keepsRegistry Fixer.getOptions.
Proof. intros st out st' [= <- <-]. apply keepsRegistry_refl. Qed.

Lemma framed_update (f : gmap string node -> result (gmap string node)) :
  framed keepsRegistry (Fixer.update f).
Proof.
  intros st out st'. unfold Fixer.update.
  destruct (f (Fixer.fs st)); intros [= <- <-]; split; auto.
Qed.

Lemma framed_newDate (clock : nat -> string) :
  framed keepsRegistry (Fixer.newDate clock).
Proof. intros st out st' [= <- <-]. split; auto. Qed.

Lemma framed_register (filePath backupPath : string) :
  framed keepsRegistry (Fixer.register filePath backupPath).
Proof.
  intros st out st' [= <- <-]. split; [reflexivity|]. cbn.
  apply JSMap_keys_set.
Qed.

Ltac framed_steps :=
  repeat first
    [ apply framed_ret | apply framed_throw | apply framed_query
    | apply framed_getOptions | apply framed_update | apply framed_newDate
    | apply framed_register
    | apply framed_catch; [|intros ?]
    | apply framed_bind; [|intros ?]
    | match goal with
      | |- framed _ (if ?b then _ else _) => destruct b
      end
    | progress cbn zeta ].

Lemma framed_createBackup (clock : nat -> string) (filePath : string) :
  framed keepsRegistry (Fixer.createBackup clock filePath).
Proof. unfold Fixer.createBackup, Fixer.checkDiskSpace. framed_steps. Qed.

Lemma framed_fixFile {E : RegExpEngine} (filePath : string) (findings : list Finding) :
  framed keepsRegistry (Fixer.fixFile filePath findings).
Proof. unfold Fixer.fixFile. framed_steps. Qed.

Section FixFacts.
Context {E : RegExpEngine}.
Variable clock : nat -> string.

Lemma createBackup_frame_in (filePath : string) (st st' : Fixer.t) (b : string) :
  Fixer.createBackup clock filePath st = (Return b, st') ->
  In filePath (JSMap.keys (Fixer.backupRegistry st')).
Proof.
  intros Hrun.
  destruct (createBackup_success clock _ _ _ _ Hrun) as (_ & _ & _ & _ & Hreg & _).
  rewrite Hreg. exact (proj1 (JSMap_keys_set _ _ _)).
Qed.

Lemma fixOne_facts (o : Fixer.FixOptions) (filePath : string)
    (fileFindings : list Finding) (results results' : Fixer.Results)
    (st st' : Fixer.t) (out : result unit) :
  Fixer.fixOne clock o filePath fileFindings results st = (out, results', st') ->
  keepsRegistry st st'
  /\ Fixer.filesProcessed results' = S (Fixer.filesProcessed results)
  /\ Fixer.errors results' = Fixer.errors results
  /\ length (Fixer.backupsCreated results) <= length (Fixer.backupsCreated results')
  /\ (out = Return tt ->
      Fixer.backupBeforeFix o = true ->
      Fixer.dryRun (Fixer.options st) = false ->
      In filePath (JSMap.keys (Fixer.backupRegistry st'))
      /\ length (Fixer.backupsCreated results')
         = S (length (Fixer.backupsCreated results))).
Proof.
  unfold Fixer.fixOne.
  destruct (Fixer.backupBeforeFix o && negb (Fixer.dryRun (Fixer.options st)))
    eqn:Hwanted.
  - destruct (Fixer.createBackup clock filePath st) as [[b|e] st1] eqn:Hb.
    + pose proof (framed_createBackup clock filePath _ _ _ Hb) as Hk1.
      pose proof (createBackup_frame_in filePath st st1 b Hb) as Hin.
      destruct (Fixer.fixFile filePath fileFindings st1) as [[fr|e] st2] eqn:Hf;
        pose proof (framed_fixFile filePath fileFindings _ _ _ Hf) as Hk2.
      * destruct (0 <? Fixer.fr_patternsReplaced fr); intros [= <- <- <-]; cbn;
          (split; [eapply keepsRegistry_trans; [exact Hk1|];
                   split; [apply Hk2|apply Hk2]|]);
          (split; [reflexivity|]); (split; [reflexivity|]);
          rewrite length_app; cbn; (split; [lia|]);
          intros _ _ _; (split; [apply Hk2; exact Hin|lia]).
      * intros [= <- <- <-]; cbn.
        split; [eapply keepsRegistry_trans; eauto|].
        split; [reflexivity|]. split; [reflexivity|].
        rewrite length_app; cbn. split; [lia|discriminate].
    + pose proof (framed_createBackup clock filePath _ _ _ Hb) as Hk1.
      intros [= <- <- <-]; cbn. split; [exact Hk1|].
      split; [reflexivity|]. split; [reflexivity|]. split; [lia|discriminate].
  - destruct (Fixer.fixFile filePath fileFindings st) as [[fr|e] st2] eqn:Hf;
      pose proof (framed_fixFile filePath fileFindings _ _ _ Hf) as Hk2.
    + destruct (0 <? Fixer.fr_patternsReplaced fr); intros [= <- <- <-]; cbn;
        (split; [split; [apply Hk2|apply Hk2]|]);
        (split; [reflexivity|]); (split; [reflexivity|]); (split; [lia|]);
        intros _ Hbk Hdry; rewrite Hbk, Hdry in Hwanted; discriminate.
    + intros [= <- <- <-]; cbn. split; [exact Hk2|].
      split; [reflexivity|]. split; [reflexivity|]. split; [lia|discriminate].
Qed.



(** With [continueOnError], the loop goes through every file. *)
Lemma fixEach_lenient (o : Fixer.FixOptions) (todo : list (string * list Finding)) :
  forall (results : Fixer.Results) (st : Fixer.t),
    Fixer.continueOnError o = true ->
    exists results' st',
      Fixer.fixEach clock o todo results st = (Return tt, results', st')
      /\ Fixer.filesProcessed results'
         = Fixer.filesProcessed results + length todo
      /\ forall e, In e (Fixer.errors results) -> In e (Fixer.errors results').
Proof.
  induction todo as [|[p fp] todo IH]; intros results st Hlenient.
  - exists results, st. split; [reflexivity|]. split; [cbn; lia|auto].
  - cbn [Fixer.fixEach].
    destruct (Fixer.fixOne clock o p fp results st) as [[[[]|e] r1] s1] eqn:Hone;
      destruct (fixOne_facts _ _ _ _ _ _ _ _ Hone) as (_ & Hproc & Herr & _).
    + destruct (IH r1 s1 Hlenient) as (r' & s' & Hrun & Hcount & Hkeep).
      exists r', s'. split; [exact Hrun|]. split; [rewrite Hcount, Hproc; cbn; lia|].
      intros e He. apply Hkeep. rewrite Herr. exact He.
    + rewrite Hlenient. cbn [negb].
      match goal with
      | |- context [Fixer.fixEach clock o todo ?r ?s] =>
          destruct (IH r s Hlenient) as (r' & s' & Hrun & Hcount & Hkeep)
      end.
      exists r', s'. split; [exact Hrun|].
      split; [rewrite Hcount; cbn; rewrite Hproc; lia|].
      intros e0 He. apply Hkeep. cbn. apply in_or_app. left.
      rewrite Herr. exact He.
Qed.

End FixFacts.





(** * Further properties: the error handler *)

Lemma handle_counts (call : HandlerCall) (h : ErrorHandler.t) (ty : ErrorType) :
  countOf ty (ErrorHandler.errorCounts (handle call h))
  = countOf ty (ErrorHandler.errorCounts h) + (if ofType ty call then 1 else 0).
Proof.
  destruct call, ty;
    unfold handle, ofType, ErrorHandler.handlePermissionError,
      ErrorHandler.handleFileSizeError, ErrorHandler.handleEncodingError,
      ErrorHandler.handleRegexTimeoutError, ErrorHandler.handleMemoryPressure,
      ErrorHandler.handleInvalidRegexError, ErrorHandler.handleFilesystemError,
      ErrorHandler.handleUnknownError, ErrorHandler.print;
    cbn -[Nat.leb Nat.eqb];
    repeat match goal with
           | |- context [if ?b then _ else _] => destruct b
           end;
    cbn; lia.
Qed.

Lemma handleAll_counts (calls : list HandlerCall) (ty : ErrorType) :
  forall (h : ErrorHandler.t),
    countOf ty (ErrorHandler.errorCounts (handleAll calls h))
    = countOf ty (ErrorHandler.errorCounts h) + length (List.filter (ofType ty) calls).
Proof.
  induction calls as [|call calls IH]; intros h.
  - cbn. lia.
  - change (handleAll (call :: calls) h) with (handleAll calls (handle call h)).
    rewrite IH, handle_counts. cbn [List.filter].
    destruct (ofType ty call); cbn [length]; lia.
Qed.

Lemma calls_by_type (calls : list HandlerCall) :
  length (List.filter (ofType TPermission) calls)
  + length (List.filter (ofType TFileSize) calls)
  + length (List.filter (ofType TEncoding) calls)
  + length (List.filter (ofType TTimeout) calls)
  + length (List.filter (ofType TMemory) calls)
  + length (List.filter (ofType TRegex) calls)
  + length (List.filter (ofType TFilesystem) calls)
  + length (List.filter (ofType TUnknown) calls)
  = length calls.
Proof.
  induction calls as [|call calls IH]; [reflexivity|].
  cbn [List.filter length]. destruct call; cbn; lia.
Qed.

Lemma positive_filter {A : Type} (p : A -> bool) (l : list A) :
  (0 <? length (List.filter p l)) = existsb p l.
Proof.
  induction l as [|a l IH]; [reflexivity|].
  cbn [List.filter existsb]. destruct (p a); [reflexivity|exact IH].
Qed.

(** X1.  [getErrorSummary] after a [reset] and any run of handler calls:
    the total is the number of calls, every counter is the number of calls
    of its type, and critical errors are reported exactly when an invalid
    pattern or an unknown error was handled. *)
Theorem summary_counts_calls_since_reset (calls : list HandlerCall) (h : ErrorHandler.t) :
  let s := ErrorHandler.getErrorSummary (handleAll calls (ErrorHandler.reset h)) in
  ErrorHandler.total s = length calls
  /\ (forall ty, countOf ty (ErrorHandler.byType s)
                 = length (List.filter (ofType ty) calls))
  /\ ErrorHandler.hasErrors s = (0 <? length calls)
  /\ ErrorHandler.hasCriticalErrors s
     = existsb (fun call => ofType TUnknown call || ofType TRegex call) calls.
Proof.
  cbn zeta.
  assert (Hc : forall ty,
             countOf ty (ErrorHandler.errorCounts
                           (handleAll calls (ErrorHandler.reset h)))
             = length (List.filter (ofType ty) calls)).
  { intros ty. rewrite handleAll_counts. destruct ty; reflexivity. }
  assert (Ht : ErrorHandler.total
                 (ErrorHandler.getErrorSummary
                    (handleAll calls (ErrorHandler.reset h))) = length calls).
  { unfold ErrorHandler.getErrorSummary. cbn [ErrorHandler.total].
    rewrite <- (calls_by_type calls).
    rewrite <- (Hc TPermission), <- (Hc TFileSize), <- (Hc TEncoding),
      <- (Hc TTimeout), <- (Hc TMemory), <- (Hc TRegex), <- (Hc TFilesystem),
      <- (Hc TUnknown).
    reflexivity. }
  split; [exact Ht|]. split; [exact Hc|]. split.
  - unfold ErrorHandler.getErrorSummary in *. cbn [ErrorHandler.total ErrorHandler.hasErrors] in *.
    rewrite Ht. reflexivity.
  - unfold ErrorHandler.getErrorSummary. cbn [ErrorHandler.hasCriticalErrors].
    change (c_unknown ?c) with (countOf TUnknown c).
    change (c_regex ?c) with (countOf TRegex c).
    rewrite !Hc, !positive_filter.
    clear. induction calls as [|call calls IH]; [reflexivity|].
    cbn [existsb]. rewrite <- IH.
    destruct (ofType TUnknown call), (ofType TRegex call),
      (existsb (ofType TUnknown) calls), (existsb (ofType TRegex) calls); reflexivity.
Qed.

Lemma handleEncodingError_step (filePath : string) (h : ErrorHandler.t) :
  let h' := snd (ErrorHandler.handleEncodingError filePath h) in
  let k := S (c_encoding (ErrorHandler.errorCounts h)) in
  c_encoding (ErrorHandler.errorCounts h') = k
  /\ ErrorHandler.console h'
     = ErrorHandler.console h ++ (if k <=? 5 then [encodingReport filePath] else []).
Proof.
  unfold ErrorHandler.handleEncodingError, ErrorHandler.print, encodingReport.
  cbn -[Nat.leb].
  destruct (S (c_encoding (ErrorHandler.errorCounts h)) <=? 5); cbn.
  - split; reflexivity.
  - split; [reflexivity|]. now rewrite app_nil_r.
Qed.

(** X2.  Encoding errors are printed for the first five files only: after
    any run of [handleEncodingError] calls the counter has grown by the
    number of calls, and the console by the reports of the calls that
    brought the counter to at most five. *)
Theorem encoding_errors_printed_five_times (paths : list string) :
  forall (h : ErrorHandler.t),
    let k := c_encoding (ErrorHandler.errorCounts h) in
    let h' := handleEncodingErrors paths h in
    c_encoding (ErrorHandler.errorCounts h') = k + length paths
    /\ ErrorHandler.console h'
       = ErrorHandler.console h ++ map encodingReport (take (5 - k) paths).
Proof.
  induction paths as [|p paths IH]; intros h; cbn zeta.
  - cbn. rewrite take_nil. cbn. rewrite app_nil_r. split; [lia|reflexivity].
  - change (handleEncodingErrors (p :: paths) h)
      with (handleEncodingErrors paths (snd (ErrorHandler.handleEncodingError p h))).
    destruct (handleEncodingError_step p h) as [Hk Hc]. cbn zeta in Hk, Hc.
    destruct (IH (snd (ErrorHandler.handleEncodingError p h))) as [IHk IHc].
    cbn zeta in IHk, IHc. rewrite IHk, IHc, Hk, Hc. cbn [length].
    split; [lia|]. rewrite <- app_assoc. f_equal.
    set (k := c_encoding (ErrorHandler.errorCounts h)).
    destruct (S k <=? 5) eqn:Hle.
    + apply Nat.leb_le in Hle.
      replace (5 - k) with (S (5 - S k)) by lia. reflexivity.
    + apply Nat.leb_gt in Hle.
      replace (5 - S k) with 0 by lia. replace (5 - k) with 0 by lia.
      reflexivity.
Qed.

(** X3.  [handleFilesystemError]: the error is recoverable exactly for the
    codes ENOENT, EACCES, ENOTDIR and EISDIR, each of which has a suggestion
    of its own; an error without a code is not recoverable and gets the
    general suggestion; a recoverable error is printed as a warning and any
    other as an error; every such error is retryable and counted once. *)
Theorem filesystem_error_recoverable_codes
    (operation path message : string) (code : option string) (h : ErrorHandler.t) :
  let r := fst (ErrorHandler.handleFilesystemError operation path message code h) in
  let h' := snd (ErrorHandler.handleFilesystemError operation path message code h) in
  ErrorHandler.retryable r = true
  /\ (e_recoverable (ErrorHandler.record r) = true
      <-> exists c, code = Some c /\ In c ErrorHandler.recoverableCodes)
  /\ (e_recoverable (ErrorHandler.record r) = true ->
      e_suggestion (ErrorHandler.record r) <> defaultSuggestion)
  /\ (code = None ->
      e_recoverable (ErrorHandler.record r) = false
      /\ e_suggestion (ErrorHandler.record r) = defaultSuggestion)
  /\ c_filesystem (ErrorHandler.errorCounts h')
     = S (c_filesystem (ErrorHandler.errorCounts h))
  /\ exists ev, ErrorHandler.console h' = ErrorHandler.console h ++ [ev]
                /\ isWarn ev = e_recoverable (ErrorHandler.record r).
Proof.
  cbn zeta. unfold ErrorHandler.handleFilesystemError, ErrorHandler.print.
  cbn [fst snd ErrorHandler.retryable ErrorHandler.record e_recoverable
       e_suggestion ErrorHandler.errorCounts ErrorHandler.console c_filesystem].
  split; [reflexivity|]. split; [|split; [|split; [|split]]].
  - unfold ErrorHandler.isFilesystemErrorRecoverable. destruct code as [c|].
    + rewrite existsb_exists. split.
      * intros [x [Hin Hx]]. apply String.eqb_eq in Hx. subst x. eauto.
      * intros [c' [Hc Hin]]. injection Hc as <-. exists c. split; [exact Hin|].
        apply String.eqb_refl.
    + split; [discriminate|]. intros [c [Hc _]]. discriminate.
  - unfold ErrorHandler.isFilesystemErrorRecoverable. destruct code as [c|]; [|discriminate].
    rewrite existsb_exists. intros [x [Hin Hx]]. apply String.eqb_eq in Hx. subst x.
    cbn in Hin.
    destruct Hin as [<-|[<-|[<-|[<-|[]]]]]; cbn; discriminate.
  - intros ->. split; reflexivity.
  - reflexivity.
  - eexists. split; [reflexivity|].
    destruct (ErrorHandler.isFilesystemErrorRecoverable code); reflexivity.
Qed.

Lemma round_above (x d q : N) :
  (0 < d)%N ->
  ((q <? JSNumber.round x d)%N = true <-> ((2 * q + 1) * d <= 2 * x)%N).
Proof.
  intros Hd. unfold JSNumber.round. rewrite N.ltb_lt. split.
  - intros H.
    assert (Hq : (q + 1 <= (2 * x + d) / (2 * d))%N) by lia.
    pose proof (N.Div0.mul_div_le (2 * x + d) (2 * d))%N as Hm.
    nia.
  - intros H.
    assert (Hq : (q + 1 <= (2 * x + d) / (2 * d))%N).
    { apply N.div_le_lower_bound; lia. }
    lia.
Qed.

(** X4.  [checkMemoryUsage] in bytes, for heap sizes that a number holds
    exactly: the heap is critical from 1000.5 MB
    on and under warning from 500.5 MB on; only a critical heap is counted
    as a memory error, and one line is printed in both cases, none below
    the warning threshold. *)
Theorem checkMemoryUsage_thresholds (heapUsed heapTotal : N) (h : ErrorHandler.t) :
  safeInteger heapUsed ->
  safeInteger heapTotal ->
  let m := fst (ErrorHandler.checkMemoryUsage heapUsed heapTotal h) in
  let h' := snd (ErrorHandler.checkMemoryUsage heapUsed heapTotal h) in
  (ErrorHandler.mp_critical m = true <-> (criticalHeap <= heapUsed)%N)
  /\ (ErrorHandler.mp_warning m = true <-> (warningHeap <= heapUsed)%N)
  /\ c_memory (ErrorHandler.errorCounts h')
     = c_memory (ErrorHandler.errorCounts h)
       + (if ErrorHandler.mp_critical m then 1 else 0)
  /\ length (ErrorHandler.console h')
     = length (ErrorHandler.console h)
       + (if ErrorHandler.mp_warning m then 1 else 0).
Proof.
  intros _ _. cbn zeta. unfold ErrorHandler.checkMemoryUsage.
  cbn [fst snd ErrorHandler.mp_critical ErrorHandler.mp_warning].
  pose proof (round_above heapUsed (1024 * 1024) 1000 eq_refl) as Hc.
  pose proof (round_above heapUsed (1024 * 1024) 500 eq_refl) as Hw.
  unfold criticalHeap, warningHeap.
  split; [rewrite Hc; lia|]. split; [rewrite Hw; lia|].
  destruct (1000 <? JSNumber.round heapUsed (1024 * 1024))%N eqn:Ec.
  - assert (Ew : (500 <? JSNumber.round heapUsed (1024 * 1024))%N = true).
    { apply Hw. apply proj1 in Hc. specialize (Hc eq_refl). lia. }
    rewrite Ew. unfold ErrorHandler.handleMemoryPressure, ErrorHandler.print.
    cbn [snd ErrorHandler.errorCounts ErrorHandler.console c_memory].
    rewrite length_app. cbn. lia.
  - destruct (500 <? JSNumber.round heapUsed (1024 * 1024))%N.
    + unfold ErrorHandler.print.
      cbn [ErrorHandler.errorCounts ErrorHandler.console]. rewrite length_app.
      cbn. lia.
    + lia.
Qed.

Lemma checkMemoryUsage_thresholds_witness :
  ErrorHandler.mp_critical
    (fst (ErrorHandler.checkMemoryUsage criticalHeap (2 * criticalHeap)
            ErrorHandler.new)) = true.
Proof.
  apply (proj1 (checkMemoryUsage_thresholds criticalHeap (2 * criticalHeap)
                  ErrorHandler.new eq_refl eq_refl)).
  apply N.le_refl.
Defined.

Lemma scale_spec (bytes : N) :
  ErrorHandler.scale 3 bytes 0
  = if (bytes <? 1024)%N then 0
    else if (bytes <? 1048576)%N then 1
    else if (bytes <? 1073741824)%N then 2
    else 3.
Proof.
  unfold ErrorHandler.scale.
  change (1024 ^ N.of_nat 1)%N with 1024%N.
  change (1024 ^ N.of_nat 2)%N with 1048576%N.
  change (1024 ^ N.of_nat 3)%N with 1073741824%N.
  destruct (N.leb_spec 1024 bytes), (N.ltb_spec bytes 1024); try lia;
    destruct (N.leb_spec 1048576 bytes), (N.ltb_spec bytes 1048576); try lia;
    destruct (N.leb_spec 1073741824 bytes), (N.ltb_spec bytes 1073741824);
    try lia; reflexivity.
Qed.

Lemma scale_bounds (bytes : N) :
  let k := ErrorHandler.scale 3 bytes 0 in
  k <= 3
  /\ (0 < k -> (1024 ^ N.of_nat k <= bytes)%N)
  /\ (k < 3 -> (bytes < 1024 ^ N.of_nat (S k))%N).
Proof.
  cbn zeta. rewrite scale_spec.
  destruct (N.ltb_spec bytes 1024);
    [|destruct (N.ltb_spec bytes 1048576);
      [|destruct (N.ltb_spec bytes 1073741824)]];
    (split; [lia|split; intros Hk;
       [first [lia | exact H | exact H0 | exact H1]
       |first [lia | exact H | exact H0 | exact H1]]]).
Qed.

(** X5.  For a size that a number holds exactly,
    [formatFileSize] prints the size in the largest unit among B, KB,
    MB and GB that it reaches, as the nearest number of tenths of that unit
    (the larger one on a tie), with one decimal; the fixer's function of
    the same name gives the same text. *)
Theorem formatFileSize_nearest_tenth (bytes : N) :
  safeInteger bytes ->
  exists (k : nat) (t : N),
    ErrorHandler.formatFileSize bytes
    = (JSNumber.decimal (t / 10) +:+ "." +:+ JSNumber.decimal (t mod 10))
        +:+ nth k ErrorHandler.units EmptyString
    /\ Fixer.formatFileSize bytes = ErrorHandler.formatFileSize bytes
    /\ k <= 3
    /\ (0 < k -> (1024 ^ N.of_nat k <= bytes)%N)
    /\ (k < 3 -> (bytes < 1024 ^ N.of_nat (S k))%N)
    /\ (2 * t * 1024 ^ N.of_nat k <= 20 * bytes + 1024 ^ N.of_nat k)%N
    /\ (20 * bytes + 1024 ^ N.of_nat k < 2 * (t + 1) * 1024 ^ N.of_nat k)%N.
Proof.
  intros _.
  exists (ErrorHandler.scale 3 bytes 0).
  set (k := ErrorHandler.scale 3 bytes 0).
  set (d := (1024 ^ N.of_nat k)%N).
  exists ((20 * bytes + d) / (2 * d))%N.
  assert (Hd : (0 < d)%N).
  { unfold d. apply N.neq_0_lt_0. apply N.pow_nonzero. discriminate. }
  destruct (scale_bounds bytes) as [H3 [Hlow Hup]].
  split; [reflexivity|]. split; [reflexivity|].
  split; [exact H3|]. split; [exact Hlow|]. split; [exact Hup|].
  pose proof (N.Div0.mul_div_le (20 * bytes + d) (2 * d))%N as Hle.
  pose proof (N.mul_succ_div_gt (20 * bytes + d) (2 * d))%N as Hgt.
  split; [lia|]. rewrite <- N.add_1_r in Hgt.
  assert (2 * d <> 0)%N by lia. specialize (Hgt H). lia.
Qed.

(** X6.  A size that a number holds exactly and that is a whole number [n]
    of units is printed as [n.0] followed by the unit: up to 1023 of B, KB
    or MB, and any number of GB. *)
Theorem formatFileSize_whole_units (k : nat) (n : N) :
  safeInteger (n * 1024 ^ N.of_nat k) ->
  k <= 3 ->
  (0 < k -> (1 <= n)%N) ->
  (k < 3 -> (n < 1024)%N) ->
  ErrorHandler.formatFileSize (n * 1024 ^ N.of_nat k)
  = (JSNumber.decimal n +:+ ".0") +:+ nth k ErrorHandler.units EmptyString.
Proof.
  intros _ Hk Hlow Hup. unfold ErrorHandler.formatFileSize.
  assert (Hs : ErrorHandler.scale 3 (n * 1024 ^ N.of_nat k) 0 = k).
  { rewrite scale_spec.
    destruct k as [|[|[|[|k]]]]; try lia.
    - change (1024 ^ N.of_nat 0)%N with 1%N.
      destruct (N.ltb_spec (n * 1) 1024); [reflexivity|lia].
    - change (1024 ^ N.of_nat 1)%N with 1024%N.
      destruct (N.ltb_spec (n * 1024) 1024); [lia|].
      destruct (N.ltb_spec (n * 1024) 1048576); [reflexivity|lia].
    - change (1024 ^ N.of_nat 2)%N with 1048576%N.
      destruct (N.ltb_spec (n * 1048576) 1024); [lia|].
      destruct (N.ltb_spec (n * 1048576) 1048576); [lia|].
      destruct (N.ltb_spec (n * 1048576) 1073741824); [reflexivity|lia].
    - change (1024 ^ N.of_nat 3)%N with 1073741824%N.
      destruct (N.ltb_spec (n * 1073741824) 1024); [lia|].
      destruct (N.ltb_spec (n * 1073741824) 1048576); [lia|].
      destruct (N.ltb_spec (n * 1073741824) 1073741824); [lia|reflexivity]. }
  rewrite Hs. f_equal. unfold JSNumber.toFixed1.
  set (d := (1024 ^ N.of_nat k)%N).
  assert (Hd : (0 < d)%N).
  { unfold d. apply N.neq_0_lt_0. apply N.pow_nonzero. discriminate. }
  assert (Ht : ((20 * (n * d) + d) / (2 * d) = 10 * n)%N).
  { symmetry. apply (N.div_unique _ _ _ d); lia. }
  rewrite Ht.
  replace (10 * n / 10)%N with n by (apply N.div_unique_exact; lia).
  replace ((10 * n) mod 10)%N with 0%N
    by (symmetry; rewrite N.mul_comm; apply N.Div0.mod_mul).
  reflexivity.
Qed.

Lemma formatFileSize_nearest_tenth_witness :
  exists (k : nat) (t : N),
    ErrorHandler.formatFileSize 1536
    = (JSNumber.decimal (t / 10) +:+ "." +:+ JSNumber.decimal (t mod 10))
        +:+ nth k ErrorHandler.units EmptyString
    /\ k <= 3.
Proof.
  destruct (formatFileSize_nearest_tenth 1536 eq_refl)
    as (k & t & Htext & _ & Hk & _).
  exists k, t. split; [exact Htext|exact Hk].
Defined.

Lemma formatFileSize_whole_units_witness :
  ErrorHandler.formatFileSize (5 * 1024 ^ N.of_nat 2) = "5.0MB".
Proof.
  apply (formatFileSize_whole_units 2 5);
    [reflexivity | lia | intros _; lia | intros _; lia].
Defined.

(** X7.  The unit changes only when the exact size reaches 1024, while the
    tenths are rounded: a size of KB or MB that is at most a twentieth of
    its unit below the next unit is printed as [1024.0] of the smaller
    unit. *)
Theorem formatFileSize_rounds_up_to_1024 (k : nat) (bytes : N) :
  safeInteger bytes ->
  0 < k < 3 ->
  (bytes < 1024 ^ N.of_nat (S k))%N ->
  (20 * 1024 ^ N.of_nat (S k) <= 20 * bytes + 1024 ^ N.of_nat k)%N ->
  ErrorHandler.formatFileSize bytes
  = "1024.0" +:+ nth k ErrorHandler.units EmptyString.
Proof.
  intros _ Hk Hup Hnear. unfold ErrorHandler.formatFileSize.
  assert (Hs : ErrorHandler.scale 3 bytes 0 = k).
  { rewrite scale_spec.
    destruct k as [|[|[|k]]]; try lia.
    - change (1024 ^ N.of_nat 2)%N with 1048576%N in *.
      change (1024 ^ N.of_nat 1)%N with 1024%N in *.
      destruct (N.ltb_spec bytes 1024); [lia|].
      destruct (N.ltb_spec bytes 1048576); [reflexivity|lia].
    - change (1024 ^ N.of_nat 3)%N with 1073741824%N in *.
      change (1024 ^ N.of_nat 2)%N with 1048576%N in *.
      destruct (N.ltb_spec bytes 1024); [lia|].
      destruct (N.ltb_spec bytes 1048576); [lia|].
      destruct (N.ltb_spec bytes 1073741824); [reflexivity|lia]. }
  rewrite Hs. unfold JSNumber.toFixed1.
  set (d := (1024 ^ N.of_nat k)%N) in *.
  assert (Hd : (0 < d)%N).
  { unfold d. apply N.neq_0_lt_0. apply N.pow_nonzero. discriminate. }
  assert (Hd' : (1024 ^ N.of_nat (S k) = 1024 * d)%N).
  { unfold d. rewrite Nat2N.inj_succ, N.pow_succ_r'. reflexivity. }
  rewrite Hd' in *.
  assert (Ht : ((20 * bytes + d) / (2 * d) = 10240)%N).
  { symmetry. apply (N.div_unique _ _ _ (20 * bytes + d - 20480 * d)); lia. }
  rewrite Ht. reflexivity.
Qed.

Lemma formatFileSize_rounds_up_to_1024_witness :
  ErrorHandler.formatFileSize 1048575 = "1024.0KB".
Proof.
  apply (formatFileSize_rounds_up_to_1024 1 1048575);
    [reflexivity | lia | reflexivity | ].
  vm_compute. discriminate.
Defined.

(** * Further properties: validation of a file on disk *)

Lemma handle_total (call : HandlerCall) (h : ErrorHandler.t) :
  ErrorHandler.total (ErrorHandler.getErrorSummary (handle call h))
  = S (ErrorHandler.total (ErrorHandler.getErrorSummary h)).
Proof.
  unfold ErrorHandler.getErrorSummary. cbn [ErrorHandler.total].
  change (c_permission ?c) with (countOf TPermission c).
  change (c_fileSize ?c) with (countOf TFileSize c).
  change (c_encoding ?c) with (countOf TEncoding c).
  change (c_timeout ?c) with (countOf TTimeout c).
  change (c_memory ?c) with (countOf TMemory c).
  change (c_regex ?c) with (countOf TRegex c).
  change (c_filesystem ?c) with (countOf TFilesystem c).
  change (c_unknown ?c) with (countOf TUnknown c).
  rewrite !handle_counts. destruct call; cbn; lia.
Qed.

(** X8.  [validateFile] accepts a path exactly when it is a regular file
    that is readable and whose size in bytes is within the limit, if there
    is one; its [fileInfo] is that of the path, [null] when there is none.
    An accepted file puts nothing on the error handler, also when it is
    found to be binary, which only gives a warning; a rejected one is
    reported by exactly one error, counted once by the handler, and without
    warning. *)
Theorem validateFile_accepts_readable_files_within_limit
    (filePath : string) (maxFileSize : N) (fs : gmap string node)
    (h : ErrorHandler.t) :
  let v := fst (Validation.validateFile filePath maxFileSize fs h) in
  let h' := snd (Validation.validateFile filePath maxFileSize fs h) in
  Validation.fileInfo v = fs !! filePath
  /\ (Validation.valid v = true
   <-> exists content mode,
         fs !! filePath = Some (File content mode)
         /\ FS.readable (File content mode) = true
         /\ (maxFileSize = 0%N \/ (Validation.size content <= maxFileSize)%N))
  /\ (Validation.valid v = true ->
      Validation.errors v = [] /\ h' = h
      /\ (Validation.warnings v <> []
          <-> Validation.isBinaryFile filePath fs = true))
  /\ (Validation.valid v = false ->
      Validation.warnings v = []
      /\ (exists e, Validation.errors v = [e])
      /\ ErrorHandler.total (ErrorHandler.getErrorSummary h')
         = S (ErrorHandler.total (ErrorHandler.getErrorSummary h))).
Proof.
  cbn zeta. split.
  { unfold Validation.validateFile.
    destruct (fs !! filePath) as [[content mode|mode]|]; cbn zeta;
      repeat match goal with
             | |- context [match ?x with _ => _ end] => destruct x
             end; reflexivity. }
  unfold Validation.validateFile.
  destruct (fs !! filePath) as [[content mode|mode]|] eqn:Hfs.
  - cbn zeta.
    destruct (N.eqb_spec maxFileSize 0) as [Hz|Hz]; cbn [negb andb].
    + unfold FS.accessR. rewrite Hfs.
      destruct (FS.readable (File content mode)) eqn:Hr.
      * cbn [fst snd Validation.valid Validation.errors Validation.warnings].
        split; [|split].
        -- split; [|reflexivity]. intros _. exists content, mode. auto.
        -- intros _. split; [reflexivity|]. split; [reflexivity|].
           destruct (Validation.isBinaryFile filePath fs); split;
             congruence.
        -- discriminate.
      * cbn [fst snd Validation.valid Validation.errors Validation.warnings].
        split; [|split].
        -- split; [discriminate|]. intros [c [m [Hc [Hread _]]]].
           injection Hc as <- <-. congruence.
        -- discriminate.
        -- intros _. split; [reflexivity|]. split; [eauto|].
           exact (handle_total (PermissionError filePath) h).
    + destruct (N.ltb_spec maxFileSize (Validation.size content))
        as [Hbig|Hsmall].
      * cbn [fst snd Validation.valid Validation.errors Validation.warnings].
        split; [|split].
        -- split; [discriminate|]. intros [c [m [Hc [_ Hsz]]]].
           injection Hc as <- <-. lia.
        -- discriminate.
        -- intros _. split; [reflexivity|]. split; [eauto|].
           exact (handle_total
                    (FileSizeError filePath (Validation.size content)
                       maxFileSize) h).
      * unfold FS.accessR. rewrite Hfs.
        destruct (FS.readable (File content mode)) eqn:Hr.
        -- cbn [fst snd Validation.valid Validation.errors Validation.warnings].
           split; [|split].
           ++ split; [|reflexivity]. intros _. exists content, mode. auto.
           ++ intros _. split; [reflexivity|]. split; [reflexivity|].
              destruct (Validation.isBinaryFile filePath fs); split;
                congruence.
           ++ discriminate.
        -- cbn [fst snd Validation.valid Validation.errors Validation.warnings].
           split; [|split].
           ++ split; [discriminate|]. intros [c [m [Hc [Hread _]]]].
              injection Hc as <- <-. congruence.
           ++ discriminate.
           ++ intros _. split; [reflexivity|]. split; [eauto|].
              exact (handle_total (PermissionError filePath) h).
  - cbn [fst snd Validation.valid Validation.errors Validation.warnings].
    split; [|split].
    + split; [discriminate|]. intros [c [m [Hc _]]]. discriminate.
    + discriminate.
    + intros _. split; [reflexivity|]. split; [eauto|].
      exact (handle_total
               (FilesystemError "file check" filePath
                  "Path is not a regular file" None) h).
  - cbn [fst snd Validation.valid Validation.errors Validation.warnings].
    split; [|split].
    + split; [discriminate|]. intros [c [m [Hc _]]]. discriminate.
    + discriminate.
    + intros _. split; [reflexivity|]. split; [eauto|].
      exact (handle_total
               (FilesystemError "file check" filePath
                  "File does not exist" None) h).
Qed.

(** X9.  What [validateFile] reports for a rejected path: a missing path
    and a directory are filesystem errors that are not recoverable, since
    the errors it builds for them carry no code; a regular file whose
    size in bytes is above the limit is a size error, whether it is
    readable or not; a regular file within the limit is rejected only for
    a permission error.  Size and permission errors are recoverable and
    skip the file. *)
Theorem validateFile_classifies_rejections
    (filePath : string) (maxFileSize : N) (fs : gmap string node)
    (h : ErrorHandler.t) (e : ErrorHandler.Classified) :
  Validation.errors (fst (Validation.validateFile filePath maxFileSize fs h)) = [e] ->
  let r := ErrorHandler.record e in
  match fs !! filePath with
  | None | Some (Directory _) =>
      e_type r = TFilesystem /\ e_recoverable r = false
      /\ e_skipFile r = false /\ ErrorHandler.retryable e = true
  | Some (File content mode) =>
      e_recoverable r = true /\ e_skipFile r = true
      /\ ErrorHandler.retryable e = false
      /\ e_type r
         = if negb (maxFileSize =? 0)%N
              && (maxFileSize <? Validation.size content)%N
           then TFileSize else TPermission
  end.
Proof.
  unfold Validation.validateFile.
  destruct (fs !! filePath) as [[content mode|mode]|] eqn:Hfs.
  - cbn zeta.
    destruct (negb (maxFileSize =? 0)%N
              && (maxFileSize <? Validation.size content)%N).
    + cbn. intros [= <-]. cbn. auto.
    + unfold FS.accessR. rewrite Hfs.
      destruct (FS.readable (File content mode)); cbn; [discriminate|].
      intros [= <-]. cbn. auto.
  - cbn. intros [= <-]. cbn. auto.
  - cbn. intros [= <-]. cbn. auto.
Qed.

Lemma validateFile_classifies_rejections_witness :
  let e := ErrorHandler.mkClassified
             (mkErrorRecord TFileSize "File too large: e.js (6.0B)"
                "Increase --max-file-size limit (current: 5.0B)"
                true true false false) false false in
  Validation.errors
    (fst (Validation.validateFile "/p/e.js" 5 {["/p/e.js" := File accented 0%N]}
            ErrorHandler.new)) = [e]
  /\ e_type (ErrorHandler.record e) = TFileSize.
Proof.
  cbn zeta.
  assert (H : Validation.errors
                (fst (Validation.validateFile "/p/e.js" 5
                        {["/p/e.js" := File accented 0%N]} ErrorHandler.new))
              = [ErrorHandler.mkClassified
                   (mkErrorRecord TFileSize "File too large: e.js (6.0B)"
                      "Increase --max-file-size limit (current: 5.0B)"
                      true true false false) false false])
    by (vm_compute; reflexivity).
  split; [exact H|].
  pose proof (validateFile_classifies_rejections _ _ _ _ _ H) as Hclass.
  rewrite lookup_singleton_eq in Hclass. cbn zeta in Hclass.
  destruct Hclass as (_ & _ & _ & Htype). exact Htype.
Defined.

Lemma validateFile_accepts_readable_files_within_limit_witness :
  Validation.valid
    (fst (Validation.validateFile "/p/e.js" 5 (oneFile "/p/e.js" accented)
            ErrorHandler.new)) = false
  /\ Validation.valid
       (fst (Validation.validateFile "/p/e.js" 6 (oneFile "/p/e.js" accented)
               ErrorHandler.new)) = true.
Proof.
  split.
  - apply not_true_is_false. intros Hvalid.
    apply (proj1 (proj2 (validateFile_accepts_readable_files_within_limit
                           "/p/e.js" 5 (oneFile "/p/e.js" accented)
                           ErrorHandler.new))) in Hvalid.
    destruct Hvalid as (content & mode & Hfile & _ & [Hzero|Hsize]);
      [discriminate|].
    unfold oneFile in Hfile. rewrite lookup_singleton_eq in Hfile.
    injection Hfile as <- <-. vm_compute in Hsize. apply Hsize. reflexivity.
  - apply (proj1 (proj2 (validateFile_accepts_readable_files_within_limit
                           "/p/e.js" 6 (oneFile "/p/e.js" accented)
                           ErrorHandler.new))).
    exists accented, 420%N. split_and!.
    + apply lookup_singleton_eq.
    + reflexivity.
    + right. vm_compute. discriminate.
Defined.

Lemma isNul_byte (c : ascii) :
  Validation.isNul (byte_of_ascii c) = true <-> c = Ascii.zero.
Proof.
  unfold Validation.isNul. split.
  - intros H. apply Byte.byte_dec_bl in H.
    rewrite <- (ascii_of_byte_of_ascii c), H. reflexivity.
  - intros ->. reflexivity.
Qed.

Lemma utf8_nul (content : string) :
  forall (n : nat),
    existsb Validation.isNul (take n (Validation.utf8 content)) = true
    <-> exists i, String.get i content = Some Ascii.zero
                  /\ length (Validation.utf8 (String.substring 0 i content)) < n.
Proof.
  induction content as [|c rest IH]; intros n.
  - cbn. rewrite take_nil. cbn. split; [discriminate|].
    intros [i [Hget _]]. destruct i; discriminate.
  - cbn [Validation.utf8]. cbv zeta.
    destruct (Nat.ltb_spec (nat_of_ascii c) 128) as [Hlow|Hhigh].
    + destruct n as [|n]; cbn [take existsb].
      { split; [discriminate|]. intros [i [_ Hlen]]. lia. }
      rewrite orb_true_iff, isNul_byte, IH. split.
      * intros [->|[i [Hget Hlen]]].
        -- exists 0. split; [reflexivity|]. cbn. lia.
        -- exists (S i). split; [exact Hget|].
           cbn [String.substring Validation.utf8]. cbv zeta.
           destruct (Nat.ltb_spec (nat_of_ascii c) 128); [cbn; lia|lia].
      * intros [[|i] [Hget Hlen]].
        -- left. cbn in Hget. congruence.
        -- right. exists i. split; [exact Hget|].
           cbn [String.substring Validation.utf8] in Hlen. cbv zeta in Hlen.
           destruct (Nat.ltb_spec (nat_of_ascii c) 128); [cbn in Hlen; lia|lia].
    + assert (Hc : c <> Ascii.zero).
      { intros ->. change (nat_of_ascii Ascii.zero) with 0 in Hhigh. lia. }
      assert (Hbound : nat_of_ascii c < 256) by apply nat_ascii_bounded.
      assert (Hlead : Validation.isNul
                        (byte_of_ascii (ascii_of_nat (192 + nat_of_ascii c / 64)))
                      = false).
      { apply not_true_is_false. intros Hnul.
        apply isNul_byte in Hnul.
        apply (f_equal nat_of_ascii) in Hnul.
        rewrite nat_ascii_embedding in Hnul;
          [change (nat_of_ascii Ascii.zero) with 0 in Hnul; lia|].
        pose proof (Nat.Div0.div_lt_upper_bound (nat_of_ascii c) 64 4). lia. }
      assert (Hcont : Validation.isNul
                        (byte_of_ascii (ascii_of_nat (128 + nat_of_ascii c mod 64)))
                      = false).
      { apply not_true_is_false. intros Hnul.
        apply isNul_byte in Hnul.
        apply (f_equal nat_of_ascii) in Hnul.
        rewrite nat_ascii_embedding in Hnul;
          [change (nat_of_ascii Ascii.zero) with 0 in Hnul; lia|].
        pose proof (Nat.mod_upper_bound (nat_of_ascii c) 64). lia. }
      assert (Hstep : forall i,
                 length (Validation.utf8 (String.substring 0 (S i) (String c rest)))
                 = 2 + length (Validation.utf8 (String.substring 0 i rest))).
      { intros i. cbn [String.substring Validation.utf8]. cbv zeta.
        destruct (Nat.ltb_spec (nat_of_ascii c) 128); [lia|reflexivity]. }
      destruct n as [|[|n]]; cbn [take existsb]; rewrite ?Hlead, ?Hcont; cbn [orb].
      * split; [discriminate|]. intros [i [_ Hlen]]. lia.
      * split; [discriminate|]. intros [[|i] [Hget Hlen]].
        -- cbn in Hget. congruence.
        -- rewrite Hstep in Hlen. lia.
      * rewrite IH. split.
        -- intros [i [Hget Hlen]]. exists (S i). split; [exact Hget|].
           rewrite Hstep. lia.
        -- intros [[|i] [Hget Hlen]].
           ++ cbn in Hget. congruence.
           ++ exists i. split; [exact Hget|]. rewrite Hstep in Hlen. lia.
Qed.

(** X10.  [isBinaryFile] answers [true] exactly for a readable regular
    file with a NUL among its first 512 bytes, that is, a NUL character
    before which the text takes fewer than 512 bytes; a missing path, a
    directory and an unreadable file are not binary, and a NUL further on
    is not seen. *)
Theorem isBinaryFile_nul_in_first_512 (filePath : string) (fs : gmap string node) :
  Validation.isBinaryFile filePath fs = true
  <-> exists content mode i,
        fs !! filePath = Some (File content mode)
        /\ FS.readable (File content mode) = true
        /\ String.get i content = Some Ascii.zero
        /\ (Validation.size (String.substring 0 i content) < 512)%N.
Proof.
  unfold Validation.isBinaryFile, FS.readFile, Validation.firstBytes, Validation.size.
  destruct (fs !! filePath) as [[content mode|mode]|] eqn:Hfs.
  - destruct (FS.readable (File content mode)) eqn:Hr.
    + rewrite utf8_nul. split.
      * intros [i [Hget Hlen]]. exists content, mode, i. split_and!; auto. lia.
      * intros [c [m [i [Hc [_ [Hget Hlen]]]]]]. injection Hc as <- <-.
        exists i. split; [exact Hget|lia].
    + split; [discriminate|]. intros [c [m [i [Hc [Hread _]]]]].
      injection Hc as <- <-. congruence.
  - split; [discriminate|]. intros [c [m [i [Hc _]]]]. discriminate.
  - split; [discriminate|]. intros [c [m [i [Hc _]]]]. discriminate.
Qed.

Lemma isBinaryFile_nul_in_first_512_witness :
  Validation.isBinaryFile "/p/b.bin" (oneFile "/p/b.bin" (accentsThenNul 255)) = true
  /\ Validation.isBinaryFile "/p/b.bin" (oneFile "/p/b.bin" (accentsThenNul 300))
     = false.
Proof.
  split; [|vm_compute; reflexivity].
  apply (proj2 (isBinaryFile_nul_in_first_512 "/p/b.bin"
                  (oneFile "/p/b.bin" (accentsThenNul 255)))).
  exists (accentsThenNul 255), 420%N, 255. split_and!.
  - apply lookup_singleton_eq.
  - reflexivity.
  - vm_compute. reflexivity.
  - vm_compute. reflexivity.
Defined.

(** * Further properties: the rule engine *)

Lemma validateRule_fields (j : json) (rule : Rule) :
  RuleEngine.validateRule j = Return rule ->
  (JSON.get j "id" = Return (Some (JString (r_id rule)))
   /\ r_id rule <> EmptyString)
  /\ (JSON.get j "name" = Return (Some (JString (r_name rule)))
      /\ r_name rule <> EmptyString)
  /\ (JSON.get j "pattern" = Return (Some (JString (r_pattern rule)))
      /\ r_pattern rule <> EmptyString)
  /\ (JSON.get j "description" = Return (Some (r_description rule))
      /\ JSON.truthy (Some (r_description rule)) = true)
  /\ JSON.get j "fileTypes" = Return (Some (JArray (r_fileTypes rule)))
  /\ RuleEngine.severityOf
       match JSON.get j "severity" with Return v => v | Throw _ => None end
     = Some (r_severity rule)
  /\ JSON.get j "replacement"
     = Return (Some match r_replacement rule with
                    | Some r => JString r
                    | None => JNull
                    end).
Proof.
  unfold RuleEngine.validateRule, RuleEngine.requiredFields, RuleEngine.checkRequired.
  destruct j as [| | | | |fields]; try (cbn; discriminate).
  change (JSON.get (JObject fields) ?k) with (Return (JSON.lookup_field k fields)).
  generalize (JSON.lookup_field "id" fields) as id.
  generalize (JSON.lookup_field "name" fields) as name.
  generalize (JSON.lookup_field "description" fields) as description.
  generalize (JSON.lookup_field "pattern" fields) as pattern.
  generalize (JSON.lookup_field "fileTypes" fields) as fileTypes.
  generalize (JSON.lookup_field "severity" fields) as severity.
  generalize (JSON.lookup_field "replacement" fields) as replacement.
  intros replacement severity fileTypes pattern description name id.
  unfold mbind, result_bind.
  destruct (JSON.truthy id) eqn:Tid; [|discriminate].
  destruct (JSON.truthy name) eqn:Tname; [|discriminate].
  destruct (JSON.truthy description) eqn:Tdesc; [|discriminate].
  destruct (JSON.truthy pattern) eqn:Tpat; [|discriminate].
  destruct (JSON.truthy fileTypes) eqn:Tft; [|discriminate].
  destruct (JSON.truthy severity) eqn:Tsev; [|discriminate].
  destruct id as [[| | |id| |]|]; try discriminate.
  destruct name as [[| | |name| |]|]; try discriminate.
  destruct pattern as [[| | |pattern| |]|]; try discriminate.
  destruct fileTypes as [[| | | |fileTypes|]|]; try discriminate.
  destruct (RuleEngine.severityOf severity) as [sev|] eqn:Hsev; [|discriminate].
  destruct description as [description|]; [|discriminate].
  assert (Hne : forall s, JSON.truthy (Some (JString s)) = true -> s <> EmptyString).
  { intros s Hs ->. discriminate. }
  destruct replacement as [[| | |r| |]|]; try discriminate;
    intros [= <-]; cbn [r_id r_name r_pattern r_description r_fileTypes
                        r_severity r_replacement default];
    auto 20.
Qed.

(** X11.  A rule that [validateRule] accepts has the fields of the object
    it was read from: [id], [name] and [pattern] are non-empty strings,
    [description] is truthy, [fileTypes] is an array, [severity] is one of
    the three names and [replacement] is present, as a string or [null]. *)
Theorem validateRule_sound (j : json) (rule : Rule) :
  RuleEngine.validateRule j = Return rule ->
  (JSON.get j "id" = Return (Some (JString (r_id rule)))
   /\ r_id rule <> EmptyString)
  /\ (JSON.get j "name" = Return (Some (JString (r_name rule)))
      /\ r_name rule <> EmptyString)
  /\ (JSON.get j "pattern" = Return (Some (JString (r_pattern rule)))
      /\ r_pattern rule <> EmptyString)
  /\ (JSON.get j "description" = Return (Some (r_description rule))
      /\ JSON.truthy (Some (r_description rule)) = true)
  /\ JSON.get j "fileTypes" = Return (Some (JArray (r_fileTypes rule)))
  /\ RuleEngine.severityOf
       match JSON.get j "severity" with Return v => v | Throw _ => None end
     = Some (r_severity rule)
  /\ JSON.get j "replacement"
     = Return (Some match r_replacement rule with
                    | Some r => JString r
                    | None => JNull
                    end).
Proof. exact (validateRule_fields j rule). Qed.

Lemma validateRule_sound_witness :
  r_pattern (mkRule "a" "a" (JString "a") "b" None [JString "js"] SevWarning)
  <> EmptyString.
Proof.
  exact (proj2 (proj1 (proj2 (proj2
    (validateRule_sound (jsRule "a" "b" JNull)
       (mkRule "a" "a" (JString "a") "b" None [JString "js"] SevWarning)
       eq_refl))))).
Defined.

Section EngineFacts.
Context {E : RegExpEngine}.

Lemma compileAll_snoc (rules : list Rule) (rule : Rule) (compiled : gmap string RegExp) :
  compileAll (rules ++ [rule]) compiled
  = match RegExp_new (r_pattern rule) true with
    | Return re => <[r_id rule := re]> (compileAll rules compiled)
    | Throw _ => compileAll rules compiled
    end.
Proof. unfold compileAll. rewrite fold_left_app. reflexivity. Qed.

Lemma compileAll_last (rules : list Rule) (compiled : gmap string RegExp) (id : string) :
  compileAll rules compiled !! id
  = match compiledFor id rules with
    | Some rule => compiledPattern rule
    | None => compiled !! id
    end.
Proof.
  induction rules as [|rule rules IH] using rev_ind; [reflexivity|].
  rewrite compileAll_snoc. unfold compiledFor. rewrite rev_app_distr.
  cbn [rev app List.find].
  destruct (String.eqb_spec (r_id rule) id) as [Hid|Hid]; cbn [andb].
  - unfold failsToCompile.
    destruct (RegExp_new (r_pattern rule) true) as [re|message] eqn:Hnew;
      cbn [negb].
    + subst id. rewrite lookup_insert_eq. unfold compiledPattern.
      rewrite Hnew. reflexivity.
    + exact IH.
  - destruct (RegExp_new (r_pattern rule) true) as [re|message];
      [rewrite lookup_insert_ne by exact Hid|]; exact IH.
Qed.

Lemma loadRules_handled (rulesPath : string) (config : json) (items : list json)
    (rules : list Rule) (h : ErrorHandler.t) (this : RuleEngine.t) :
  JSON.get config "rules" = Return (Some (JArray items)) ->
  validateAll items = Return rules ->
  RuleEngine.errorHandler this = Some h ->
  RuleEngine.loadRules rulesPath (RuleEngine.Parsed config) this
  = (Return tt,
     RuleEngine.mk rules (compileAll rules ∅) (Some (reportInvalid rules h))).
Proof.
  intros Hitems Hvalid Hh. unfold RuleEngine.loadRules. rewrite Hitems, Hh.
  pose proof (loadEach_handled items [] ∅ h) as H. rewrite Hvalid in H.
  exact H.
Qed.

(** X12.  Rules that share an id: [getRuleById] gives the first rule with
    the id, while the pattern that stays compiled under the id, which
    [applyRules] uses for all of them, is that of the last such rule whose
    pattern compiles. *)
Theorem compiled_pattern_of_last_rule_with_id
    (rulesPath : string) (config : json) (items : list json) (rules : list Rule)
    (h : ErrorHandler.t) (this : RuleEngine.t) (id : string) :
  JSON.get config "rules" = Return (Some (JArray items)) ->
  validateAll items = Return rules ->
  RuleEngine.errorHandler this = Some h ->
  let this' := snd (RuleEngine.loadRules rulesPath (RuleEngine.Parsed config) this) in
  RuleEngine.getRuleById id this'
  = List.find (fun rule => String.eqb (r_id rule) id) rules
  /\ RuleEngine.compiledRules this' !! id
     = match compiledFor id rules with
       | Some rule => compiledPattern rule
       | None => None
       end.
Proof.
  intros Hitems Hvalid Hh. cbn zeta.
  rewrite (loadRules_handled rulesPath config items rules h this Hitems Hvalid Hh).
  cbn [snd]. split; [reflexivity|].
  cbn [RuleEngine.compiledRules]. rewrite compileAll_last.
  destruct (compiledFor id rules); [reflexivity|apply lookup_empty].
Qed.

Lemma applyEach_compiled (content filePath fileExtension : string) :
  forall (todo : list Rule) (this : RuleEngine.t),
    RuleEngine.compiledRules
      (snd (RuleEngine.applyEach todo content filePath fileExtension this))
    = RuleEngine.compiledRules this
    /\ RuleEngine.rules
         (snd (RuleEngine.applyEach todo content filePath fileExtension this))
       = RuleEngine.rules this.
Proof.
  induction todo as [|rule rest IH]; intros this; [split; reflexivity|].
  cbn [RuleEngine.applyEach].
  destruct (RuleEngine.appliesTo rule fileExtension); cbn [negb]; [|apply IH].
  destruct (RuleEngine.compiledRules this !! r_id rule) as [re|]; [|apply IH].
  destruct (RuleEngine.applyRuleWithTimeout this re content rule filePath).
  - specialize (IH this).
    destruct (RuleEngine.applyEach rest content filePath fileExtension this).
    exact IH.
  - match goal with
    | |- context [RuleEngine.applyEach rest _ _ _ ?t] => destruct (IH t) as [Hc Hr]
    end.
    rewrite Hc, Hr. destruct (RuleEngine.errorHandler this); split; reflexivity.
Qed.

Lemma applyEach_applicable (content filePath fileExtension : string) :
  forall (todo : list Rule) (this : RuleEngine.t) (f : Finding),
    In f (fst (RuleEngine.applyEach todo content filePath fileExtension this)) ->
    exists rule re m,
      In rule todo
      /\ RuleEngine.appliesTo rule fileExtension = true
      /\ RuleEngine.compiledRules this !! r_id rule = Some re
      /\ f = RuleEngine.findingOf content rule filePath m.
Proof.
  induction todo as [|rule rest IH]; intros this f; [intros []|].
  cbn [RuleEngine.applyEach].
  destruct (RuleEngine.appliesTo rule fileExtension) eqn:Happ; cbn [negb].
  2:{ intros Hin. destruct (IH this f Hin) as [r [re [m [Hr H]]]].
      exists r, re, m. split; [right; exact Hr|exact H]. }
  destruct (RuleEngine.compiledRules this !! r_id rule) as [re|] eqn:Hre.
  2:{ intros Hin. destruct (IH this f Hin) as [r [re [m [Hr H]]]].
      exists r, re, m. split; [right; exact Hr|exact H]. }
  destruct (RuleEngine.applyRuleWithTimeout this re content rule filePath)
    as [ruleFindings|message] eqn:Hrun.
  - specialize (IH this f).
    destruct (RuleEngine.applyEach rest content filePath fileExtension this)
      as [findings this'].
    cbn [fst] in *. intros Hin. apply in_app_or in Hin. destruct Hin as [Hin|Hin].
    + assert (Hscan : RuleEngine.scan RuleEngine.maxIterations re content rule
                        filePath 0 = Return ruleFindings).
      { unfold RuleEngine.applyRuleWithTimeout, ErrorHandler.withTimeout in Hrun.
        destruct (RuleEngine.errorHandler this); exact Hrun. }
      destruct (scan_findings re content rule filePath _ _ _ Hscan f Hin)
        as [li [m [li' [_ Hf]]]].
      exists rule, re, m. split; [left; reflexivity|]. auto.
    + destruct (IH Hin) as [r [re' [m [Hr H]]]].
      exists r, re', m. split; [right; exact Hr|exact H].
  - intros Hin.
    match type of Hin with
    | context [RuleEngine.applyEach rest _ _ _ ?t] =>
        destruct (IH t f Hin) as [r [re' [m [Hr [Ha [Hc Hf]]]]]];
        assert (Hsame : RuleEngine.compiledRules t = RuleEngine.compiledRules this)
          by (destruct (RuleEngine.errorHandler this); reflexivity)
    end.
    rewrite Hsame in Hc. exists r, re', m. split; [right; exact Hr|]. auto.
Qed.

Lemma applyEach_none_applicable (content filePath fileExtension : string) :
  forall (todo : list Rule) (this : RuleEngine.t),
    List.filter (fun rule => RuleEngine.appliesTo rule fileExtension) todo = [] ->
    RuleEngine.applyEach todo content filePath fileExtension this = ([], this).
Proof.
  induction todo as [|rule rest IH]; intros this Hnone; [reflexivity|].
  cbn [List.filter] in Hnone. cbn [RuleEngine.applyEach].
  destruct (RuleEngine.appliesTo rule fileExtension); [discriminate|].
  cbn [negb]. apply IH. exact Hnone.
Qed.

(** X13.  [applyRules] reports only for the rules of
    [getRulesForFileType] that have a compiled pattern: every finding
    carries the given path and the id, name, severity and pattern of such a
    rule.  With no rule for the file type it reports nothing and leaves the
    engine and its error handler as they were; in every case the rules and
    the compiled patterns stay as they were. *)
Theorem applyRules_only_applicable_rules
    (content filePath fileExtension : string) (this : RuleEngine.t) :
  (forall f,
      In f (fst (RuleEngine.applyRules content filePath fileExtension this)) ->
      f_filePath f = filePath
      /\ exists rule,
           In rule (RuleEngine.getRulesForFileType fileExtension this)
           /\ RuleEngine.compiledRules this !! r_id rule <> None
           /\ f_ruleId f = r_id rule
           /\ f_ruleName f = r_name rule
           /\ f_severity f = r_severity rule
           /\ f_pattern f = Some (r_pattern rule))
  /\ (RuleEngine.getRulesForFileType fileExtension this = [] ->
      RuleEngine.applyRules content filePath fileExtension this = ([], this))
  /\ RuleEngine.getAllRules
       (snd (RuleEngine.applyRules content filePath fileExtension this))
     = RuleEngine.getAllRules this
  /\ RuleEngine.compiledRules
       (snd (RuleEngine.applyRules content filePath fileExtension this))
     = RuleEngine.compiledRules this.
Proof.
  split; [|split; [|split]].
  - intros f Hin. unfold RuleEngine.applyRules in Hin.
    destruct (applyEach_applicable _ _ _ _ _ _ Hin)
      as [rule [re [m [Hr [Ha [Hc ->]]]]]].
    split; [reflexivity|]. exists rule. split.
    + unfold RuleEngine.getRulesForFileType. apply filter_In. auto.
    + rewrite Hc. repeat split; try reflexivity. discriminate.
  - intros Hnone. apply applyEach_none_applicable. exact Hnone.
  - unfold RuleEngine.getAllRules, RuleEngine.applyRules.
    apply (applyEach_compiled content filePath fileExtension).
  - unfold RuleEngine.applyRules.
    apply (applyEach_compiled content filePath fileExtension).
Qed.

Lemma loadEach_prefix (items : list json) :
  forall (this this' : RuleEngine.t) (out : result unit),
    RuleEngine.loadEach items this = (out, this') ->
    exists (n : nat) (validated : list Rule),
      n <= length items
      /\ validateAll (take n items) = Return validated
      /\ RuleEngine.rules this' = RuleEngine.rules this ++ validated
      /\ (out = Return tt -> n = length items)
      /\ forall id re,
           RuleEngine.compiledRules this' !! id = Some re ->
           RuleEngine.compiledRules this !! id = Some re
           \/ exists rule, In rule validated /\ r_id rule = id
                           /\ RegExp_new (r_pattern rule) true = Return re.
Proof.
  induction items as [|item rest IH]; intros this this' out Hload.
  - cbn in Hload. injection Hload as <- <-. exists 0, [].
    rewrite app_nil_r. repeat split; auto.
  - cbn [RuleEngine.loadEach] in Hload.
    destruct (RuleEngine.validateRule item) as [rule|message] eqn:Hv.
    2:{ injection Hload as <- <-. exists 0, []. rewrite app_nil_r.
        repeat split; auto; [cbn; lia|discriminate]. }
    assert (Hstep : forall validated n,
               validateAll (take n rest) = Return validated ->
               validateAll (take (S n) (item :: rest)) = Return (rule :: validated)).
    { intros validated n Hn. cbn [take validateAll]. rewrite Hv, Hn. reflexivity. }
    cbn [RuleEngine.rules RuleEngine.compiledRules RuleEngine.errorHandler] in Hload.
    destruct (RegExp_new (r_pattern rule) true) as [re0|message] eqn:Hnew.
    + destruct (IH _ _ _ Hload) as [n [validated [Hn [Hval [Hrules [Hout Hcomp]]]]]].
      exists (S n), (rule :: validated).
      cbn [RuleEngine.rules RuleEngine.compiledRules] in *.
      split; [cbn; lia|]. split; [auto|]. split.
      { rewrite Hrules, <- app_assoc. reflexivity. }
      split; [intros Ho; cbn; f_equal; auto|].
      intros id re Hre. destruct (Hcomp id re Hre) as [Hold|[r [Hr [Hid Hc]]]].
      * destruct (String.eqb_spec (r_id rule) id) as [Heq|Hne].
        -- subst id. rewrite lookup_insert_eq in Hold. injection Hold as <-.
           right. exists rule. split; [left; reflexivity|]. auto.
        -- rewrite lookup_insert_ne in Hold by exact Hne. left. exact Hold.
      * right. exists r. split; [right; exact Hr|]. auto.
    + destruct (RuleEngine.errorHandler this) as [h|] eqn:Hh.
      * destruct (IH _ _ _ Hload) as [n [validated [Hn [Hval [Hrules [Hout Hcomp]]]]]].
        exists (S n), (rule :: validated).
        cbn [RuleEngine.rules RuleEngine.compiledRules] in *.
        split; [cbn; lia|]. split; [auto|]. split.
        { rewrite Hrules, <- app_assoc. reflexivity. }
        split; [intros Ho; cbn; f_equal; auto|].
        intros id re Hre. destruct (Hcomp id re Hre) as [Hold|[r [Hr [Hid Hc]]]].
        -- left. exact Hold.
        -- right. exists r. split; [right; exact Hr|]. auto.
      * injection Hload as <- <-. exists 1, [rule].
        cbn [RuleEngine.rules RuleEngine.compiledRules].
        split; [cbn; lia|]. split.
        { apply (Hstep [] 0). rewrite take_0. reflexivity. }
        split; [reflexivity|]. split; [discriminate|]. auto.
Qed.

(** X14.  Once [loadRules] has found the rules array it forgets the rules
    the engine had: whatever the outcome, the engine then holds the rules
    validated so far, a prefix of the file's rules, all of them after a
    success, and every compiled pattern is the compiled pattern of one of
    these rules. *)
Theorem loadRules_keeps_validated_prefix
    (rulesPath : string) (config : json) (items : list json)
    (this this' : RuleEngine.t) (out : result unit) :
  JSON.get config "rules" = Return (Some (JArray items)) ->
  RuleEngine.loadRules rulesPath (RuleEngine.Parsed config) this = (out, this') ->
  exists n,
    n <= length items
    /\ validateAll (take n items) = Return (RuleEngine.getAllRules this')
    /\ (out = Return tt -> n = length items)
    /\ forall id re,
         RuleEngine.compiledRules this' !! id = Some re ->
         exists rule, RuleEngine.getRuleById id this' <> None
                      /\ In rule (RuleEngine.getAllRules this')
                      /\ r_id rule = id
                      /\ RegExp_new (r_pattern rule) true = Return re.
Proof.
  intros Hitems Hload. unfold RuleEngine.loadRules in Hload. rewrite Hitems in Hload.
  destruct (loadEach_prefix _ _ _ _ Hload)
    as [n [validated [Hn [Hval [Hrules [Hout Hcomp]]]]]].
  cbn [RuleEngine.rules RuleEngine.compiledRules app] in *.
  exists n. unfold RuleEngine.getAllRules, RuleEngine.getRuleById. rewrite Hrules.
  split; [exact Hn|]. split; [exact Hval|]. split; [exact Hout|].
  intros id re Hre. destruct (Hcomp id re Hre) as [Hold|[rule [Hr [Hid Hc]]]].
  - rewrite lookup_empty in Hold. discriminate.
  - exists rule. split; [|auto].
    destruct (List.find (fun rule0 => String.eqb (r_id rule0) id) validated) eqn:Hfind;
      [discriminate|].
    apply (find_none _ _ Hfind) in Hr. rewrite Hid, String.eqb_refl in Hr.
    discriminate.
Qed.

End EngineFacts.

Lemma compiled_pattern_of_last_rule_with_id_witness :
  let this' :=
    snd (RuleEngine.loadRules (E := MiniRegExp.engine) "rules.json"
           (rulesFile [jsRule "dup" "a" JNull; jsRule "dup" "b" JNull])
           (RuleEngine.new (Some ErrorHandler.new))) in
  option_map r_pattern (RuleEngine.getRuleById "dup" this') = Some "a"
  /\ RuleEngine.compiledRules this' !! "dup"
     = compiledPattern (E := MiniRegExp.engine)
         (mkRule "dup" "dup" (JString "dup") "b" None [JString "js"] SevWarning).
Proof.
  cbn zeta.
  destruct (compiled_pattern_of_last_rule_with_id (E := MiniRegExp.engine)
              "rules.json"
              (JObject [("rules", JArray [jsRule "dup" "a" JNull; jsRule "dup" "b" JNull])])
              [jsRule "dup" "a" JNull; jsRule "dup" "b" JNull]
              [mkRule "dup" "dup" (JString "dup") "a" None [JString "js"] SevWarning;
               mkRule "dup" "dup" (JString "dup") "b" None [JString "js"] SevWarning]
              ErrorHandler.new (RuleEngine.new (Some ErrorHandler.new)) "dup"
              eq_refl eq_refl eq_refl) as [Hfirst Hlast].
  split.
  - unfold rulesFile. rewrite Hfirst. reflexivity.
  - unfold rulesFile. rewrite Hlast. reflexivity.
Defined.

Lemma loadRules_keeps_validated_prefix_witness :
  exists n,
    n <= 2
    /\ validateAll (take n partlyInvalidRules)
       = Return (RuleEngine.getAllRules
                   (loaded partlyInvalidRules (Some ErrorHandler.new))).
Proof.
  destruct (loadRules_keeps_validated_prefix (E := MiniRegExp.engine)
              "rules.json" (JObject [("rules", JArray partlyInvalidRules)])
              partlyInvalidRules (RuleEngine.new (Some ErrorHandler.new))
              (loaded partlyInvalidRules (Some ErrorHandler.new))
              (fst (RuleEngine.loadRules "rules.json" (rulesFile partlyInvalidRules)
                      (RuleEngine.new (Some ErrorHandler.new))))
              eq_refl (surjective_pairing _)) as [n [Hn [Hval _]]].
  exists n. split; [exact Hn|exact Hval].
Defined.

(** * Further properties: the order of the findings of a rule *)

Lemma count_prefix_mono (c : ascii) (s : string) :
  forall (i j : nat),
    i <= j ->
    JSString.count c (String.substring 0 i s)
    <= JSString.count c (String.substring 0 j s)
    /\ (JSString.count c (String.substring 0 i s)
        = JSString.count c (String.substring 0 j s) ->
        forall k, i <= k < j -> String.get k s <> Some c).
Proof.
  induction s as [|a s IH]; intros i j Hij.
  - destruct i, j; cbn; split; try lia; intros _ k _; destruct k; discriminate.
  - destruct i as [|i], j as [|j]; try lia.
    + split; [lia|]. intros _ k Hk. lia.
    + cbn [String.substring JSString.count].
      destruct (IH 0 j ltac:(lia)) as [Hle Heq].
      assert (Hzero : JSString.count c (String.substring 0 0 s) = 0)
        by (destruct s; reflexivity).
      split; [lia|]. intros H k Hk.
      destruct (Ascii.eqb_spec a c) as [->|Hac]; [cbn in H; lia|].
      destruct k as [|k]; cbn [String.get].
      * congruence.
      * apply Heq; [cbn in H; lia|lia].
    + cbn [String.substring JSString.count].
      destruct (IH i j ltac:(lia)) as [Hle Heq].
      split; [lia|]. intros H k Hk.
      destruct k as [|k]; [lia|]. cbn [String.get]. apply Heq; lia.
Qed.

Lemma lastNewlineBefore_same (content : string) (i j : nat) (a b : Z) :
  i <= j ->
  (forall k, i <= k < j -> String.get k content <> Some JSString.newline) ->
  lastNewlineBefore content i a ->
  lastNewlineBefore content j b ->
  a = b.
Proof.
  intros Hij Hgap [[-> Hnone]|(Ha & Hga & Hafter)] [[-> Hnone']|(Hb & Hgb & Hafter')].
  - reflexivity.
  - exfalso. destruct (Nat.lt_ge_cases (Z.to_nat b) i) as [H|H].
    + exact (Hnone _ H Hgb).
    + apply (Hgap (Z.to_nat b)); [lia|exact Hgb].
  - exfalso. apply (Hnone' (Z.to_nat a)); [lia|exact Hga].
  - destruct (Z.lt_trichotomy a b) as [Hlt|[Heq|Hgt]]; [|exact Heq|].
    + exfalso. destruct (Nat.lt_ge_cases (Z.to_nat b) i) as [H|H].
      * apply (Hafter (Z.to_nat b)); [lia|exact Hgb].
      * apply (Hgap (Z.to_nat b)); [lia|exact Hgb].
    + exfalso. apply (Hafter' (Z.to_nat a)); [lia|exact Hga].
Qed.

Section OrderFacts.
Context {E : RegExpEngine}.

Lemma findingOf_before (content : string) (rule : Rule) (filePath : string)
    (m1 m2 : MatchResult) :
  m_index m1 < m_index m2 ->
  m_index m2 <= String.length content ->
  before (RuleEngine.findingOf content rule filePath m1)
         (RuleEngine.findingOf content rule filePath m2).
Proof.
  intros Hlt Hle.
  destruct (findingOf_position content rule filePath m1 ltac:(lia))
    as (a & Hline1 & Hlast1 & Hcol1).
  destruct (findingOf_position content rule filePath m2 Hle)
    as (b & Hline2 & Hlast2 & Hcol2).
  unfold before, Fixer.compareFindings. rewrite Hline1, Hline2, Hcol1, Hcol2.
  unfold JSString.slice. rewrite !Nat.sub_0_r.
  destruct (count_prefix_mono JSString.newline content (m_index m1) (m_index m2)
              ltac:(lia)) as [Hmono Hsame].
  destruct (Z.eqb_spec
              (1 + Z.of_nat (JSString.count JSString.newline
                               (String.substring 0 (m_index m1) content)))
              (1 + Z.of_nat (JSString.count JSString.newline
                               (String.substring 0 (m_index m2) content))))
    as [Heq|Hne]; cbn [negb].
  - assert (Hab : a = b).
    { apply (lastNewlineBefore_same content (m_index m1) (m_index m2));
        [lia| |exact Hlast1|exact Hlast2].
      apply Hsame. lia. }
    lia.
  - lia.
Qed.

Lemma substring_length_le (s : string) :
  forall (i n : nat), i + String.length (String.substring i n s) <= Nat.max i (String.length s).
Proof.
  induction s as [|a s IH]; intros i n.
  - destruct i, n; cbn; lia.
  - destruct i as [|i]; cbn [String.substring String.length].
    + destruct n as [|n]; cbn [String.length]; [lia|].
      specialize (IH 0 n). lia.
    + specialize (IH i n). lia.
Qed.

Lemma exec_facts (re : RegExp) (s : string) (lastIndex : nat) (m : MatchResult)
    (li : nat) :
  JSRegExp.exec re s lastIndex = (Some m, li) ->
  lastIndex <= m_index m
  /\ m_index m + String.length (m_text m) <= String.length s
  /\ li = m_index m + String.length (m_text m).
Proof.
  unfold JSRegExp.exec.
  destruct (String.length s <? lastIndex); [discriminate|].
  destruct (RegExp_search re s lastIndex) as [[[skip len] caps]|]; [|discriminate].
  destruct (Nat.ltb_spec (String.length s) (lastIndex + skip)); [discriminate|].
  intros [= <- <-]. cbn.
  pose proof (substring_length_le s (lastIndex + skip) len). lia.
Qed.

Lemma matchesFrom_apart (re : RegExp) (s : string) :
  forall (fuel lastIndex : nat),
    Forall (fun m => lastIndex <= m_index m
                     /\ m_index m + String.length (m_text m) <= String.length s)
           (JSRegExp.matchesFrom fuel re s lastIndex)
    /\ StronglySorted apart (JSRegExp.matchesFrom fuel re s lastIndex).
Proof.
  induction fuel as [|fuel IH]; intros lastIndex; cbn [JSRegExp.matchesFrom].
  - split; constructor.
  - destruct (JSRegExp.exec re s lastIndex) as [[m|] li] eqn:Hexec;
      [|split; constructor].
    destruct (exec_facts _ _ _ _ _ Hexec) as (Hfrom & Hto & ->).
    destruct (IH (JSRegExp.advance m (m_index m + String.length (m_text m))))
      as [Hall Hsorted].
    assert (Hadv : m_index m + String.length (m_text m)
                   <= JSRegExp.advance m (m_index m + String.length (m_text m))
                   /\ m_index m
                      < JSRegExp.advance m (m_index m + String.length (m_text m))).
    { unfold JSRegExp.advance.
      destruct (Nat.eqb_spec (String.length (m_text m)) 0); lia. }
    split.
    + constructor; [lia|]. eapply Forall_impl; [exact Hall|].
      cbn. intros m' [H1 H2]. lia.
    + constructor; [exact Hsorted|]. eapply Forall_impl; [exact Hall|].
      cbn. intros m' [H1 H2]. unfold apart. lia.
Qed.

Lemma findings_sorted (content : string) (rule : Rule) (filePath : string)
    (matches : list MatchResult) :
  Forall (fun m => m_index m <= String.length content) matches ->
  StronglySorted apart matches ->
  StronglySorted before (map (RuleEngine.findingOf content rule filePath) matches).
Proof.
  induction matches as [|m matches IH]; intros Hall Hsorted; cbn; [constructor|].
  apply Forall_cons_iff in Hall. destruct Hall as [_ Hall].
  apply StronglySorted_inv in Hsorted. destruct Hsorted as [Hsorted Hm].
  constructor; [exact (IH Hall Hsorted)|].
  apply Forall_map. rewrite Forall_forall in *. intros m' Hin.
  apply findingOf_before; [exact (proj2 (Hm m' Hin))|exact (Hall m' Hin)].
Qed.

(** X15.  The findings of one rule come in document order: they are the
    findings of matches that start one after the other without overlap, and
    each finding is strictly before the next by line and column, so that
    the comparator of [fixFile] reverses their order. *)
Theorem rule_findings_in_document_order (this : RuleEngine.t) (re : RegExp)
    (content : string) (rule : Rule) (filePath : string) (findings : list Finding) :
  RuleEngine.applyRuleWithTimeout this re content rule filePath = Return findings ->
  StronglySorted before findings
  /\ exists matches,
       findings = map (RuleEngine.findingOf content rule filePath) matches
       /\ StronglySorted apart matches
       /\ Forall (fun m => m_index m + String.length (m_text m)
                           <= String.length content) matches.
Proof.
  rewrite applyRule_capped.
  destruct (length (JSRegExp.matchAll re content) <=? RuleEngine.maxIterations);
    [|discriminate].
  intros [= <-]. unfold JSRegExp.matchAll.
  destruct (matchesFrom_apart re content (S (String.length content)) 0)
    as [Hall Hsorted].
  split.
  - apply findings_sorted; [|exact Hsorted].
    eapply Forall_impl; [exact Hall|]. cbn. intros m [_ H]. lia.
  - eexists. split; [reflexivity|]. split; [exact Hsorted|].
    eapply Forall_impl; [exact Hall|]. cbn. tauto.
Qed.

End OrderFacts.

Lemma rule_findings_in_document_order_witness :
  match RuleEngine.applyRuleWithTimeout (E := MiniRegExp.engine)
          (RuleEngine.new None) runawayRegExp "ab" runawayValidated "/p/a.js" with
  | Return findings => StronglySorted before findings /\ length findings = 3
  | Throw _ => False
  end.
Proof.
  pose (run := RuleEngine.applyRuleWithTimeout (E := MiniRegExp.engine)
                 (RuleEngine.new None) runawayRegExp "ab" runawayValidated "/p/a.js").
  pose (findings := match run with Return findings => findings | Throw _ => [] end).
  assert (H : run = Return findings) by (vm_compute; reflexivity).
  change (match run with
          | Return findings => StronglySorted before findings /\ length findings = 3
          | Throw _ => False
          end).
  rewrite H. split; [|vm_compute; reflexivity].
  exact (proj1 (rule_findings_in_document_order (E := MiniRegExp.engine) _ _ _ _ _ _ H)).
Defined.

(** * Further properties: the fixer *)

Section FixerFacts.
Context {E : RegExpEngine}.
Variable clock : nat -> string.

Lemma fixFile_dry (filePath : string) (findings : list Finding)
    (st st' : Fixer.t) (out : result Fixer.FileResult) :
  Fixer.dryRun (Fixer.options st) = true ->
  Fixer.fixFile filePath findings st = (out, st') ->
  st' = st.
Proof.
  intros Hdry.
  unfold Fixer.fixFile, Fixer.catch, Fixer.bind, Fixer.query, Fixer.getOptions,
    Fixer.ret, Fixer.throw.
  destruct (FS.readFile filePath (Fixer.fs st)); rewrite ?Hdry; cbn [negb andb];
    intros [= _ <-]; reflexivity.
Qed.

Lemma fixOne_dry (o : Fixer.FixOptions) (filePath : string)
    (fileFindings : list Finding) (results results' : Fixer.Results)
    (st st' : Fixer.t) (out : result unit) :
  Fixer.dryRun (Fixer.options st) = true ->
  Fixer.fixOne clock o filePath fileFindings results st = (out, results', st') ->
  sameWorld st st'
  /\ Fixer.backupsCreated results' = Fixer.backupsCreated results.
Proof.
  intros Hdry. unfold Fixer.fixOne. rewrite Hdry, andb_false_r.
  destruct (Fixer.fixFile filePath fileFindings st) as [[fixResult|e] st2] eqn:Hfix;
    pose proof (fixFile_dry _ _ _ _ _ Hdry Hfix) as ->.
  - destruct (0 <? Fixer.fr_patternsReplaced fixResult); intros [= _ <- <-];
      (split; [repeat split|reflexivity]).
  - intros [= _ <- <-]. split; [repeat split|reflexivity].
Qed.

Lemma fixEach_dry (o : Fixer.FixOptions) (todo : list (string * list Finding)) :
  forall (results results' : Fixer.Results) (st st' : Fixer.t) (out : result unit),
    Fixer.dryRun (Fixer.options st) = true ->
    Fixer.fixEach clock o todo results st = (out, results', st') ->
    sameWorld st st'
    /\ Fixer.backupsCreated results' = Fixer.backupsCreated results.
Proof.
  induction todo as [|[filePath fileFindings] rest IH];
    intros results results' st st' out Hdry Hrun.
  - cbn in Hrun. injection Hrun as _ <- <-. split; [repeat split|reflexivity].
  - cbn [Fixer.fixEach] in Hrun.
    destruct (Fixer.fixOne clock o filePath fileFindings results st)
      as [[out1 results1] st1] eqn:Hone.
    destruct (fixOne_dry _ _ _ _ _ _ _ _ Hdry Hone) as [[Ho [Hf Hr]] Hb].
    destruct out1 as [[]|message].
    + assert (Hdry1 : Fixer.dryRun (Fixer.options st1) = true) by (rewrite Ho; exact Hdry).
      destruct (IH _ _ _ _ _ Hdry1 Hrun) as [[Ho' [Hf' Hr']] Hb'].
      split; [repeat split|]; congruence.
    + cbn [fst snd] in Hrun.
      destruct (Fixer.continueOnError o); cbn [negb] in Hrun.
      * match type of Hrun with
        | Fixer.fixEach _ _ _ ?r ?s = _ =>
            assert (Hdry1 : Fixer.dryRun (Fixer.options s) = true)
              by (cbn; rewrite Ho; exact Hdry);
            destruct (IH _ _ _ _ _ Hdry1 Hrun) as [[Ho' [Hf' Hr']] Hb']
        end.
        cbn in Ho', Hf', Hr', Hb'.
        split; [repeat split|]; congruence.
      * injection Hrun as _ <- <-. split; [repeat split|]; cbn; congruence.
Qed.

(** X16.  A dry run changes no file and makes no backup: [applyFixes] on a
    fixer created with [dryRun] leaves the file system, the registry of
    backups and the options as they were, whatever the outcome, and the
    results list no backup. *)
Theorem dry_run_changes_no_file (findings : list Finding) (o : Fixer.FixOptions)
    (st : Fixer.t) :
  Fixer.dryRun (Fixer.options st) = true ->
  sameWorld st (snd (Fixer.applyFixes clock findings o st))
  /\ forall results,
       fst (Fixer.applyFixes clock findings o st) = Return results ->
       Fixer.backupsCreated results = [].
Proof.
  intros Hdry. unfold Fixer.applyFixes.
  destruct (length (List.filter Fixer.isFixable findings) =? 0).
  { cbn. split; [repeat split|]. intros results [= <-]. reflexivity. }
  destruct (Fixer.groupFindingsByFile (List.filter Fixer.isFixable findings))
    as [grouped|e].
  2:{ cbn. split; [repeat split|]. discriminate. }
  destruct (Fixer.fixEach clock o (JSObject.entries grouped) Fixer.noResults st)
    as [[out results] st'] eqn:Hrun.
  destruct (fixEach_dry _ _ _ _ _ _ _ Hdry Hrun) as [Hsame Hb].
  cbn in Hb. destruct out as [[]|e].
  - cbn. split; [exact Hsame|]. intros r [= <-]. exact Hb.
  - rewrite Hb. cbn. split; [exact Hsame|]. discriminate.
Qed.

End FixerFacts.

Lemma dry_run_changes_no_file_witness :
  sameWorld
    (Fixer.new (Fixer.mkOptions "/p/.backups" true true) twoFiles)
    (snd (Fixer.applyFixes (E := MiniRegExp.engine) frozenClock
            [findingA; findingB] lenient
            (Fixer.new (Fixer.mkOptions "/p/.backups" true true) twoFiles))).
Proof.
  exact (proj1 (dry_run_changes_no_file (E := MiniRegExp.engine) frozenClock
                  [findingA; findingB] lenient
                  (Fixer.new (Fixer.mkOptions "/p/.backups" true true) twoFiles)
                  eq_refl)).
Defined.

(** The side goals of a step that changed nothing. *)
Ltac settle :=
  first [ reflexivity
        | discriminate
        | intros ? ? [= <- <-]; eauto
        | intros ? [= <-]; eauto
        | intros ? ?; reflexivity
        | eauto ].

Section FixFileFacts.
Context {E : RegExpEngine}.

Lemma fixFile_frame (filePath : string) (findings : list Finding)
    (st st' : Fixer.t) (out : result Fixer.FileResult) :
  Fixer.fixFile filePath findings st = (out, st') ->
  Fixer.options st' = Fixer.options st
  /\ Fixer.backupRegistry st' = Fixer.backupRegistry st
  /\ Fixer.getFixedFiles st' = Fixer.getFixedFiles st
  /\ sameElsewhere filePath (Fixer.fs st) (Fixer.fs st')
  /\ (forall content mode,
         Fixer.fs st !! filePath = Some (File content mode) ->
         exists content', Fixer.fs st' !! filePath = Some (File content' mode))
  /\ (forall e, out = Throw e -> exists message, e = fixFailed filePath message)
  /\ (forall message,
         FS.readFile filePath (Fixer.fs st) = Throw message ->
         out = Throw (fixFailed filePath message) /\ st' = st).
Proof.
  unfold Fixer.fixFile, Fixer.catch, Fixer.bind, Fixer.query, Fixer.getOptions,
    Fixer.update, Fixer.ret, Fixer.throw, FS.readFile, FS.stat, FS.writeFile,
    FS.chmod, Fixer.getFixedFiles, sameElsewhere, fixFailed.
  intros H.
  destruct (Fixer.fs st !! filePath) as [[content mode|mode]|] eqn:Hp.
  - destruct (FS.readable (File content mode)).
    + cbn zeta in H.
      destruct (negb (Fixer.dryRun (Fixer.options st))
                && negb (String.eqb
                           (fst (Fixer.applyEachFix (Fixer.sortFindings findings)
                                   content 0)) content)).
      * rewrite Hp in H.
        destruct (FS.writable (File content mode)).
        -- cbn [Fixer.fs Fixer.setFs] in H. rewrite lookup_insert_eq in H.
           injection H as <- <-. cbn. split_and!; try reflexivity.
           ++ intros q Hq. rewrite !lookup_insert_ne by congruence. reflexivity.
           ++ intros c m [= <- <-]. rewrite lookup_insert_eq. eauto.
           ++ discriminate.
           ++ discriminate.
        -- injection H as <- <-. split_and!; settle.
      * injection H as <- <-. split_and!; settle.
    + injection H as <- <-. split_and!; settle.
  - injection H as <- <-. split_and!; settle.
  - injection H as <- <-. split_and!; settle.
Qed.

(** X17.  [fixFile] touches nothing but its file: whatever the outcome,
    the options, the registry of backups, the set of fixed files and every
    other path are as before, and the file is still a file with the
    permissions it had.  The message of a failure names the file; when the
    file cannot be read, nothing at all has changed. *)
Theorem fixFile_touches_only_its_file (filePath : string) (findings : list Finding)
    (st st' : Fixer.t) (out : result Fixer.FileResult) :
  Fixer.fixFile filePath findings st = (out, st') ->
  Fixer.options st' = Fixer.options st
  /\ Fixer.backupRegistry st' = Fixer.backupRegistry st
  /\ Fixer.getFixedFiles st' = Fixer.getFixedFiles st
  /\ sameElsewhere filePath (Fixer.fs st) (Fixer.fs st')
  /\ (forall content mode,
         Fixer.fs st !! filePath = Some (File content mode) ->
         exists content', Fixer.fs st' !! filePath = Some (File content' mode))
  /\ (forall e, out = Throw e -> exists message, e = fixFailed filePath message)
  /\ (forall message,
         FS.readFile filePath (Fixer.fs st) = Throw message ->
         out = Throw (fixFailed filePath message) /\ st' = st).
Proof. exact (fixFile_frame filePath findings st st' out). Qed.

Lemma applyEachFix_bound (todo : list Finding) :
  forall (content : string) (n : nat),
    n <= snd (Fixer.applyEachFix todo content n) <= n + length todo
    /\ (snd (Fixer.applyEachFix todo content n) = n ->
        fst (Fixer.applyEachFix todo content n) = content).
Proof.
  induction todo as [|finding rest IH]; intros content n.
  - cbn. split; [lia|reflexivity].
  - cbn [Fixer.applyEachFix length].
    destruct (String.eqb_spec (Fixer.applyPatternReplacement content finding) content)
      as [Heq|Hne].
    + destruct (IH (Fixer.applyPatternReplacement content finding) n) as [Hb Hz].
      split; [lia|]. intros Hn. rewrite (Hz Hn). exact Heq.
    + destruct (IH (Fixer.applyPatternReplacement content finding) (S n)) as [Hb Hz].
      split; [lia|]. intros Hn. lia.
Qed.

(** X18.  The count that [fixFile] reports is at most the number of
    findings; the sizes it reports are those of the text read and of the
    text after all substitutions; when the count is zero no substitution
    changed the text, the file is not written and the two sizes agree. *)
Theorem fixFile_count_bounded (filePath : string) (findings : list Finding)
    (st st' : Fixer.t) (result : Fixer.FileResult) :
  Fixer.fixFile filePath findings st = (Return result, st') ->
  Fixer.fr_patternsReplaced result <= length findings
  /\ Fixer.fr_filePath result = filePath
  /\ Fixer.fr_dryRun result = Fixer.dryRun (Fixer.options st)
  /\ exists original,
       FS.readFile filePath (Fixer.fs st) = Return original
       /\ Fixer.fr_originalSize result = String.length original
       /\ Fixer.fr_modifiedSize result
          = String.length (fold_left Fixer.applyPatternReplacement
                             (Fixer.sortFindings findings) original)
       /\ (Fixer.fr_patternsReplaced result = 0 ->
           st' = st
           /\ fold_left Fixer.applyPatternReplacement
                (Fixer.sortFindings findings) original = original).
Proof.
  unfold Fixer.fixFile, Fixer.catch, Fixer.bind, Fixer.query, Fixer.getOptions,
    Fixer.ret, Fixer.throw.
  intros H.
  destruct (FS.readFile filePath (Fixer.fs st)) as [original|e] eqn:Hread;
    [|discriminate].
  cbn zeta in H.
  destruct (applyEachFix_bound (Fixer.sortFindings findings) original 0)
    as [Hbound Hzero].
  rewrite (Permutation_length (sortFindings_perm findings)) in Hbound.
  rewrite applyEachFix_fold in H, Hzero.
  destruct (negb (Fixer.dryRun (Fixer.options st))
            && negb (String.eqb
                       (fold_left Fixer.applyPatternReplacement
                          (Fixer.sortFindings findings) original) original))
    eqn:Hwrite.
  - match type of H with
    | (let (_, _) := (let (_, _) := ?run in _) in _) = _ =>
        destruct run as [[[]|e] st1]
    end; [|discriminate].
    injection H as <- <-. cbn. split_and!; try reflexivity; [lia|].
    exists original. split_and!; try reflexivity.
    intros Hn. specialize (Hzero Hn). rewrite Hzero, String.eqb_refl in Hwrite.
    rewrite andb_false_r in Hwrite. discriminate.
  - injection H as <- <-. cbn. split_and!; try reflexivity; [lia|].
    exists original. split_and!; try reflexivity.
    intros Hn. split; [reflexivity|]. exact (Hzero Hn).
Qed.

End FixFileFacts.

Lemma fixFile_touches_only_its_file_witness :
  sameElsewhere "/p/a.js" (Fixer.fs realFixer)
    (Fixer.fs (snd (Fixer.fixFile (E := MiniRegExp.engine) "/p/a.js" [findingA]
                      realFixer))).
Proof.
  exact (proj1 (proj2 (proj2 (proj2
    (fixFile_touches_only_its_file (E := MiniRegExp.engine) "/p/a.js" [findingA]
       realFixer _ _ (surjective_pairing _)))))).
Defined.

Lemma fixFile_count_bounded_witness :
  let run := Fixer.fixFile (E := MiniRegExp.engine) "/p/a.js" [findingA] realFixer in
  exists result, fst run = Return result /\ Fixer.fr_patternsReplaced result <= 1.
Proof.
  cbn zeta.
  pose (result := Fixer.mkFileResult "/p/a.js" 1 10 12 false).
  assert (H : Fixer.fixFile (E := MiniRegExp.engine) "/p/a.js" [findingA] realFixer
              = (Return result,
                 snd (Fixer.fixFile (E := MiniRegExp.engine) "/p/a.js" [findingA]
                        realFixer)))
    by (vm_compute; reflexivity).
  exists result. split; [rewrite H; reflexivity|].
  exact (proj1 (fixFile_count_bounded _ _ _ _ _ H)).
Defined.

(** ** Frames of the fixer's computations *)
Section Frames.
Variable R : Fixer.t -> Fixer.t -> Prop.
Hypothesis R_refl : forall st, R st st.
Hypothesis R_trans : forall a b c, R a b -> R b c -> R a c.

Lemma frame_ret {A} (a : A) : framed R (Fixer.ret a).
Proof. intros st out st' [= _ <-]. apply R_refl. Qed.

Lemma frame_throw {A} (e : string) : framed R (@Fixer.throw A e).
Proof. intros st out st' [= _ <-]. apply R_refl. Qed.

Lemma frame_query {A} (f : gmap string node -> result A) : framed R (Fixer.query f).
Proof. intros st out st' [= _ <-]. apply R_refl. Qed.

Lemma frame_getOptions : framed R Fixer.getOptions.
Proof. intros st out st' [= _ <-]. apply R_refl. Qed.

Lemma frame_bind {A B} (m : Fixer.M A) (k : A -> Fixer.M B) :
  framed R m -> (forall a, framed R (k a)) -> framed R (Fixer.bind m k).
Proof.
  intros Hm Hk st out st'. unfold Fixer.bind.
  destruct (m st) as [[a|e] st1] eqn:Hrun.
  - intros Hrest. exact (R_trans _ _ _ (Hm _ _ _ Hrun) (Hk a _ _ _ Hrest)).
  - intros [= _ <-]. exact (Hm _ _ _ Hrun).
Qed.

Lemma frame_catch {A} (m : Fixer.M A) (handler : string -> Fixer.M A) :
  framed R m -> (forall e, framed R (handler e)) -> framed R (Fixer.catch m handler).
Proof.
  intros Hm Hh st out st'. unfold Fixer.catch.
  destruct (m st) as [[a|e] st1] eqn:Hrun.
  - intros [= _ <-]. exact (Hm _ _ _ Hrun).
  - intros Hrest. exact (R_trans _ _ _ (Hm _ _ _ Hrun) (Hh e _ _ _ Hrest)).
Qed.

Lemma throw_of_framed {A} (m : Fixer.M A) : framed R m -> framedThrow R m.
Proof. intros Hm st e st' Hrun. exact (Hm _ _ _ Hrun). Qed.

Lemma throw_bind {A B} (m : Fixer.M A) (k : A -> Fixer.M B) :
  framed R m -> (forall a, framedThrow R (k a)) -> framedThrow R (Fixer.bind m k).
Proof.
  intros Hm Hk st e st'. unfold Fixer.bind.
  destruct (m st) as [[a|e1] st1] eqn:Hrun.
  - intros Hrest. exact (R_trans _ _ _ (Hm _ _ _ Hrun) (Hk a _ _ _ Hrest)).
  - intros [= _ <-]. exact (Hm _ _ _ Hrun).
Qed.

End Frames.

Lemma keepsExisting_refl (files : gmap string node) : keepsExisting files files.
Proof. intros q n H. exact H. Qed.

Lemma keepsExisting_trans (a b c : gmap string node) :
  keepsExisting a b -> keepsExisting b c -> keepsExisting a c.
Proof. intros Hab Hbc q n H. apply Hbc, Hab, H. Qed.

Lemma keepsFiles_refl (st : Fixer.t) : keepsFiles st st.
Proof. split_and!; try reflexivity. apply keepsExisting_refl. Qed.

Lemma keepsFiles_trans (a b c : Fixer.t) :
  keepsFiles a b -> keepsFiles b c -> keepsFiles a c.
Proof.
  intros (Ho & Hf & Hk) (Ho' & Hf' & Hk'). split_and!; try congruence.
  exact (keepsExisting_trans _ _ _ Hk Hk').
Qed.

Lemma sameRegistry_refl (st : Fixer.t) : sameRegistry st st.
Proof. reflexivity. Qed.

Lemma sameRegistry_trans (a b c : Fixer.t) :
  sameRegistry a b -> sameRegistry b c -> sameRegistry a c.
Proof. unfold sameRegistry. congruence. Qed.

Lemma keepsFiles_update (f : gmap string node -> result (gmap string node)) :
  (forall files files', f files = Return files' -> keepsExisting files files') ->
  framed keepsFiles (Fixer.update f).
Proof.
  intros Hf st out st'. unfold Fixer.update.
  destruct (f (Fixer.fs st)) as [files|e] eqn:Hrun; intros [= _ <-].
  - split_and!; try reflexivity. cbn. exact (Hf _ _ Hrun).
  - apply keepsFiles_refl.
Qed.

Lemma ensureDir_keeps (dir : string) (files files' : gmap string node) :
  FS.ensureDir dir files = Return files' -> keepsExisting files files'.
Proof.
  intros H q n Hq. destruct (ensureDir_success _ _ _ H) as (_ & Hother & Hsame).
  destruct (String.eqb_spec q dir) as [->|Hne].
  - rewrite (Hsame _ Hq). exact Hq.
  - rewrite (Hother _ Hne). exact Hq.
Qed.

Lemma copy_keep_keeps (src dest : string) (files files' : gmap string node) :
  FS.copy src dest false files = Return files' -> keepsExisting files files'.
Proof.
  intros H q n Hq.
  destruct (copy_keep_success _ _ _ _ H) as (s & _ & [[Hnone ->]|(d & _ & _ & _ & ->)]).
  - rewrite lookup_insert_ne; [exact Hq|]. intros <-. congruence.
  - exact Hq.
Qed.

Lemma sameRegistry_update (f : gmap string node -> result (gmap string node)) :
  framed sameRegistry (Fixer.update f).
Proof.
  intros st out st'. unfold Fixer.update.
  destruct (f (Fixer.fs st)); intros [= _ <-]; reflexivity.
Qed.

Ltac frame_steps refl trans prims :=
  repeat first
    [ apply (frame_ret _ refl)
    | apply (frame_throw _ refl)
    | apply (frame_query _ refl)
    | apply (frame_getOptions _ refl)
    | prims
    | apply (frame_catch _ trans); [|intros ?]
    | apply (frame_bind _ trans); [|intros ?]
    | match goal with
      | |- framed _ (if ?b then _ else _) => destruct b
      end
    | progress cbn zeta ].

Section BackupFrames.
Context {E : RegExpEngine}.
Variable clock : nat -> string.

Lemma keepsFiles_newDate : framed keepsFiles (Fixer.newDate clock).
Proof.
  intros st out st' [= _ <-]. split_and!; try reflexivity.
  apply keepsExisting_refl.
Qed.

Lemma keepsFiles_register (filePath backupPath : string) :
  framed keepsFiles (Fixer.register filePath backupPath).
Proof.
  intros st out st' [= _ <-]. split_and!; try reflexivity.
  apply keepsExisting_refl.
Qed.

Lemma sameRegistry_newDate : framed sameRegistry (Fixer.newDate clock).
Proof. intros st out st' [= _ <-]. reflexivity. Qed.

Lemma keepsFiles_createBackup (filePath : string) :
  framed keepsFiles (Fixer.createBackup clock filePath).
Proof.
  unfold Fixer.createBackup, Fixer.checkDiskSpace.
  frame_steps keepsFiles_refl keepsFiles_trans
    ltac:(first [ apply keepsFiles_newDate
                | apply keepsFiles_register
                | apply keepsFiles_update; apply ensureDir_keeps
                | apply keepsFiles_update; apply copy_keep_keeps ]).
Qed.

Lemma createBackup_throw (filePath : string) (st st' : Fixer.t) (e : string) :
  Fixer.createBackup clock filePath st = (Throw e, st') ->
  sameRegistry st st' /\ exists message, e = backupFailed filePath message.
Proof.
  unfold Fixer.createBackup, Fixer.catch.
  match goal with
  | |- context [match ?body st with _ => _ end] =>
      assert (Hbody : framedThrow sameRegistry body);
      [|destruct (body st) as [[b|message] st1] eqn:Hrun]
  end.
  - apply (throw_bind _ sameRegistry_trans);
      [frame_steps sameRegistry_refl sameRegistry_trans fail|intros ?].
    apply (throw_bind _ sameRegistry_trans);
      [frame_steps sameRegistry_refl sameRegistry_trans fail|intros stats].
    destruct (negb (FS.isFile stats)).
    { apply throw_of_framed. apply (frame_throw _ sameRegistry_refl). }
    apply (throw_bind _ sameRegistry_trans);
      [frame_steps sameRegistry_refl sameRegistry_trans fail|intros o].
    cbn zeta.
    apply (throw_bind _ sameRegistry_trans);
      [apply sameRegistry_update|intros ?].
    apply (throw_bind _ sameRegistry_trans);
      [apply sameRegistry_newDate|intros iso].
    cbn zeta.
    apply (throw_bind _ sameRegistry_trans).
    { unfold Fixer.checkDiskSpace.
      frame_steps sameRegistry_refl sameRegistry_trans fail. }
    intros ?.
    apply (throw_bind _ sameRegistry_trans);
      [apply sameRegistry_update|intros ?].
    intros s e0 s' Hnever. discriminate Hnever.
  - discriminate.
  - intros [= <- <-]. split; [exact (Hbody _ _ _ Hrun)|]. eexists. reflexivity.
Qed.

Lemma append_nonempty (a b : string) : b <> EmptyString -> a +:+ b <> EmptyString.
Proof. destruct a; [exact (fun H => H)|discriminate]. Qed.

Lemma backupPathFor_nonempty (o : Fixer.Options) (iso filePath : string) :
  backupPathFor o iso filePath <> EmptyString.
Proof.
  unfold backupPathFor, Fixer.join.
  assert (Hbackup : forall a, a +:+ ".backup" <> EmptyString).
  { intros a. apply append_nonempty. discriminate. }
  destruct (String.eqb (Fixer.backupDir o) "/"),
    (Fixer.createTimestampedBackups o);
    repeat (apply append_nonempty); try apply Hbackup; try discriminate.
Qed.

(** X19.  [createBackup] changes no file that is there: whatever the
    outcome, every path that existed has the node it had, and the options
    and the set of fixed files are the same.  A failed backup registers
    nothing and its message names the file; after a successful one
    [getBackupInfo] gives the path that was returned. *)
Theorem createBackup_keeps_existing_files (filePath : string) (st st' : Fixer.t)
    (out : result string) :
  Fixer.createBackup clock filePath st = (out, st') ->
  Fixer.options st' = Fixer.options st
  /\ Fixer.getFixedFiles st' = Fixer.getFixedFiles st
  /\ keepsExisting (Fixer.fs st) (Fixer.fs st')
  /\ (forall e, out = Throw e ->
                Fixer.backupRegistry st' = Fixer.backupRegistry st
                /\ exists message, e = backupFailed filePath message)
  /\ (forall backupPath,
         out = Return backupPath ->
         Fixer.getBackupInfo filePath st'
         = Some (Fixer.mkBackupInfo filePath backupPath true)).
Proof.
  intros Hrun.
  destruct (keepsFiles_createBackup filePath _ _ _ Hrun) as (Ho & Hf & Hk).
  split_and!; try assumption.
  - intros e ->. exact (createBackup_throw _ _ _ _ Hrun).
  - intros backupPath ->.
    destruct (createBackup_success clock _ _ _ _ Hrun) as (Hb & _ & _ & _ & Hreg & _).
    unfold Fixer.getBackupInfo. rewrite Hreg, JSMap_get_set_eq.
    destruct (String.eqb_spec backupPath EmptyString) as [Hempty|_]; [|reflexivity].
    exfalso. rewrite Hb in Hempty. exact (backupPathFor_nonempty _ _ _ Hempty).
Qed.

End BackupFrames.

Lemma createBackup_keeps_existing_files_witness :
  keepsExisting (Fixer.fs realFixer)
    (Fixer.fs (snd (Fixer.createBackup frozenClock "/p/a.js" realFixer))).
Proof.
  exact (proj1 (proj2 (proj2
    (createBackup_keeps_existing_files frozenClock "/p/a.js" realFixer _ _
       (surjective_pairing _))))).
Defined.

Section RestoreFacts.
Context {E : RegExpEngine}.
Variable clock : nat -> string.

Lemma delete_not_in (x : string) (s : list string) : ~ In x (JSSet.delete x s).
Proof.
  unfold JSSet.delete. intros H. apply filter_In in H. destruct H as [_ H].
  rewrite String.eqb_refl in H. discriminate.
Qed.

Lemma delete_subset (x q : string) (s : list string) :
  In q (JSSet.delete x s) -> In q s.
Proof. unfold JSSet.delete. intros H. apply filter_In in H. tauto. Qed.

(** X20.  Backup, fix, restore: when [createBackup] has copied the file to
    a new path, then whatever [fixFile] does to the file afterwards,
    [restoreFromBackup] on it succeeds and puts back the node that was
    there, content and permissions; apart from the backup directory and the
    backup, which now holds the same node, the file system is as it was
    before the backup, and the file is not listed as fixed. *)
Theorem backup_fix_restore_round_trip (filePath backupPath : string)
    (findings : list Finding) (st st1 st2 : Fixer.t)
    (out : result Fixer.FileResult) :
  Fixer.createBackup clock filePath st = (Return backupPath, st1) ->
  Fixer.fs st !! backupPath = None ->
  Fixer.fixFile filePath findings st1 = (out, st2) ->
  let r := fst (Fixer.restoreFromBackup [filePath] st2) in
  let st3 := snd (Fixer.restoreFromBackup [filePath] st2) in
  Fixer.filesRestored r = 1
  /\ Fixer.restoreErrors r = []
  /\ Fixer.fs st3 !! filePath = Fixer.fs st !! filePath
  /\ Fixer.fs st3 !! backupPath = Fixer.fs st !! filePath
  /\ (forall q, q <> backupPath -> q <> Fixer.backupDir (Fixer.options st) ->
                Fixer.fs st3 !! q = Fixer.fs st !! q)
  /\ ~ In filePath (Fixer.getFixedFiles st3).
Proof.
  intros Hbackup Hfresh Hfix.
  destruct (createBackup_success clock _ _ _ _ Hbackup)
    as (_ & _ & _ & _ & Hreg & Hne & content & mode & dirMode
        & Hp & Hread & Hp1 & Hdir & _ & Hnew & _ & Hother).
  specialize (Hnew Hfresh).
  destruct (fixFile_frame _ _ _ _ _ Hfix) as (_ & Hreg2 & _ & Helse & Hmode & _).
  destruct (Hmode _ _ Hp1) as [content' Hp2].
  assert (Hb2 : Fixer.fs st2 !! backupPath = Some (File content mode)).
  { rewrite (Helse backupPath) by congruence. exact Hnew. }
  assert (Hget : JSMap.get filePath (Fixer.backupRegistry st2) = Some backupPath).
  { rewrite Hreg2, Hreg. apply JSMap_get_set_eq. }
  assert (Hnonempty : String.eqb backupPath EmptyString = false).
  { apply String.eqb_neq. intros ->.
    destruct (createBackup_success clock _ _ _ _ Hbackup) as (Hb & _).
    symmetry in Hb. exact (backupPathFor_nonempty _ _ _ Hb). }
  assert (Hpd : filePath <> Fixer.backupDir (Fixer.options st)).
  { intros Heq. rewrite <- Heq in Hdir. congruence. }
  assert (Hrestore :
            Fixer.restoreFromBackup [filePath] st2
            = (Fixer.mkRestoreResults 1 [],
               Fixer.mk (Fixer.options st2) (Fixer.backupRegistry st2)
                 (JSSet.delete filePath (Fixer.fixedFiles st2))
                 (<[filePath := File content mode]> (Fixer.fs st2))
                 (Fixer.tick st2))).
  { unfold Fixer.restoreFromBackup, Fixer.restoreEach, Fixer.restoreOne.
    rewrite Hget, Hnonempty. unfold FS.pathExists. rewrite Hb2. cbn [negb].
    unfold Fixer.bind, Fixer.update, FS.copy. rewrite Hb2, Hp2.
    assert (Hneq : String.eqb backupPath filePath = false)
      by (apply String.eqb_neq; congruence).
    rewrite Hneq. cbn [FS.isFile negb andb]. rewrite Hread. reflexivity. }
  cbn zeta. rewrite Hrestore. cbn [fst snd Fixer.filesRestored Fixer.restoreErrors
                                    Fixer.fs Fixer.getFixedFiles Fixer.fixedFiles].
  split_and!; try reflexivity.
  - rewrite lookup_insert_eq. symmetry. exact Hp.
  - rewrite lookup_insert_ne by congruence. rewrite Hb2. symmetry. exact Hp.
  - intros q Hqb Hqd. destruct (String.eqb_spec q filePath) as [->|Hqp].
    + rewrite lookup_insert_eq. symmetry. exact Hp.
    + rewrite lookup_insert_ne by congruence. rewrite (Helse q Hqp).
      exact (Hother q Hqb Hqd).
  - apply delete_not_in.
Qed.

Lemma restoreOne_frame (filePath : string) (st st' : Fixer.t) (out : result unit) :
  Fixer.restoreOne filePath st = (out, st') ->
  Fixer.backupRegistry st' = Fixer.backupRegistry st
  /\ Fixer.options st' = Fixer.options st
  /\ (forall q, In q (Fixer.fixedFiles st') -> In q (Fixer.fixedFiles st))
  /\ (Fixer.getBackupInfo filePath st = None ->
      out = Throw ("No backup found for " +:+ filePath) /\ st' = st).
Proof.
  unfold Fixer.restoreOne, Fixer.getBackupInfo.
  destruct (JSMap.get filePath (Fixer.backupRegistry st)) as [backupPath|].
  2:{ intros [= <- <-]. split_and!; auto. }
  destruct (String.eqb backupPath EmptyString).
  { intros [= <- <-]. split_and!; auto. }
  destruct (negb (FS.pathExists backupPath (Fixer.fs st))).
  { intros [= <- <-]. split_and!; auto. discriminate. }
  unfold Fixer.bind, Fixer.update, Fixer.unregisterFixed.
  destruct (FS.copy backupPath filePath true (Fixer.fs st)); intros [= <- <-];
    cbn; split_and!; auto; try discriminate.
  intros q. apply delete_subset.
Qed.

Lemma restoreEach_accounts (paths : list string) :
  forall (results : Fixer.RestoreResults) (st : Fixer.t),
    let r := fst (Fixer.restoreEach paths results st) in
    let st' := snd (Fixer.restoreEach paths results st) in
    Fixer.filesRestored r + length (Fixer.restoreErrors r)
    = Fixer.filesRestored results + length (Fixer.restoreErrors results)
      + length paths
    /\ (forall p e, In (p, e) (Fixer.restoreErrors r) ->
                    In (p, e) (Fixer.restoreErrors results) \/ In p paths)
    /\ (forall p e, In (p, e) (Fixer.restoreErrors results) ->
                    In (p, e) (Fixer.restoreErrors r))
    /\ (forall p, In p paths -> Fixer.getBackupInfo p st = None ->
                  In (p, "No backup found for " +:+ p) (Fixer.restoreErrors r))
    /\ Fixer.backupRegistry st' = Fixer.backupRegistry st
    /\ Fixer.options st' = Fixer.options st
    /\ (forall q, In q (Fixer.fixedFiles st') -> In q (Fixer.fixedFiles st)).
Proof.
  induction paths as [|filePath rest IH]; intros results st; cbn zeta.
  - cbn. split_and!; auto. intros p [].
  - cbn [Fixer.restoreEach length].
    destruct (Fixer.restoreOne filePath st) as [[[]|message] st1] eqn:Hone;
      destruct (restoreOne_frame _ _ _ _ Hone) as (Hreg & Hopt & Hfixed & Hnone);
      match goal with
      | |- context [Fixer.restoreEach rest ?res st1] =>
          destruct (IH res st1) as (Hsum & Hfrom & Hkeep & Hmissing & Hreg' & Hopt' & Hfixed')
      end;
      cbn [Fixer.filesRestored Fixer.restoreErrors] in *.
    + split_and!.
      * lia.
      * intros p e Hin. destruct (Hfrom p e Hin) as [H|H]; [left|right; right]; exact H.
      * exact Hkeep.
      * intros p [<-|Hin] Hinfo.
        -- destruct (Hnone Hinfo) as [Habs _]. discriminate.
        -- apply Hmissing; [exact Hin|].
           unfold Fixer.getBackupInfo in *. rewrite Hreg. exact Hinfo.
      * congruence.
      * congruence.
      * auto.
    + split_and!.
      * rewrite Hsum, length_app. cbn. lia.
      * intros p e Hin. destruct (Hfrom p e Hin) as [H|H]; [|right; right; exact H].
        apply in_app_or in H. destruct H as [H|[[= <- <-]|[]]]; [left; exact H|].
        right. left. reflexivity.
      * intros p e Hin. apply Hkeep, in_or_app. left. exact Hin.
      * intros p [<-|Hin] Hinfo.
        -- destruct (Hnone Hinfo) as [[= ->] _]. apply Hkeep, in_or_app.
           right. left. reflexivity.
        -- apply Hmissing; [exact Hin|].
           unfold Fixer.getBackupInfo in *. rewrite Hreg. exact Hinfo.
      * congruence.
      * congruence.
      * auto.
Qed.

(** X21.  [restoreFromBackup] accounts for every path it is given: each
    one is either restored or reported, so the two numbers add up to the
    number of paths; errors are reported for given paths only, and a path
    for which [getBackupInfo] knows no backup is reported as such.  The
    registry of backups is not changed (only [rollbackChanges] clears it),
    and no file is added to the fixed files. *)
Theorem restoreFromBackup_accounts_for_every_path (paths : list string) (st : Fixer.t) :
  let r := fst (Fixer.restoreFromBackup paths st) in
  let st' := snd (Fixer.restoreFromBackup paths st) in
  Fixer.filesRestored r + length (Fixer.restoreErrors r) = length paths
  /\ (forall p e, In (p, e) (Fixer.restoreErrors r) -> In p paths)
  /\ (forall p, In p paths -> Fixer.getBackupInfo p st = None ->
                In (p, "No backup found for " +:+ p) (Fixer.restoreErrors r))
  /\ Fixer.backupRegistry st' = Fixer.backupRegistry st
  /\ Fixer.options st' = Fixer.options st
  /\ (forall q, In q (Fixer.getFixedFiles st') -> In q (Fixer.getFixedFiles st)).
Proof.
  cbn zeta. unfold Fixer.restoreFromBackup.
  destruct (restoreEach_accounts paths (Fixer.mkRestoreResults 0 []) st)
    as (Hsum & Hfrom & _ & Hmissing & Hreg & Hopt & Hfixed).
  cbn zeta in *. cbn [Fixer.filesRestored Fixer.restoreErrors length] in *.
  split_and!; auto.
  intros p e Hin. destruct (Hfrom p e Hin) as [[]|H]. exact H.
Qed.

(** X22.  [rollbackChanges] ends the session: it tries every registered
    path once, and afterwards no file is listed as fixed, no backup is
    known for any path, and a second rollback restores nothing, reports
    nothing and changes nothing. *)
Theorem rollbackChanges_clears_session (st : Fixer.t) :
  let r := fst (Fixer.rollbackChanges st) in
  let st' := snd (Fixer.rollbackChanges st) in
  Fixer.filesRestored r + length (Fixer.restoreErrors r)
  = length (Fixer.backupRegistry st)
  /\ Fixer.getFixedFiles st' = []
  /\ (forall p, Fixer.getBackupInfo p st' = None)
  /\ Fixer.options st' = Fixer.options st
  /\ Fixer.rollbackChanges st' = (Fixer.mkRestoreResults 0 [], st').
Proof.
  cbn zeta. unfold Fixer.rollbackChanges, Fixer.restoreFromBackup.
  destruct (restoreEach_accounts (JSMap.keys (Fixer.backupRegistry st))
              (Fixer.mkRestoreResults 0 []) st)
    as (Hsum & _ & _ & _ & _ & Hopt & _).
  cbn zeta in Hsum, Hopt.
  destruct (Fixer.restoreEach (JSMap.keys (Fixer.backupRegistry st))
              (Fixer.mkRestoreResults 0 []) st) as [results st1].
  cbn [fst snd Fixer.filesRestored Fixer.restoreErrors length] in *.
  unfold JSMap.keys in Hsum. rewrite length_map in Hsum.
  split_and!; auto.
Qed.

End RestoreFacts.

Lemma backup_fix_restore_round_trip_witness :
  let st1 := snd (Fixer.createBackup frozenClock "/p/a.js" realFixer) in
  let st2 := snd (Fixer.fixFile (E := MiniRegExp.engine) "/p/a.js" [findingA] st1) in
  FS.readFile "/p/a.js" (Fixer.fs st2) = Return "const x = 1;"
  /\ Fixer.fs (snd (Fixer.restoreFromBackup [ "/p/a.js" ] st2)) !! "/p/a.js"
     = Some (File "var x = 1;" 420%N).
Proof.
  cbn zeta.
  assert (H1 : Fixer.createBackup frozenClock "/p/a.js" realFixer
               = (Return "/p/.backups/a.js.2025-08-14T15-55-15-707Z.backup",
                  snd (Fixer.createBackup frozenClock "/p/a.js" realFixer)))
    by (vm_compute; reflexivity).
  assert (H2 : Fixer.fs realFixer
                 !! "/p/.backups/a.js.2025-08-14T15-55-15-707Z.backup" = None)
    by (vm_compute; reflexivity).
  split; [vm_compute; reflexivity|].
  rewrite (proj1 (proj2 (proj2
             (backup_fix_restore_round_trip (E := MiniRegExp.engine) frozenClock
                _ _ [findingA] realFixer _ _ _ H1 H2 (surjective_pairing _))))).
  vm_compute. reflexivity.
Defined.

(** ** Grouping, and the results of a run *)

Lemma JSMap_get_set_ne {V : Type} (k k' : string) (v : V) (m : list (string * V)) :
  k' <> k -> JSMap.get k' (JSMap.set k v m) = JSMap.get k' m.
Proof.
  intros Hne. induction m as [|[k0 v0] m IH]; cbn.
  - destruct (String.eqb_spec k k'); [congruence|reflexivity].
  - destruct (String.eqb_spec k0 k) as [->|Hk0]; cbn.
    + destruct (String.eqb_spec k k'); [congruence|reflexivity].
    + destruct (String.eqb_spec k0 k'); [reflexivity|exact IH].
Qed.

Lemma JSMap_keys_set_present {V : Type} (k : string) (v v0 : V) (m : list (string * V)) :
  JSMap.get k m = Some v0 -> JSMap.keys (JSMap.set k v m) = JSMap.keys m.
Proof.
  induction m as [|[k0 v1] m IH]; cbn; [discriminate|].
  destruct (String.eqb_spec k0 k) as [->|Hk0]; cbn; [reflexivity|].
  intros H. f_equal. exact (IH H).
Qed.

Lemma JSMap_get_app {V : Type} (p k : string) (v : V) (m : list (string * V)) :
  JSMap.get p (m ++ [(k, v)])
  = match JSMap.get p m with
    | Some x => Some x
    | None => if String.eqb k p then Some v else None
    end.
Proof.
  induction m as [|[k0 v0] m IH]; cbn; [reflexivity|].
  destruct (String.eqb k0 p); [reflexivity|exact IH].
Qed.

Lemma JSMap_get_none {V : Type} (k : string) (m : list (string * V)) :
  JSMap.get k m = None <-> ~ In k (JSMap.keys m).
Proof.
  induction m as [|[k0 v0] m IH]; cbn; [tauto|].
  destruct (String.eqb_spec k0 k) as [->|Hne].
  - split; [discriminate|]. intros H. exfalso. apply H. left. reflexivity.
  - rewrite IH. tauto.
Qed.

Lemma groupsOf_step (done : list Finding) (grouped : list (string * list Finding))
    (finding : Finding) :
  groupsOf done grouped ->
  match JSMap.get (f_filePath finding) grouped with
  | Some group =>
      groupsOf (done ++ [finding])
        (JSMap.set (f_filePath finding) (group ++ [finding]) grouped)
  | None =>
      JSObject.isInherited (f_filePath finding) = false ->
      groupsOf (done ++ [finding]) (grouped ++ [(f_filePath finding, [finding])])
  end.
Proof.
  intros (Hnodup & Hget & Hown).
  set (k := f_filePath finding).
  assert (Hself : hasPath k finding = true) by apply String.eqb_refl.
  assert (Hother : forall p, p <> k -> hasPath p finding = false).
  { intros p Hp. apply String.eqb_neq. intros Heq. apply Hp. symmetry. exact Heq. }
  assert (Hdone : forall p,
             existsb (hasPath p) (done ++ [finding])
             = existsb (hasPath p) done || hasPath p finding).
  { intros p. rewrite existsb_app. cbn. now rewrite orb_false_r. }
  assert (Hfilter : forall p,
             List.filter (hasPath p) (done ++ [finding])
             = List.filter (hasPath p) done
                 ++ (if hasPath p finding then [finding] else [])).
  { intros p. rewrite List.filter_app. cbn. destruct (hasPath p finding); reflexivity. }
  destruct (JSMap.get k grouped) as [group|] eqn:Hk.
  - pose proof (Hget k) as Hgk. rewrite Hk in Hgk.
    destruct (existsb (hasPath k) done) eqn:Hex; [|discriminate].
    injection Hgk as ->.
    split_and!.
    + rewrite (JSMap_keys_set_present _ _ _ _ Hk). exact Hnodup.
    + intros p. rewrite Hdone, Hfilter. destruct (String.eqb_spec p k) as [->|Hp].
      * rewrite JSMap_get_set_eq, Hex, Hself. reflexivity.
      * rewrite (JSMap_get_set_ne _ _ _ _ Hp), Hget, (Hother p Hp), orb_false_r,
          app_nil_r.
        reflexivity.
    + intros p. rewrite (JSMap_keys_set_present _ _ _ _ Hk). apply Hown.
  - intros Hinh. pose proof (proj1 (JSMap_get_none _ _) Hk) as Hnotin.
    split_and!.
    + unfold JSMap.keys in *. rewrite map_app. cbn.
      apply NoDup_rev in Hnodup. rewrite <- (rev_involutive (map fst grouped ++ [k])).
      apply NoDup_rev. rewrite rev_app_distr. cbn. constructor.
      * rewrite <- in_rev. exact Hnotin.
      * exact Hnodup.
    + intros p. rewrite Hdone, Hfilter, JSMap_get_app, Hget.
      destruct (String.eqb_spec k p) as [<-|Hp].
      * pose proof (Hget k) as Hgk. rewrite Hk in Hgk.
        destruct (existsb (hasPath k) done) eqn:Hex; [discriminate|].
        rewrite Hself. cbn.
        assert (Hnil : List.filter (hasPath k) done = []).
        { clear -Hex. induction done as [|d done IH]; [reflexivity|].
          cbn in *. destruct (hasPath k d); [discriminate|]. apply IH, Hex. }
        rewrite Hnil. reflexivity.
      * rewrite (Hother p) by congruence. rewrite orb_false_r, app_nil_r.
        destruct (existsb (hasPath p) done); reflexivity.
    + intros p. unfold JSMap.keys. rewrite map_app. intros Hin.
      apply in_app_or in Hin. destruct Hin as [Hin|[<-|[]]]; [|exact Hinh].
      apply Hown. exact Hin.
Qed.

Lemma groupInto_spec (rest : list Finding) :
  forall (done : list Finding) (grouped : list (string * list Finding)),
    groupsOf done grouped ->
    match Fixer.groupInto grouped rest with
    | Return grouped' => groupsOf (done ++ rest) grouped'
    | Throw e =>
        e = "grouped[finding.filePath].push is not a function"
        /\ exists f, In f rest /\ JSObject.isInherited (f_filePath f) = true
    end.
Proof.
  induction rest as [|finding rest IH]; intros done grouped Hinv.
  - cbn. rewrite app_nil_r. exact Hinv.
  - cbn [Fixer.groupInto]. pose proof (groupsOf_step _ _ finding Hinv) as Hstep.
    destruct (JSMap.get (f_filePath finding) grouped) as [group|].
    + specialize (IH _ _ Hstep). rewrite <- app_assoc in IH. cbn in IH.
      destruct (Fixer.groupInto _ rest); [exact IH|].
      destruct IH as [He [f [Hin Hf]]]. split; [exact He|].
      exists f. split; [right; exact Hin|exact Hf].
    + destruct (JSObject.isInherited (f_filePath finding)) eqn:Hinh.
      * split; [reflexivity|]. exists finding. split; [left; reflexivity|exact Hinh].
      * specialize (IH _ _ (Hstep eq_refl)). rewrite <- app_assoc in IH. cbn in IH.
        destruct (Fixer.groupInto _ rest); [exact IH|].
        destruct IH as [He [f [Hin Hf]]]. split; [exact He|].
        exists f. split; [right; exact Hin|exact Hf].
Qed.

Lemma groupsOf_nil : groupsOf [] [].
Proof.
  split_and!; [constructor|reflexivity|intros p []].
Qed.

Lemma groupFindingsByFile_spec (findings : list Finding) :
  match Fixer.groupFindingsByFile findings with
  | Return grouped => groupsOf findings grouped
  | Throw e =>
      e = "grouped[finding.filePath].push is not a function"
      /\ exists f, In f findings /\ JSObject.isInherited (f_filePath f) = true
  end.
Proof. exact (groupInto_spec findings [] [] groupsOf_nil). Qed.

(** X23.  [groupFindingsByFile] partitions the findings by path: the
    result has one property for each path that occurs, holding the findings
    of that path in their order, and no other property.  It fails, with a
    [TypeError], exactly when a finding's path names a property that every
    object inherits, such as [constructor]. *)
Theorem groupFindingsByFile_partitions (findings : list Finding) :
  match Fixer.groupFindingsByFile findings with
  | Return grouped =>
      List.NoDup (JSMap.keys grouped)
      /\ (forall p, JSMap.get p grouped
                    = if existsb (hasPath p) findings
                      then Some (List.filter (hasPath p) findings)
                      else None)
      /\ (forall f, In f findings -> JSObject.isInherited (f_filePath f) = false)
  | Throw e =>
      e = "grouped[finding.filePath].push is not a function"
      /\ exists f, In f findings /\ JSObject.isInherited (f_filePath f) = true
  end.
Proof.
  pose proof (groupFindingsByFile_spec findings) as H.
  destruct (Fixer.groupFindingsByFile findings) as [grouped|e]; [|exact H].
  destruct H as (Hnodup & Hget & Hown). split_and!; [exact Hnodup|exact Hget|].
  intros f Hin. apply Hown. destruct (in_dec string_dec (f_filePath f) (JSMap.keys grouped)) as [Hk|Hk]; [exact Hk|exfalso]. apply JSMap_get_none in Hk. revert Hk.
  rewrite Hget.
  assert (Hex : existsb (hasPath (f_filePath f)) findings = true).
  { apply existsb_exists. exists f. split; [exact Hin|apply String.eqb_refl]. }
  rewrite Hex. discriminate.
Qed.

Lemma JSSet_add_in (p : string) (s : list string) : In p (JSSet.add p s).
Proof.
  unfold JSSet.add, JSSet.has. destruct (existsb (String.eqb p) s) eqn:Hhas.
  - apply existsb_exists in Hhas. destruct Hhas as [x [Hin Hx]].
    apply String.eqb_eq in Hx. subst x. exact Hin.
  - apply in_or_app. right. left. reflexivity.
Qed.

Lemma JSSet_add_keeps (p q : string) (s : list string) :
  In q s -> In q (JSSet.add p s).
Proof.
  unfold JSSet.add. destruct (JSSet.has p s); [auto|].
  intros H. apply in_or_app. left. exact H.
Qed.

Lemma insertIndex_in {V : Type} (n : N) (e : string * V) (l : list (N * (string * V)))
    (x : N * (string * V)) :
  In x (JSObject.insertIndex n e l) -> x = (n, e) \/ In x l.
Proof.
  induction l as [|[n' e'] l IH]; cbn.
  - intros [<-|[]]. left. reflexivity.
  - destruct (n <? n')%N; cbn.
    + intros [<-|H]; [left; reflexivity|right; exact H].
    + intros [<-|H]; [right; left; reflexivity|].
      destruct (IH H) as [->|H']; [left; reflexivity|right; right; exact H'].
Qed.

Lemma indexEntries_in {V : Type} (m : list (string * V)) (x : N * (string * V)) :
  In x (JSObject.indexEntries m) -> In (snd x) m.
Proof.
  induction m as [|[k v] m IH]; cbn; [tauto|].
  destruct (JSObject.arrayIndex k).
  - intros H. destruct (insertIndex_in _ _ _ _ H) as [->|H']; [left; reflexivity|].
    right. exact (IH H').
  - intros H. right. exact (IH H).
Qed.

Lemma entries_in {V : Type} (m : list (string * V)) (e : string * V) :
  In e (JSObject.entries m) -> In e m.
Proof.
  unfold JSObject.entries. intros H. apply in_app_or in H. destruct H as [H|H].
  - apply in_map_iff in H. destruct H as [x [<- Hx]]. exact (indexEntries_in _ _ Hx).
  - apply filter_In in H. tauto.
Qed.

Section ResultFacts.
Context {E : RegExpEngine}.
Variable clock : nat -> string.

(** The results while the loop handles the error of a file: the file is
    counted as processed and its error is still to be recorded. *)
Lemma fixOne_consistent (o : Fixer.FixOptions) (filePath : string)
    (fileFindings : list Finding) (results results' : Fixer.Results)
    (st st' : Fixer.t) (out : result unit) :
  consistent results st ->
  Fixer.fixOne clock o filePath fileFindings results st = (out, results', st') ->
  (forall q, In q (Fixer.fixedFiles st) -> In q (Fixer.fixedFiles st'))
  /\ (forall q, In q (Fixer.res_fixedFiles results') ->
                In q (Fixer.res_fixedFiles results) \/ q = filePath)
  /\ match out with
     | Return _ => consistent results' st'
     | Throw _ =>
         Fixer.filesFixed results' = length (Fixer.res_fixedFiles results')
         /\ S (Fixer.filesFixed results' + length (Fixer.errors results'))
            <= Fixer.filesProcessed results'
         /\ Fixer.filesFixed results' <= Fixer.patternsReplaced results'
         /\ length (Fixer.backupsCreated results') <= Fixer.filesProcessed results'
         /\ (forall p, In p (Fixer.res_fixedFiles results') ->
                       In p (Fixer.fixedFiles st'))
     end.
Proof.
  intros (Hlen & Hsum & Hpat & Hbak & Hin). unfold Fixer.fixOne, consistent.
  destruct (Fixer.backupBeforeFix o && negb (Fixer.dryRun (Fixer.options st))).
  - destruct (Fixer.createBackup clock filePath st) as [[b|e] st1] eqn:Hb;
      destruct (keepsFiles_createBackup clock filePath _ _ _ Hb) as (_ & Hf1 & _).
    + destruct (Fixer.fixFile filePath fileFindings st1) as [[fr|e] st2] eqn:Hfix;
        destruct (fixFile_frame _ _ _ _ _ Hfix) as (_ & _ & Hf2 & _);
        unfold Fixer.getFixedFiles in Hf2.
      * destruct (Nat.ltb_spec 0 (Fixer.fr_patternsReplaced fr)); intros [= <- <- <-];
          cbn; rewrite ?length_app, ?Hf2, ?Hf1; cbn; split_and!;
          try lia; auto using JSSet_add_keeps;
          try (intros q Hq; apply in_app_or in Hq; destruct Hq as [Hq|[<-|[]]];
               auto using JSSet_add_keeps, JSSet_add_in).
      * intros [= <- <- <-]. cbn. rewrite ?length_app, ?Hf2, ?Hf1. cbn.
        split_and!; try lia; auto.
    + intros [= <- <- <-]. cbn. rewrite ?Hf1. split_and!; try lia; auto.
  - destruct (Fixer.fixFile filePath fileFindings st) as [[fr|e] st2] eqn:Hfix;
      destruct (fixFile_frame _ _ _ _ _ Hfix) as (_ & _ & Hf2 & _);
      unfold Fixer.getFixedFiles in Hf2.
    + destruct (Nat.ltb_spec 0 (Fixer.fr_patternsReplaced fr)); intros [= <- <- <-];
        cbn; rewrite ?length_app, ?Hf2; cbn; split_and!;
        try lia; auto using JSSet_add_keeps;
        try (intros q Hq; apply in_app_or in Hq; destruct Hq as [Hq|[<-|[]]];
             auto using JSSet_add_keeps, JSSet_add_in).
    + intros [= <- <- <-]. cbn. rewrite ?Hf2. split_and!; try lia; auto.
Qed.

Lemma fixEach_consistent (o : Fixer.FixOptions) (todo : list (string * list Finding)) :
  forall (results results' : Fixer.Results) (st st' : Fixer.t) (out : result unit),
    consistent results st ->
    Fixer.fixEach clock o todo results st = (out, results', st') ->
    consistent results' st'
    /\ (forall q, In q (Fixer.res_fixedFiles results') ->
                  In q (Fixer.res_fixedFiles results) \/ In q (map fst todo)).
Proof.
  induction todo as [|[filePath fileFindings] rest IH];
    intros results results' st st' out Hinv Hrun.
  - cbn in Hrun. injection Hrun as _ <- <-. split; [exact Hinv|auto].
  - cbn [Fixer.fixEach] in Hrun.
    destruct (Fixer.fixOne clock o filePath fileFindings results st)
      as [[out1 results1] st1] eqn:Hone.
    destruct (fixOne_consistent _ _ _ _ _ _ _ _ Hinv Hone) as (Hmono & Hfrom & Hout).
    destruct out1 as [[]|message].
    + destruct (IH _ _ _ _ _ Hout Hrun) as [Hc Hsub]. split; [exact Hc|].
      intros q Hq. destruct (Hsub q Hq) as [H|H]; [|right; right; exact H].
      destruct (Hfrom q H) as [H'| ->]; [left; exact H'|right; left; reflexivity].
    + cbn [fst snd] in Hrun.
      destruct Hout as (Hlen & Hsum & Hpat & Hbak & Hin).
      match type of Hrun with
      | context [Fixer.fixEach clock o rest ?r ?s] =>
          assert (Hinv' : consistent r s)
      end.
      { unfold consistent. cbn. rewrite length_app. cbn. split_and!; try lia; auto. }
      destruct (Fixer.continueOnError o); cbn [negb] in Hrun.
      * destruct (IH _ _ _ _ _ Hinv' Hrun) as [Hc Hsub]. split; [exact Hc|].
        intros q Hq. destruct (Hsub q Hq) as [H|H]; [|right; right; exact H].
        cbn in H.
        destruct (Hfrom q H) as [H'| ->]; [left; exact H'|right; left; reflexivity].
      * injection Hrun as _ <- <-. split; [exact Hinv'|].
        intros q Hq. cbn in Hq.
        destruct (Hfrom q Hq) as [H'| ->]; [left; exact H'|right; left; reflexivity].
Qed.

(** X24.  The results that [applyFixes] returns are consistent: the number
    of files fixed is the number of paths listed as fixed; fixed files and
    errors together do not exceed the files processed, nor do the backups;
    every fixed file counts at least one replacement; every path listed as
    fixed is in the fixer's set of fixed files and is the path of a finding
    that was fixable. *)
Theorem applyFixes_results_consistent (findings : list Finding) (o : Fixer.FixOptions)
    (st st' : Fixer.t) (results : Fixer.Results) :
  Fixer.applyFixes clock findings o st = (Return results, st') ->
  Fixer.filesFixed results = length (Fixer.res_fixedFiles results)
  /\ Fixer.filesFixed results + length (Fixer.errors results)
     <= Fixer.filesProcessed results
  /\ Fixer.filesFixed results <= Fixer.patternsReplaced results
  /\ length (Fixer.backupsCreated results) <= Fixer.filesProcessed results
  /\ (forall p, In p (Fixer.res_fixedFiles results) ->
                In p (Fixer.getFixedFiles st')
                /\ exists f, In f findings /\ Fixer.isFixable f = true
                             /\ f_filePath f = p).
Proof.
  unfold Fixer.applyFixes.
  destruct (length (List.filter Fixer.isFixable findings) =? 0).
  { intros [= <- <-]. cbn. split_and!; try lia; intros p []. }
  pose proof (groupFindingsByFile_spec (List.filter Fixer.isFixable findings)) as Hg.
  destruct (Fixer.groupFindingsByFile (List.filter Fixer.isFixable findings))
    as [grouped|e]; [|discriminate].
  destruct (Fixer.fixEach clock o (JSObject.entries grouped) Fixer.noResults st)
    as [[out results1] st1] eqn:Hrun.
  assert (Hinit : consistent Fixer.noResults st).
  { unfold consistent. cbn. split_and!; try lia; intros p []. }
  destruct (fixEach_consistent _ _ _ _ _ _ _ Hinit Hrun)
    as [(Hlen & Hsum & Hpat & Hbak & Hin) Hsub].
  destruct out as [[]|e].
  2:{ destruct (0 <? length (Fixer.backupsCreated results1)); discriminate. }
  intros [= <- <-]. split_and!; try assumption.
  intros p Hp. split; [exact (Hin p Hp)|].
  destruct (Hsub p Hp) as [[]|Hkey].
  apply in_map_iff in Hkey. destruct Hkey as [[k v] [Hk Hentry]]. cbn in Hk. subst k.
  apply entries_in in Hentry.
  destruct Hg as (_ & Hget & _).
  assert (Hsome : JSMap.get p grouped <> None).
  { intros Hnone. apply JSMap_get_none in Hnone. apply Hnone.
    unfold JSMap.keys. apply in_map_iff. exists (p, v). auto. }
  rewrite Hget in Hsome.
  destruct (existsb (hasPath p) (List.filter Fixer.isFixable findings)) eqn:Hex;
    [|congruence].
  apply existsb_exists in Hex. destruct Hex as [f [Hf Hpath]].
  apply filter_In in Hf. destruct Hf as [Hf Hfix].
  apply String.eqb_eq in Hpath. eauto.
Qed.

End ResultFacts.

Lemma applyFixes_results_consistent_witness :
  let run := Fixer.applyFixes (E := MiniRegExp.engine) frozenClock
               [findingA; findingB] lenient realFixer in
  exists results,
    fst run = Return results
    /\ Fixer.filesFixed results + length (Fixer.errors results)
       <= Fixer.filesProcessed results.
Proof.
  cbn zeta.
  pose (run := Fixer.applyFixes (E := MiniRegExp.engine) frozenClock
                 [findingA; findingB] lenient realFixer).
  pose (results := match fst run with
                   | Return results => results
                   | Throw _ => Fixer.noResults
                   end).
  assert (H : run = (Return results, snd run)) by (vm_compute; reflexivity).
  exists results. split; [exact (f_equal fst H)|].
  exact (proj1 (proj2 (applyFixes_results_consistent (E := MiniRegExp.engine)
                         frozenClock _ _ _ _ _ H))).
Defined.

(** * Files whose findings are all without a replacement *)

Lemma JSSet_add_inv (p q : string) (s : list string) :
  In p (JSSet.add q s) -> p = q \/ In p s.
Proof.
  unfold JSSet.add. destruct (JSSet.has q s); [auto|].
  intros H. apply in_app_or in H. destruct H as [H|[<-|[]]]; auto.
Qed.

Lemma copy_other (src dest p : string) (overwrite : bool)
    (files files' : gmap string node) :
  FS.copy src dest overwrite files = Return files' ->
  p <> dest ->
  files' !! p = files !! p.
Proof.
  unfold FS.copy. intros H Hp.
  destruct (files !! src) as [s|]; [|discriminate].
  destruct (files !! dest) as [d|].
  - destruct (String.eqb src dest); [discriminate|].
    destruct (FS.isFile s && negb (FS.isFile d)); [discriminate|].
    destruct (negb (FS.isFile s) && FS.isFile d); [discriminate|].
    destruct (negb overwrite); [injection H as <-; reflexivity|].
    destruct (negb (FS.isFile s)); [injection H as <-; reflexivity|].
    destruct (FS.readable s); [|discriminate].
    injection H as <-. apply lookup_insert_ne. congruence.
  - destruct (negb (FS.isFile s)).
    + injection H as <-. apply lookup_insert_ne. congruence.
    + destruct (FS.readable s); [|discriminate].
      injection H as <-. apply lookup_insert_ne. congruence.
Qed.

Section OtherFiles.
Context {E : RegExpEngine}.
Variable clock : nat -> string.
Variable p : string.

Lemma restoreOne_other (q : string) (st st' : Fixer.t) (out : result unit) :
  p <> q ->
  Fixer.restoreOne q st = (out, st') ->
  Fixer.fs st' !! p = Fixer.fs st !! p.
Proof.
  intros Hpq. unfold Fixer.restoreOne.
  destruct (JSMap.get q (Fixer.backupRegistry st)) as [backupPath|];
    [|intros [= _ <-]; reflexivity].
  destruct (String.eqb backupPath EmptyString); [intros [= _ <-]; reflexivity|].
  destruct (negb (FS.pathExists backupPath (Fixer.fs st)));
    [intros [= _ <-]; reflexivity|].
  unfold Fixer.bind, Fixer.update, Fixer.unregisterFixed.
  destruct (FS.copy backupPath q true (Fixer.fs st)) as [files|e] eqn:Hcopy;
    intros [= _ <-]; [|reflexivity].
  cbn. exact (copy_other _ _ _ _ _ _ Hcopy Hpq).
Qed.

Lemma restoreEach_other (paths : list string) :
  forall (results : Fixer.RestoreResults) (st : Fixer.t),
    Fixer.getBackupInfo p st = None ->
    Fixer.fs (snd (Fixer.restoreEach paths results st)) !! p = Fixer.fs st !! p.
Proof.
  induction paths as [|q rest IH]; intros results st Hnone; [reflexivity|].
  cbn [Fixer.restoreEach].
  destruct (Fixer.restoreOne q st) as [[[]|message] st1] eqn:Hone;
    destruct (restoreOne_frame _ _ _ _ Hone) as (Hreg & _ & _ & Hmissing);
    (assert (Hnone1 : Fixer.getBackupInfo p st1 = None)
       by (unfold Fixer.getBackupInfo in *; rewrite Hreg; exact Hnone));
    rewrite (IH _ _ Hnone1);
    (destruct (String.eqb_spec p q) as [<-|Hpq];
     [destruct (Hmissing Hnone) as [_ ->]; reflexivity
     |exact (restoreOne_other _ _ _ _ Hpq Hone)]).
Qed.

Lemma rollbackChanges_other (st : Fixer.t) :
  Fixer.getBackupInfo p st = None ->
  Fixer.fs (snd (Fixer.rollbackChanges st)) !! p = Fixer.fs st !! p.
Proof.
  intros Hnone. unfold Fixer.rollbackChanges, Fixer.restoreFromBackup.
  pose proof (restoreEach_other (JSMap.keys (Fixer.backupRegistry st))
                (Fixer.mkRestoreResults 0 []) st Hnone) as H.
  destruct (Fixer.restoreEach (JSMap.keys (Fixer.backupRegistry st))
              (Fixer.mkRestoreResults 0 []) st) as [results st1].
  exact H.
Qed.

(** What handling another file leaves of [p]. *)
Lemma fixOne_other (o : Fixer.FixOptions) (q : string) (fileFindings : list Finding)
    (results results' : Fixer.Results) (st st' : Fixer.t) (out : result unit) :
  p <> q ->
  Fixer.fixOne clock o q fileFindings results st = (out, results', st') ->
  (forall n, Fixer.fs st !! p = Some n -> Fixer.fs st' !! p = Some n)
  /\ JSMap.get p (Fixer.backupRegistry st') = JSMap.get p (Fixer.backupRegistry st)
  /\ (In p (Fixer.fixedFiles st') -> In p (Fixer.fixedFiles st))
  /\ (In p (Fixer.res_fixedFiles results') -> In p (Fixer.res_fixedFiles results))
  /\ Fixer.errors results' = Fixer.errors results.
Proof.
  intros Hpq. unfold Fixer.fixOne.
  assert (Hfix : forall st1 st2 out2,
             Fixer.fixFile q fileFindings st1 = (out2, st2) ->
             (forall n, Fixer.fs st1 !! p = Some n -> Fixer.fs st2 !! p = Some n)
             /\ Fixer.backupRegistry st2 = Fixer.backupRegistry st1
             /\ Fixer.fixedFiles st2 = Fixer.fixedFiles st1).
  { intros st1 st2 out2 Hrun.
    destruct (fixFile_frame _ _ _ _ _ Hrun) as (_ & Hreg & Hfixed & Helse & _).
    split_and!; [|exact Hreg|exact Hfixed].
    intros n Hn. rewrite (Helse p Hpq). exact Hn. }
  assert (Hadd : forall s, In p (JSSet.add q s) -> In p s).
  { intros s H. destruct (JSSet_add_inv _ _ _ H) as [Heq|H']; [contradiction|exact H']. }
  assert (Happ : forall l, In p (l ++ [q]) -> In p l).
  { intros l H. apply in_app_or in H. destruct H as [H|[Heq|[]]]; [exact H|].
    symmetry in Heq. contradiction. }
  destruct (Fixer.backupBeforeFix o && negb (Fixer.dryRun (Fixer.options st))).
  - destruct (Fixer.createBackup clock q st) as [[b|e] st1] eqn:Hb.
    + destruct (keepsFiles_createBackup clock q _ _ _ Hb) as (_ & Hf1 & Hk1).
      destruct (createBackup_success clock _ _ _ _ Hb) as (_ & _ & _ & _ & Hreg1 & _).
      assert (Hget1 : JSMap.get p (Fixer.backupRegistry st1)
                      = JSMap.get p (Fixer.backupRegistry st)).
      { rewrite Hreg1. apply JSMap_get_set_ne. exact Hpq. }
      destruct (Fixer.fixFile q fileFindings st1) as [[fr|e] st2] eqn:Hrun;
        destruct (Hfix _ _ _ Hrun) as (Hk2 & Hreg2 & Hf2).
      * destruct (0 <? Fixer.fr_patternsReplaced fr); intros [= _ <- <-]; cbn;
          rewrite ?Hreg2, ?Hf2, ?Hf1; split_and!; auto.
      * intros [= _ <- <-]. cbn. rewrite ?Hreg2, ?Hf2, ?Hf1. split_and!; auto.
    + destruct (keepsFiles_createBackup clock q _ _ _ Hb) as (_ & Hf1 & Hk1).
      destruct (createBackup_throw clock _ _ _ _ Hb) as [Hreg1 _].
      unfold sameRegistry in Hreg1.
      intros [= _ <- <-]. cbn. rewrite Hreg1, Hf1. split_and!; auto.
  - destruct (Fixer.fixFile q fileFindings st) as [[fr|e] st2] eqn:Hrun;
      destruct (Hfix _ _ _ Hrun) as (Hk2 & Hreg2 & Hf2).
    + destruct (0 <? Fixer.fr_patternsReplaced fr); intros [= _ <- <-]; cbn;
        rewrite ?Hreg2, ?Hf2; split_and!; auto.
    + intros [= _ <- <-]. cbn. rewrite ?Hreg2, ?Hf2. split_and!; auto.
Qed.

Lemma fixEach_other (o : Fixer.FixOptions) (todo : list (string * list Finding)) :
  forall (results results' : Fixer.Results) (st st' : Fixer.t) (out : result unit),
    ~ In p (map fst todo) ->
    Fixer.fixEach clock o todo results st = (out, results', st') ->
    (forall n, Fixer.fs st !! p = Some n -> Fixer.fs st' !! p = Some n)
    /\ JSMap.get p (Fixer.backupRegistry st') = JSMap.get p (Fixer.backupRegistry st)
    /\ (In p (Fixer.fixedFiles st') -> In p (Fixer.fixedFiles st))
    /\ (In p (Fixer.res_fixedFiles results') -> In p (Fixer.res_fixedFiles results))
    /\ (forall e, In e (Fixer.errors results') ->
                  In e (Fixer.errors results) \/ Fixer.ei_filePath e <> p).
Proof.
  induction todo as [|[q fileFindings] rest IH];
    intros results results' st st' out Hnot Hrun.
  - cbn in Hrun. injection Hrun as _ <- <-. split_and!; auto.
  - cbn [Fixer.fixEach] in Hrun. cbn in Hnot.
    assert (Hpq : p <> q) by (intros ->; apply Hnot; left; reflexivity).
    assert (Hrest : ~ In p (map fst rest)) by (intros H; apply Hnot; right; exact H).
    destruct (Fixer.fixOne clock o q fileFindings results st)
      as [[out1 results1] st1] eqn:Hone.
    destruct (fixOne_other _ _ _ _ _ _ _ _ Hpq Hone) as (Hk & Hreg & Hf & Hr & He).
    destruct out1 as [[]|message].
    + destruct (IH _ _ _ _ _ Hrest Hrun) as (Hk' & Hreg' & Hf' & Hr' & He').
      split_and!; auto; [congruence|].
      intros e Hin. destruct (He' e Hin) as [H|H]; [left; congruence|right; exact H].
    + cbn [fst snd] in Hrun.
      destruct (Fixer.continueOnError o); cbn [negb] in Hrun.
      * destruct (IH _ _ _ _ _ Hrest Hrun) as (Hk' & Hreg' & Hf' & Hr' & He').
        cbn in Hk', Hreg', Hf', Hr', He'.
        split_and!; auto; [congruence|].
        intros e Hin. destruct (He' e Hin) as [H|H]; [|right; exact H].
        rewrite He in H. apply in_app_or in H.
        destruct H as [H|[<-|[]]]; [left; exact H|right; cbn; congruence].
      * injection Hrun as _ <- <-. cbn. split_and!; auto.
        intros e Hin. rewrite He in Hin. apply in_app_or in Hin.
        destruct Hin as [H|[<-|[]]]; [left; exact H|right; cbn; congruence].
Qed.

Lemma not_grouped (findings : list Finding) (grouped : list (string * list Finding)) :
  onlyNonFixable p findings ->
  Fixer.groupFindingsByFile (List.filter Fixer.isFixable findings) = Return grouped ->
  ~ In p (map fst (JSObject.entries grouped)).
Proof.
  intros Hnon Hgroup Hin.
  pose proof (groupFindingsByFile_spec (List.filter Fixer.isFixable findings)) as Hspec.
  rewrite Hgroup in Hspec. destruct Hspec as (_ & Hget & _).
  apply in_map_iff in Hin. destruct Hin as [[k v] [Hk Hentry]]. cbn in Hk. subst k.
  apply entries_in in Hentry.
  assert (Hsome : JSMap.get p grouped <> None).
  { intros Hnone. apply JSMap_get_none in Hnone. apply Hnone.
    unfold JSMap.keys. apply in_map_iff. exists (p, v). auto. }
  rewrite Hget in Hsome.
  destruct (existsb (hasPath p) (List.filter Fixer.isFixable findings)) eqn:Hex;
    [|congruence].
  apply existsb_exists in Hex. destruct Hex as [f [Hf Hpath]].
  apply filter_In in Hf. destruct Hf as [Hf Hfix].
  apply String.eqb_eq in Hpath. unfold Fixer.isFixable in Hfix.
  apply andb_true_iff in Hfix. destruct Hfix as [Hflag Hrep].
  destruct (Hnon f Hf Hpath) as [H|H]; [congruence|].
  rewrite H in Hrep. discriminate.
Qed.

Lemma applyFixes_other (findings : list Finding) (o : Fixer.FixOptions) (st : Fixer.t) :
  onlyNonFixable p findings ->
  let run := Fixer.applyFixes clock findings o st in
  (forall results,
      fst run = Return results ->
      ~ In p (Fixer.res_fixedFiles results)
      /\ (forall e, In e (Fixer.errors results) -> Fixer.ei_filePath e <> p)
      /\ Fixer.getBackupInfo p (snd run) = Fixer.getBackupInfo p st)
  /\ (In p (Fixer.getFixedFiles (snd run)) -> In p (Fixer.getFixedFiles st))
  /\ (forall n,
         Fixer.fs st !! p = Some n ->
         Fixer.getBackupInfo p st = None
         \/ Fixer.continueOnError o = true
         \/ (exists results, fst run = Return results) ->
         Fixer.fs (snd run) !! p = Some n).
Proof.
  intros Hnon. cbn zeta. unfold Fixer.applyFixes.
  destruct (length (List.filter Fixer.isFixable findings) =? 0).
  { cbn. split_and!; auto. intros results [= <-]. cbn. split_and!; auto. }
  destruct (Fixer.groupFindingsByFile (List.filter Fixer.isFixable findings))
    as [grouped|e] eqn:Hgroup.
  2:{ cbn. split_and!; auto. discriminate. }
  pose proof (not_grouped _ _ Hnon Hgroup) as Hnot.
  destruct (Fixer.fixEach clock o (JSObject.entries grouped) Fixer.noResults st)
    as [[out results1] st1] eqn:Hrun.
  destruct (fixEach_other _ _ _ _ _ _ _ Hnot Hrun) as (Hk & Hreg & Hf & Hr & He).
  assert (Hinfo : Fixer.getBackupInfo p st1 = Fixer.getBackupInfo p st)
    by (unfold Fixer.getBackupInfo; rewrite Hreg; reflexivity).
  destruct out as [[]|e].
  - cbn [fst snd]. split_and!.
    + intros results [= <-]. split_and!; [exact Hr| |exact Hinfo].
      intros e Hin. destruct (He e Hin) as [[]|H]. exact H.
    + exact Hf.
    + intros n Hn _. exact (Hk n Hn).
  - assert (Hstrict : Fixer.continueOnError o = false).
    { destruct (Fixer.continueOnError o) eqn:Hc; [|reflexivity].
      destruct (fixEach_lenient clock o (JSObject.entries grouped) Fixer.noResults
                  st Hc) as (r & s & Hret & _).
      rewrite Hret in Hrun. discriminate. }
    destruct (0 <? length (Fixer.backupsCreated results1)); cbn [fst snd].
    + split_and!.
      * discriminate.
      * unfold Fixer.rollbackChanges.
        destruct (Fixer.restoreFromBackup _ st1). cbn. intros [].
      * intros n Hn [Hnone|[Hc|[results Hret]]]; [|congruence|discriminate].
        rewrite rollbackChanges_other by (rewrite Hinfo; exact Hnone).
        exact (Hk n Hn).
    + split_and!.
      * discriminate.
      * exact Hf.
      * intros n Hn _. exact (Hk n Hn).
Qed.

End OtherFiles.

(** C8: a finding produced for a rule whose replacement is [null] is not
    fixable, and a scan marks a finding fixable only when its rule has a
    replacement.  [applyFixes] drops the findings that are not fixable
    before anything else happens: given only such findings it returns the
    empty result and leaves the fixer, its registry and the file system as
    they were, and in general its outcome is that of the fixable findings
    alone.  A file whose findings are all of this kind is never backed up,
    fixed, counted or reported by the call, and it is not listed as fixed
    because of it.  The call leaves the file as it is whenever it returns,
    whenever [continueOnError] is set, and whenever no backup of the file
    was registered before the call; what remains is the rollback of a
    failed call, which restores every registered file, this one included. *)
Theorem C8_null_replacement_never_fixed :
  forall (E : RegExpEngine),
    (forall (this : RuleEngine.t) (re : RegExp) (content : string) (rule : Rule)
            (filePath : string) (findings : list Finding),
        r_replacement rule = None ->
        RuleEngine.applyRuleWithTimeout this re content rule filePath
          = Return findings ->
        forall f, In f findings ->
          f_fixable f = false /\ f_replacement f = None)
    /\ (forall (this : RuleEngine.t) (content filePath fileExtension : string) f,
          In f (fst (RuleEngine.applyRules content filePath fileExtension this)) ->
          exists rule,
            In rule (RuleEngine.rules this)
            /\ f_ruleId f = r_id rule
            /\ f_replacement f = r_replacement rule
            /\ f_fixable f = match r_replacement rule with
                             | Some _ => true
                             | None => false
                             end)
    /\ (forall (clock : nat -> string) (findings : list Finding)
               (o : Fixer.FixOptions) (st : Fixer.t),
          (forall f, In f findings ->
                     f_fixable f = false \/ f_replacement f = None) ->
          Fixer.applyFixes clock findings o st = (Return Fixer.noResults, st))
    /\ (forall (clock : nat -> string) (findings : list Finding)
               (o : Fixer.FixOptions) (st : Fixer.t),
          Fixer.applyFixes clock findings o st
          = Fixer.applyFixes clock (List.filter Fixer.isFixable findings) o st)
    /\ (forall (clock : nat -> string) (findings : list Finding)
               (o : Fixer.FixOptions) (st : Fixer.t) (filePath : string),
          onlyNonFixable filePath findings ->
          let run := Fixer.applyFixes clock findings o st in
          (forall results,
              fst run = Return results ->
              ~ In filePath (Fixer.res_fixedFiles results)
              /\ (forall e, In e (Fixer.errors results) ->
                            Fixer.ei_filePath e <> filePath)
              /\ Fixer.getBackupInfo filePath (snd run)
                 = Fixer.getBackupInfo filePath st)
          /\ (In filePath (Fixer.getFixedFiles (snd run)) ->
              In filePath (Fixer.getFixedFiles st))
          /\ (forall n,
                 Fixer.fs st !! filePath = Some n ->
                 Fixer.getBackupInfo filePath st = None
                 \/ Fixer.continueOnError o = true
                 \/ (exists results, fst run = Return results) ->
                 Fixer.fs (snd run) !! filePath = Some n)).
Proof.
  intros E.
  assert (Hscan : forall (this : RuleEngine.t) (re : RegExp) content rule filePath
                         findings,
             RuleEngine.applyRuleWithTimeout this re content rule filePath
               = Return findings ->
             forall f, In f findings ->
               exists m, f = RuleEngine.findingOf content rule filePath m).
  { intros this re content rule filePath findings Hrun f Hin.
    assert (Hs : RuleEngine.scan RuleEngine.maxIterations re content rule
                   filePath 0 = Return findings).
    { unfold RuleEngine.applyRuleWithTimeout, ErrorHandler.withTimeout in Hrun.
      destruct (RuleEngine.errorHandler this); exact Hrun. }
    destruct (scan_findings _ _ _ _ _ _ _ Hs f Hin) as (li & m & li' & _ & ->).
    now exists m. }
  split_and!.
  - intros this re content rule filePath findings Hnull Hrun f Hin.
    destruct (Hscan _ _ _ _ _ _ Hrun f Hin) as [m ->]. cbn. rewrite Hnull. auto.
  - intros this content filePath fileExtension f Hin.
    destruct (applyEach_findings _ _ _ _ _ _ Hin)
      as (rule & this' & re & findings & Hr & Hrun & Hf).
    destruct (Hscan _ _ _ _ _ _ Hrun f Hf) as [m ->].
    exists rule. repeat split; try reflexivity. exact Hr.
  - intros clock findings o st Hnon. unfold Fixer.applyFixes.
    rewrite (filter_isFixable_none findings Hnon). reflexivity.
  - intros clock findings o st. unfold Fixer.applyFixes.
    rewrite filter_isFixable_idem. reflexivity.
  - intros clock findings o st filePath Hnon.
    exact (applyFixes_other clock filePath findings o st Hnon).
Qed.

Lemma C8_witness :
  let run := Fixer.applyFixes (E := MiniRegExp.engine) frozenClock
               [findingA; findingB; findingNote] lenient sessionStart in
  Fixer.fs (snd run) !! "/p/c.js" = Some (File "var w = 4;" 420%N)
  /\ FS.readFile "/p/a.js" (Fixer.fs (snd run)) = Return "const x = 1;".
Proof.
  cbn zeta. split; [|vm_compute; reflexivity].
  assert (Hnon : onlyNonFixable "/p/c.js" [findingA; findingB; findingNote]).
  { intros f [<-|[<-|[<-|[]]]] Hpath;
      [discriminate Hpath|discriminate Hpath|left; reflexivity]. }
  destruct (proj2 (proj2 (proj2 (proj2
              (C8_null_replacement_never_fixed MiniRegExp.engine))))
              frozenClock [findingA; findingB; findingNote] lenient sessionStart
              "/p/c.js" Hnon) as (_ & _ & Hkeep).
  apply Hkeep; [vm_compute; reflexivity|right; left; reflexivity].
Defined.

(** A file whose only finding has no replacement is changed all the same:
    the first call of the session fixes the file, which registers a backup
    of it; the second call has only that finding for the file, fails on
    another file, and its rollback puts the file back to what it was before
    the first call. *)
Lemma C8_counterexample :
  let first := Fixer.applyFixes (E := MiniRegExp.engine) frozenClock
                 [findingC] lenient sessionStart in
  let second := Fixer.applyFixes (E := MiniRegExp.engine) frozenClock
                  [findingA; findingB; findingNote] strict (snd first) in
  onlyNonFixable "/p/c.js" [findingA; findingB; findingNote]
  /\ FS.readFile "/p/c.js" (Fixer.fs (snd first)) = Return "const w = 4;"
  /\ FS.readFile "/p/c.js" (Fixer.fs (snd second)) = Return "var w = 4;".
Proof.
  cbn zeta. split_and!.
  - intros f [<-|[<-|[<-|[]]]] Hpath;
      [discriminate Hpath|discriminate Hpath|left; reflexivity].
  - vm_compute. reflexivity.
  - vm_compute. reflexivity.
Qed.

(** * Further properties: the rule engine's findings and the command line *)

Lemma validateAll_in (items : list json) :
  forall (rules : list Rule) (rule : Rule),
    validateAll items = Return rules ->
    In rule rules ->
    exists item, In item items /\ RuleEngine.validateRule item = Return rule.
Proof.
  induction items as [|item rest IH]; intros rules rule.
  - intros [= <-] [].
  - cbn [validateAll]. unfold mbind, result_bind.
    destruct (RuleEngine.validateRule item) as [r|e] eqn:Hv; [|discriminate].
    destruct (validateAll rest) as [rs|e]; [|discriminate].
    intros [= <-] [<-|Hin].
    + exists item. split; [left; reflexivity|exact Hv].
    + destruct (IH rs rule eq_refl Hin) as [j [Hj Hr]].
      exists j. split; [right; exact Hj|exact Hr].
Qed.

Lemma take_in {A : Type} (n : nat) (l : list A) (x : A) : In x (take n l) -> In x l.
Proof.
  revert n. induction l as [|a l IH]; intros [|n]; cbn; try tauto.
  intros [<-|H]; [left; reflexivity|right; exact (IH n H)].
Qed.

Section FindingFacts.
Context {E : RegExpEngine}.

(** X25.  On the findings of an engine whose rules were loaded from a
    rules file, the three tests of fixability agree: [canFix] and the
    filter of the fixer's [applyFixes] accept a finding exactly when its
    [fixable] flag is set, which is exactly when its replacement is not
    [null]; the pattern it carries is never empty. *)
Theorem engine_findings_pass_canFix
    (rulesPath : string) (config : json) (items : list json) (this : RuleEngine.t)
    (content filePath fileExtension : string) (f : Finding) :
  JSON.get config "rules" = Return (Some (JArray items)) ->
  In f (fst (RuleEngine.applyRules content filePath fileExtension
               (snd (RuleEngine.loadRules rulesPath (RuleEngine.Parsed config) this)))) ->
  Fixer.canFix f = f_fixable f
  /\ Fixer.isFixable f = f_fixable f
  /\ (f_fixable f = true <-> f_replacement f <> None)
  /\ exists pattern, f_pattern f = Some pattern /\ pattern <> EmptyString.
Proof.
  intros Hitems Hin.
  destruct (RuleEngine.loadRules rulesPath (RuleEngine.Parsed config) this)
    as [out engine] eqn:Hload.
  unfold RuleEngine.loadRules in Hload. rewrite Hitems in Hload.
  destruct (loadEach_prefix _ _ _ _ Hload) as (n & validated & _ & Hval & Hrules & _).
  cbn [RuleEngine.rules app snd] in *.
  unfold RuleEngine.applyRules in Hin.
  destruct (applyEach_applicable _ _ _ _ _ _ Hin) as (rule & re & m & Hrule & _ & _ & ->).
  rewrite Hrules in Hrule.
  destruct (validateAll_in _ _ _ Hval Hrule) as (item & _ & Hitem).
  destruct (validateRule_fields _ _ Hitem) as (_ & _ & (_ & Hpattern) & _).
  unfold Fixer.canFix, Fixer.isFixable, RuleEngine.findingOf.
  cbn [f_fixable f_replacement f_pattern f_matchedText].
  assert (Hp : String.eqb (r_pattern rule) EmptyString = false)
    by (apply String.eqb_neq; exact Hpattern).
  rewrite Hp. cbn [negb]. rewrite orb_true_r.
  destruct (r_replacement rule); cbn; split_and!; try reflexivity; eauto;
    split; congruence.
Qed.

End FindingFacts.

Lemma engine_findings_pass_canFix_witness :
  let f := mkFinding "var-to-const" "var-to-const" (JString "var-to-const")
             "/p/test.js" 1 1 "var" SevWarning true (Some "const")
             (Some "\bvar\b") in
  Fixer.canFix f = f_fixable f.
Proof.
  refine (proj1 (engine_findings_pass_canFix (E := MiniRegExp.engine) "rules.json"
                   (JObject [("rules", JArray [varRule])]) [varRule]
                   (RuleEngine.new None) varContent "/p/test.js" "js" _ eq_refl _)).
  vm_compute. left. reflexivity.
Defined.

Lemma filter_isFixable_fixable (findings : list Finding) :
  List.filter Fixer.isFixable (List.filter f_fixable findings)
  = List.filter Fixer.isFixable findings.
Proof.
  induction findings as [|f findings IH]; [reflexivity|].
  cbn [List.filter]. unfold Fixer.isFixable at 2.
  destruct (f_fixable f) eqn:Hf; cbn [List.filter andb].
  - unfold Fixer.isFixable at 1. rewrite Hf. cbn [andb]. rewrite IH. reflexivity.
  - exact IH.
Qed.

Lemma cli_groupInto_throw (rest : list Finding) :
  forall (fileGroups : list (string * list Finding)) (e : string),
    CLI.groupInto fileGroups rest = Throw e ->
    e = "fileGroups[finding.filePath].push is not a function"
    /\ exists f, In f rest /\ JSObject.isInherited (f_filePath f) = true.
Proof.
  induction rest as [|finding rest IH]; intros fileGroups e; [discriminate|].
  cbn [CLI.groupInto].
  destruct (JSMap.get (f_filePath finding) fileGroups).
  - intros H. destruct (IH _ _ H) as [He [f [Hin Hf]]]. split; [exact He|].
    exists f. split; [right; exact Hin|exact Hf].
  - destruct (JSObject.isInherited (f_filePath finding)) eqn:Hinh.
    + intros [= <-]. split; [reflexivity|]. exists finding.
      split; [left; reflexivity|exact Hinh].
    + intros H. destruct (IH _ _ H) as [He [f [Hin Hf]]]. split; [exact He|].
      exists f. split; [right; exact Hin|exact Hf].
Qed.

Section CommandLineFacts.
Context {E : RegExpEngine}.
Variable clock : nat -> string.

Lemma applyFixes_prefiltered (findings : list Finding) (o : Fixer.FixOptions)
    (st : Fixer.t) :
  Fixer.applyFixes clock (List.filter f_fixable findings) o st
  = Fixer.applyFixes clock findings o st.
Proof. unfold Fixer.applyFixes. rewrite filter_isFixable_fixable. reflexivity. Qed.

Lemma applyFixes_lenient_throw (findings : list Finding) (backup : bool)
    (st st' : Fixer.t) (e : string) :
  Fixer.applyFixes clock findings (Fixer.mkFixOptions backup true) st = (Throw e, st') ->
  st' = st
  /\ e = "grouped[finding.filePath].push is not a function"
  /\ exists f, In f findings /\ Fixer.isFixable f = true
               /\ JSObject.isInherited (f_filePath f) = true.
Proof.
  unfold Fixer.applyFixes.
  destruct (length (List.filter Fixer.isFixable findings) =? 0); [discriminate|].
  pose proof (groupFindingsByFile_spec (List.filter Fixer.isFixable findings)) as Hg.
  destruct (Fixer.groupFindingsByFile (List.filter Fixer.isFixable findings))
    as [grouped|e0].
  - destruct (fixEach_lenient clock (Fixer.mkFixOptions backup true)
                (JSObject.entries grouped) Fixer.noResults st eq_refl)
      as (results' & st1 & Hrun & _).
    rewrite Hrun. discriminate.
  - intros [= <- <-]. destruct Hg as [He [f [Hin Hinh]]].
    apply filter_In in Hin. destruct Hin as [Hin Hfix].
    split; [reflexivity|]. split; [exact He|]. eauto.
Qed.

(** X27.  [applyFixes] of the command line.  It returns [null] without
    touching anything when no finding is flagged fixable.  Otherwise, in a
    dry run or with [--yes], it hands all the findings to the fixer with
    [continueOnError] set, and gives back the fixer's results.  It can only
    fail with the [TypeError] of a finding whose path names an inherited
    property, never because a file could not be fixed. *)
Theorem cli_applyFixes_outcomes (findings : list Finding) (options : CLI.Options)
    (st : Fixer.t) :
  (existsb f_fixable findings = false ->
   CLI.applyFixes clock findings options st = (Return None, st))
  /\ (existsb f_fixable findings = true ->
      CLI.dryRun options || CLI.yes options = true ->
      forall results st',
        Fixer.applyFixes clock findings
          (Fixer.mkFixOptions (negb (CLI.noBackup options)) true) st
        = (Return results, st') ->
        CLI.applyFixes clock findings options st = (Return (Some results), st'))
  /\ (forall e st',
         CLI.applyFixes clock findings options st = (Throw e, st') ->
         (e = "fileGroups[finding.filePath].push is not a function"
          \/ e = "grouped[finding.filePath].push is not a function")
         /\ exists f, In f findings /\ f_fixable f = true
                      /\ JSObject.isInherited (f_filePath f) = true).
Proof.
  assert (Hlen : (length (List.filter f_fixable findings) =? 0)
                 = negb (existsb f_fixable findings)).
  { rewrite <- positive_filter. destruct (length (List.filter f_fixable findings));
      reflexivity. }
  unfold CLI.applyFixes. rewrite Hlen. split_and!.
  - intros ->. reflexivity.
  - intros -> Hyes results st' Hrun. cbn [negb].
    unfold Fixer.bind, Fixer.catch, Fixer.ret.
    destruct (CLI.dryRun options); [|destruct (CLI.yes options); [|discriminate]];
      cbn beta iota; cbn [negb]; rewrite applyFixes_prefiltered, Hrun; reflexivity.
  - intros e st'. destruct (existsb f_fixable findings); [|discriminate].
    cbn [negb]. unfold Fixer.bind, Fixer.catch, Fixer.ret.
    assert (Hthrow : forall e1 st1,
               Fixer.applyFixes clock findings
                 (Fixer.mkFixOptions (negb (CLI.noBackup options)) true) st
               = (Throw e1, st1) ->
               (e1 = "fileGroups[finding.filePath].push is not a function"
                \/ e1 = "grouped[finding.filePath].push is not a function")
               /\ exists f, In f findings /\ f_fixable f = true
                            /\ JSObject.isInherited (f_filePath f) = true).
    { intros e1 st1 Hrun.
      destruct (applyFixes_lenient_throw _ _ _ _ _ Hrun)
        as (_ & -> & f & Hin & Hfix & Hinh).
      assert (Hflag : f_fixable f = true).
      { unfold Fixer.isFixable in Hfix. apply andb_true_iff in Hfix. tauto. }
      split; [right; reflexivity|eauto]. }
    assert (Hfixer :
              forall run : result (option Fixer.Results) * Fixer.t,
                run = (let (r, st1) :=
                         let (r, st1) :=
                           Fixer.applyFixes clock findings
                             (Fixer.mkFixOptions (negb (CLI.noBackup options)) true)
                             st in
                         match r with
                         | Return fixResults => (Return (Some fixResults), st1)
                         | Throw error => (Throw error, st1)
                         end in
                       match r with
                       | Return a => (Return a, st1)
                       | Throw error =>
                           if 0 <? length (Fixer.getFixedFiles st1)
                           then (Throw error, snd (Fixer.rollbackChanges st1))
                           else (Throw error, st1)
                       end) ->
                run = (Throw e, st') ->
                (e = "fileGroups[finding.filePath].push is not a function"
                 \/ e = "grouped[finding.filePath].push is not a function")
                /\ exists f, In f findings /\ f_fixable f = true
                             /\ JSObject.isInherited (f_filePath f) = true).
    { intros run ->.
      destruct (Fixer.applyFixes clock findings
                  (Fixer.mkFixOptions (negb (CLI.noBackup options)) true) st)
        as [[results|e1] st1] eqn:Hrun; [discriminate|].
      destruct (0 <? length (Fixer.getFixedFiles st1)); intros [= <- _];
        exact (Hthrow _ _ eq_refl). }
    destruct (CLI.dryRun options); [|destruct (CLI.yes options)];
      cbn beta iota; cbn [negb]; rewrite ?applyFixes_prefiltered;
      try exact (Hfixer _ eq_refl).
    unfold CLI.confirmFixes.
    destruct (CLI.groupInto [] (List.filter f_fixable findings)) as [g|e1] eqn:Hg;
      cbn beta iota; cbn [negb]; rewrite ?applyFixes_prefiltered;
      [exact (Hfixer _ eq_refl)|].
    intros [= <- _].
    destruct (cli_groupInto_throw _ _ _ Hg) as (-> & f & Hin & Hinh).
    apply filter_In in Hin. destruct Hin as [Hin Hflag].
    split; [left; reflexivity|eauto].
Qed.

(** X28.  [handleCriticalError] rolls back only when the fixer lists a
    fixed file: then the session is cleared, and otherwise the fixer is
    left as it is, with its backups still registered.  In both cases no
    file is listed as fixed afterwards, and handling a second critical
    error changes nothing more. *)
Theorem handleCriticalError_leaves_no_fixed_file (st : Fixer.t) :
  Fixer.getFixedFiles (CLI.handleCriticalError st) = []
  /\ (Fixer.getFixedFiles st = [] -> CLI.handleCriticalError st = st)
  /\ (Fixer.getFixedFiles st <> [] ->
      forall p, Fixer.getBackupInfo p (CLI.handleCriticalError st) = None)
  /\ CLI.handleCriticalError (CLI.handleCriticalError st)
     = CLI.handleCriticalError st.
Proof.
  unfold CLI.handleCriticalError, Fixer.getFixedFiles.
  destruct (Fixer.fixedFiles st) as [|p fixed] eqn:Hfixed; cbn [length Nat.ltb Nat.leb].
  - rewrite Hfixed. cbn. split_and!; auto. congruence.
  - unfold Fixer.rollbackChanges.
    destruct (Fixer.restoreFromBackup (JSMap.keys (Fixer.backupRegistry st)) st)
      as [results st1].
    cbn. split_and!; auto. discriminate.
Qed.

End CommandLineFacts.

(** X26.  [calculateStatistics]: the counts by severity add up to the
    number of issues found, and the fixable count does not exceed it; the
    fix counters are present exactly when fix results were given; and the
    scan's exit code is 1 exactly when a finding has severity [error] or
    the error summary has critical errors. *)
Theorem statistics_partition_findings (findings : list Finding)
    (filesScanned scanTime : nat) (fixResults : option Fixer.Results) :
  let s := CLI.calculateStatistics findings filesScanned scanTime fixResults in
  CLI.issuesFound s = length findings
  /\ CLI.errorCount s + CLI.warningCount s + CLI.infoCount s = CLI.issuesFound s
  /\ CLI.fixableCount s <= CLI.issuesFound s
  /\ (CLI.filesFixed s = None <-> fixResults = None)
  /\ (CLI.patternsReplaced s = None <-> fixResults = None)
  /\ forall errorSummary,
       CLI.exitCode s errorSummary = Some 1
       <-> (exists f, In f findings /\ f_severity f = SevError)
           \/ ErrorHandler.hasCriticalErrors errorSummary = true.
Proof.
  cbn zeta. unfold CLI.calculateStatistics, CLI.exitCode.
  cbn [CLI.issuesFound CLI.errorCount CLI.warningCount CLI.infoCount
       CLI.fixableCount CLI.filesFixed CLI.patternsReplaced].
  split_and!.
  - reflexivity.
  - induction findings as [|f findings IH]; [reflexivity|].
    cbn [List.filter length]. unfold CLI.hasSeverity in *.
    destruct (f_severity f); cbn [length]; lia.
  - apply List.filter_length_le.
  - destruct fixResults; cbn; split; congruence.
  - destruct fixResults; cbn; split; congruence.
  - intros errorSummary. rewrite positive_filter.
    destruct (existsb (CLI.hasSeverity SevError) findings) eqn:Hex.
    + cbn [orb]. split; [|reflexivity]. intros _. left.
      apply existsb_exists in Hex. destruct Hex as [f [Hin Hf]].
      exists f. split; [exact Hin|].
      unfold CLI.hasSeverity in Hf. destruct (f_severity f); congruence.
    + cbn [orb].
      destruct (ErrorHandler.hasCriticalErrors errorSummary) eqn:Hcrit.
      * split; [auto|reflexivity].
      * split.
        -- destruct ((0 <? length (List.filter (CLI.hasSeverity SevWarning) findings))
                     || ErrorHandler.hasErrors errorSummary); discriminate.
        -- intros [[f [Hin Hf]]|Habs]; [|discriminate].
           assert (Hex' : existsb (CLI.hasSeverity SevError) findings = true).
           { apply existsb_exists. exists f. split; [exact Hin|].
             unfold CLI.hasSeverity. rewrite Hf. reflexivity. }
           congruence.
Qed.
